(** * AI-Travel-Planner: the budget estimator, embedded and verified

    The budget estimator of the repository lives in two React components:
    [generateBudgetAnalysis] and its helpers in
    [src/components/BudgetAnalystAgent.tsx], and [analyzeTripBudget] and its
    [estimate*] helpers in [src/components/TravelBudgetAnalyst.tsx].  Both
    are pure arithmetic over ECMAScript Numbers, so the embedding starts with
    a model of Numbers (IEEE 754 binary64, round to nearest, ties to even),
    then the string helpers ([toLowerCase], [includes], [parseInt]) and then
    the two estimators, field by field. *)

From Stdlib Require Import ZArith QArith Qround Qpower Qabs Lqa Lia.
From Stdlib Require Import Bool List String Ascii.
From Stdlib Require Import Floats Sorted Permutation.
Import ListNotations.

Open Scope Z_scope.

(* ================================================================== *)
(** * ECMAScript Numbers                                                *)
(* ================================================================== *)

(** A Number is a binary64 value.  The carrier is the Standard Library's
    [spec_float]: signed zeros, signed infinities, NaN, and finite values
    [(-1)^s * m * 2^e].  Every arithmetic operator of the language returns
    the exact mathematical result rounded to the nearest representable
    value, ties to even (ECMA-262, 6.1.6.1); the operators below are
    written that way, over exact rationals. *)

Module JSNumber.

Definition number := spec_float.

Definition pow2 (e : Z) : Q := Qpower (2 # 1) e.

(** Magnitude and value of a finite Number. *)
Definition Fabs (m : positive) (e : Z) : Q := (inject_Z (Zpos m) * pow2 e)%Q.

Definition F2Q (x : number) : Q :=
  match x with
  | S754_finite s m e => if s then (- Fabs m e)%Q else Fabs m e
  | _ => 0%Q
  end.

Definition sign (x : number) : bool :=
  match x with
  | S754_zero s | S754_infinity s | S754_finite s _ _ => s
  | S754_nan => false
  end.

(** [flog2 q] is the integer [k] with [2^k <= q < 2^(k+1)], for [q > 0]. *)
Definition flog2 (q : Q) : Z :=
  let k := Z.log2 (Qnum q) - Z.log2 (Zpos (Qden q)) in
  if Qle_bool (pow2 k) q then k else k - 1.

(** Nearest integer, ties to the even one. *)
Definition rhe (q : Q) : Z :=
  let f := Qfloor q in
  match (q - inject_Z f ?= 1 # 2)%Q with
  | Lt => f
  | Gt => f + 1
  | Eq => if Z.even f then f else f + 1
  end.

(** Rounding of a positive rational to binary64 with sign [s]: the
    exponent of the last place is [max (flog2 q - 52) (-1074)], the
    significand is rounded to an integer at that exponent, a carry out of 53
    bits moves to the next binade, and anything from [2^1024] on is an
    infinity. *)
Definition ulp_exp (q : Q) : Z := Z.max (flog2 q - 52) (-1074).

Definition significand (q : Q) : Z := rhe (q * pow2 (- ulp_exp q)).

Definition round_pos (s : bool) (q : Q) : number :=
  let e := ulp_exp q in
  let m := significand q in
  if m =? 0 then S754_zero s
  else
    let '(m', e') := if m =? 2 ^ 53 then (2 ^ 52, e + 1) else (m, e) in
    if 971 <? e' then S754_infinity s else S754_finite s (Z.to_pos m') e'.

(** The rational that [round_pos] rounds [q] to, before the overflow test. *)
Definition rounded (q : Q) : Q := (inject_Z (significand q) * pow2 (ulp_exp q))%Q.

Definition round_Q (q : Q) : number :=
  match (q ?= 0)%Q with
  | Eq => S754_zero false
  | Gt => round_pos false q
  | Lt => round_pos true (- q)
  end.

(** Numeric literals and integer constants of the source text. *)
Definition lit (q : Q) : number := round_Q q.
Definition of_Z (z : Z) : number := round_Q (inject_Z z).

(** Unary minus. *)
Definition fopp (x : number) : number :=
  match x with
  | S754_nan => S754_nan
  | S754_infinity s => S754_infinity (negb s)
  | S754_zero s => S754_zero (negb s)
  | S754_finite s m e => S754_finite (negb s) m e
  end.

(** [x * y]. *)
Definition fmul (x y : number) : number :=
  match x, y with
  | S754_nan, _ | _, S754_nan => S754_nan
  | S754_infinity _, S754_zero _ | S754_zero _, S754_infinity _ => S754_nan
  | S754_finite sx mx ex, S754_finite sy my ey =>
      round_pos (xorb sx sy) (Fabs mx ex * Fabs my ey)
  | S754_infinity _, _ | _, S754_infinity _ =>
      S754_infinity (xorb (sign x) (sign y))
  | _, _ => S754_zero (xorb (sign x) (sign y))
  end.

(** [x / y]. *)
Definition fdiv (x y : number) : number :=
  match x, y with
  | S754_nan, _ | _, S754_nan => S754_nan
  | S754_infinity _, S754_infinity _ | S754_zero _, S754_zero _ => S754_nan
  | S754_finite sx mx ex, S754_finite sy my ey =>
      round_pos (xorb sx sy) (Fabs mx ex / Fabs my ey)
  | S754_infinity _, _ | _, S754_zero _ =>
      S754_infinity (xorb (sign x) (sign y))
  | _, _ => S754_zero (xorb (sign x) (sign y))
  end.

(** [x + y]. *)
Definition fadd (x y : number) : number :=
  match x, y with
  | S754_nan, _ | _, S754_nan => S754_nan
  | S754_infinity sx, S754_infinity sy =>
      if Bool.eqb sx sy then x else S754_nan
  | S754_infinity _, _ => x
  | _, S754_infinity _ => y
  | S754_zero sx, S754_zero sy =>
      if Bool.eqb sx sy then x else S754_zero false
  | S754_zero _, _ => y
  | _, S754_zero _ => x
  | S754_finite _ _ _, S754_finite _ _ _ => round_Q (F2Q x + F2Q y)
  end.

(** [x - y]. *)
Definition fsub (x y : number) : number := fadd x (fopp y).

(** [Math.sqrt x].  For a finite [x > 0] the root lies in the cell
    [[s, s+1) * 2^-1200] with [s = floor (sqrt (x * 2^2400))].  Every
    binary64 value and every midpoint between two neighbours near a root is
    a multiple of [2^-590], hence of [2^-1200], so no rounding boundary lies
    strictly inside a cell: rounding the middle of the cell (or its left end
    when the root is exactly [s * 2^-1200]) rounds the root itself. *)
Definition sqrt_proxy (q : Q) : Q :=
  let n := Qfloor (q * pow2 2400) in
  let s := Z.sqrt n in
  if Qeq_bool (inject_Z (s * s)) (q * pow2 2400)
  then (inject_Z s * pow2 (-1200))%Q
  else (inject_Z (2 * s + 1) * pow2 (-1201))%Q.

Definition Math_sqrt (x : number) : number :=
  match x with
  | S754_nan | S754_infinity true | S754_finite true _ _ => S754_nan
  | S754_infinity false | S754_zero _ => x
  | S754_finite false m e => round_pos false (sqrt_proxy (Fabs m e))
  end.

(** [Math.round x]: the integer nearest to [x], the larger one on a tie;
    [-0] for [-0.5 <= x < 0]. *)
Definition Math_round (x : number) : number :=
  match x with
  | S754_finite s _ _ =>
      let n := Qfloor (F2Q x + (1 # 2)) in
      if n =? 0 then S754_zero s else of_Z n
  | _ => x
  end.

(** [Math.ceil x]; [-0] for [-1 < x < 0]. *)
Definition Math_ceil (x : number) : number :=
  match x with
  | S754_finite s _ _ =>
      let n := Qceiling (F2Q x) in
      if n =? 0 then S754_zero s else of_Z n
  | _ => x
  end.

(** Relational operators: every comparison with NaN is false, the two
    zeros are equal. *)
Definition fcompare (x y : number) : option comparison :=
  match x, y with
  | S754_nan, _ | _, S754_nan => None
  | S754_infinity sx, S754_infinity sy =>
      Some (if sx then if sy then Eq else Lt else if sy then Gt else Eq)
  | S754_infinity sx, _ => Some (if sx then Lt else Gt)
  | _, S754_infinity sy => Some (if sy then Gt else Lt)
  | _, _ => Some (F2Q x ?= F2Q y)%Q
  end.

Definition flt (x y : number) : bool :=
  match fcompare x y with Some Lt => true | _ => false end.
Definition fgt (x y : number) : bool :=
  match fcompare x y with Some Gt => true | _ => false end.
Definition fle (x y : number) : bool :=
  match fcompare x y with Some Lt | Some Eq => true | _ => false end.
Definition fge (x y : number) : bool :=
  match fcompare x y with Some Gt | Some Eq => true | _ => false end.
Definition feq (x y : number) : bool :=
  match fcompare x y with Some Eq => true | _ => false end.

(** ToBoolean of a Number: false for NaN and the zeros. *)
Definition truthy (x : number) : bool :=
  match x with
  | S754_nan | S754_zero _ => false
  | _ => true
  end.

(** [x || d] on Numbers. *)
Definition or_else (x d : number) : number := if truthy x then x else d.

Definition is_nan (x : number) : bool :=
  match x with S754_nan => true | _ => false end.
Definition is_infinite (x : number) : bool :=
  match x with S754_infinity _ => true | _ => false end.
Definition is_finite (x : number) : bool :=
  match x with S754_zero _ | S754_finite _ _ _ => true | _ => false end.

(** The binary64 format: a normal significand has 53 bits and an exponent
    from -1074 to 971, a subnormal one has exponent -1074. *)
Definition canonical (m : positive) (e : Z) : bool :=
  ((2 ^ 52 <=? Zpos m) && (Zpos m <? 2 ^ 53) && (-1074 <=? e) && (e <=? 971))
  || ((Zpos m <? 2 ^ 52) && (e =? -1074)).

Definition well_formed (x : number) : bool :=
  match x with
  | S754_finite _ m e => canonical m e
  | _ => true
  end.

(** A finite Number whose value is a whole number that is not negative. *)
Definition is_nonneg_integer (x : number) : bool :=
  is_finite x && Qle_bool 0 (F2Q x)
  && Qeq_bool (F2Q x) (inject_Z (Qfloor (F2Q x))).

(** ** Notions used to state facts about Numbers *)

(** What [round_pos] returns, case by case. *)
Inductive round_pos_result (s : bool) (q : Q) : number -> Prop :=
| rp_zero : (rounded q == 0)%Q -> round_pos_result s q (S754_zero s)
| rp_inf : (pow2 1024 <= rounded q)%Q -> round_pos_result s q (S754_infinity s)
| rp_fin m e :
    (Fabs m e == rounded q)%Q -> (rounded q < pow2 1024)%Q ->
    canonical m e = true -> round_pos_result s q (S754_finite s m e).

(** Position of a Number on the extended line: [-1], [0] or [1] for
    [-Infinity], a finite value and [+Infinity]. *)
Definition cls (x : number) : Z :=
  match x with
  | S754_infinity true => -1
  | S754_infinity false => 1
  | _ => 0
  end.

Definition ext_le (x y : number) : Prop :=
  (cls x < cls y)%Z \/ (cls x = cls y /\ (cls x <> 0%Z \/ (F2Q x <= F2Q y)%Q)).

Definition ext_lt (x y : number) : Prop :=
  (cls x < cls y)%Z \/ (cls x = cls y /\ cls x = 0%Z /\ (F2Q x < F2Q y)%Q).

(** Shapes of the Numbers that are not negative, and of the positive ones. *)
Inductive nonneg : number -> Prop :=
| nonneg_zero s : nonneg (S754_zero s)
| nonneg_fin m e : nonneg (S754_finite false m e)
| nonneg_inf : nonneg (S754_infinity false).

Inductive positive_num : number -> Prop :=
| positive_fin m e : positive_num (S754_finite false m e)
| positive_inf : positive_num (S754_infinity false).

Definition zero : number := S754_zero false.

(** [c <= x <= x'] with [c] positive: a positive lower bound carried along
    a monotonicity argument. *)
Definition between (c x x' : number) : Prop :=
  positive_num c /\ fle c x = true /\ fle x x' = true.

(** A rounded amount: not negative, of the format, and monotone. *)
Definition amount_le (a a' : number) : Prop :=
  nonneg a /\ well_formed a = true /\ well_formed a' = true /\ fle a a' = true.

(** [2^53], from which on not every whole number is a Number. *)
Definition two53 : number := Eval vm_compute in of_Z (2 ^ 53).

(** A rounded amount that is finite is a whole number. *)
Definition rounded_amount (a : number) : Prop :=
  nonneg a /\ well_formed a = true
  /\ (is_finite a = true -> is_nonneg_integer a = true).

(** A result that is no finite Number: NaN or an infinity. *)
Definition is_degenerate (x : number) : bool := is_nan x || is_infinite x.

(** A finite Number whose value is the integer [z]. *)
Definition int_value (x : number) (z : Z) : Prop :=
  is_finite x = true /\ (F2Q x == inject_Z z)%Q.

(** A Number below zero. *)
Definition negative_num (x : number) : Prop := positive_num (fopp x).

End JSNumber.

Declare Scope num_scope.
Delimit Scope num_scope with num.
Infix "*" := JSNumber.fmul : num_scope.
Infix "/" := JSNumber.fdiv : num_scope.
Infix "+" := JSNumber.fadd : num_scope.
Infix "-" := JSNumber.fsub : num_scope.
Notation "- x" := (JSNumber.fopp x) : num_scope.
Infix "<?" := JSNumber.flt : num_scope.
Infix ">?" := JSNumber.fgt : num_scope.

(* ================================================================== *)
(** * ECMAScript string helpers                                         *)
(* ================================================================== *)

(** A text is given by its UTF-8 encoding, which is how Rocq writes a string
    literal: a character of ASCII is one byte, and a character outside
    ASCII is two bytes or more, none of which is an ASCII byte.  A string
    stands for an input when it is the encoding of a text.
    [toLowerCase] lower-cases the letters [A-Z] and the two characters
    outside ASCII whose lower case has an ASCII letter.  Every other
    character outside ASCII is left as it is: its lower case has no ASCII
    letter either, so the result has the ASCII characters of the lower-cased
    text, each at its place, and that is all a search for an ASCII name
    reads.  [includes] is substring search, and [parseInt] follows ECMA-262
    19.2.5 for an absent radix: leading white space, an optional sign, an
    optional [0x]/[0X] prefix, then the longest run of digits of the radix;
    no digit at all gives NaN. *)

Module JSString.
Import JSNumber.

Definition lower_char (c : ascii) : ascii :=
  let n := nat_of_ascii c in
  if ((65 <=? n) && (n <=? 90))%nat then ascii_of_nat (n + 32) else c.

(** The two characters outside ASCII whose lower case has an ASCII letter:
    the Kelvin sign U+212A, which becomes [k], and the capital I with dot
    above U+0130, which becomes [i] followed by the combining dot above
    U+0307. *)
Definition kelvin_sign : string :=
  String "226" (String "132" (String "170" EmptyString)).
Definition capital_I_with_dot : string := String "196" (String "176" EmptyString).
Definition combining_dot_above : string := String "204" (String "135" EmptyString).

Definition is_kelvin_sign (c1 c2 c3 : ascii) : bool :=
  (c1 =? "226")%char && (c2 =? "132")%char && (c3 =? "170")%char.
Definition is_capital_I_with_dot (c1 c2 : ascii) : bool :=
  (c1 =? "196")%char && (c2 =? "176")%char.

Fixpoint toLowerCase (s : string) : string :=
  match s with
  | EmptyString => EmptyString
  | String c1 s1 =>
      match s1 with
      | String c2 s2 =>
          if is_capital_I_with_dot c1 c2
          then String "i" (combining_dot_above ++ toLowerCase s2)
          else
            match s2 with
            | String c3 s3 =>
                if is_kelvin_sign c1 c2 c3 then String "k" (toLowerCase s3)
                else String (lower_char c1) (toLowerCase s1)
            | EmptyString => String (lower_char c1) (toLowerCase s1)
            end
      | EmptyString => String (lower_char c1) EmptyString
      end
  end.

(** [includes s sub]: [sub] occurs in [s] at some position. *)
Fixpoint includes (s sub : string) : bool :=
  String.prefix sub s
  || match s with
     | EmptyString => false
     | String _ s' => includes s' sub
     end.

(** White space and line terminators (ECMA-262 12.2 and 12.3): TAB, LF, VT,
    FF, CR, SP, then U+00A0, U+1680, U+2000 to U+200A, U+2028, U+2029,
    U+202F, U+205F, U+3000 and U+FEFF. *)
Definition is_white_space1 (c : ascii) : bool :=
  let n := nat_of_ascii c in
  ((n =? 9) || (n =? 10) || (n =? 11) || (n =? 12) || (n =? 13) || (n =? 32))%nat.

Definition is_white_space2 (c1 c2 : ascii) : bool :=
  (c1 =? "194")%char && (c2 =? "160")%char.

Definition is_white_space3 (c1 c2 c3 : ascii) : bool :=
  let n := nat_of_ascii c3 in
  ((c1 =? "225")%char && (c2 =? "154")%char && (c3 =? "128")%char)
  || ((c1 =? "226")%char && (c2 =? "128")%char
      && (((128 <=? n) && (n <=? 138)) || (n =? 168) || (n =? 169) || (n =? 175))%nat)
  || ((c1 =? "226")%char && (c2 =? "129")%char && (c3 =? "159")%char)
  || ((c1 =? "227")%char && (c2 =? "128")%char && (c3 =? "128")%char)
  || ((c1 =? "239")%char && (c2 =? "187")%char && (c3 =? "191")%char).

Fixpoint trimStart (s : string) : string :=
  match s with
  | EmptyString => s
  | String c1 s1 =>
      if is_white_space1 c1 then trimStart s1
      else
        match s1 with
        | EmptyString => s
        | String c2 s2 =>
            if is_white_space2 c1 c2 then trimStart s2
            else
              match s2 with
              | EmptyString => s
              | String c3 s3 =>
                  if is_white_space3 c1 c2 c3 then trimStart s3 else s
              end
        end
  end.

(** The white space characters, each as a text. *)
Definition white_space : list string :=
  map (fun n => String (ascii_of_nat n) EmptyString) [9; 10; 11; 12; 13; 32]%nat
  ++ [String "194" (String "160" EmptyString)]
  ++ map (fun l => string_of_list_ascii (map ascii_of_nat l))
       ([[225; 154; 128]]
        ++ map (fun n => [226; 128; n]) [128; 129; 130; 131; 132; 133; 134; 135;
                                          136; 137; 138; 168; 169; 175]
        ++ [[226; 129; 159]; [227; 128; 128]; [239; 187; 191]])%nat.

(** The case of ASCII letters taken away, every other byte as it is. *)
Fixpoint fold_ascii_case (s : string) : string :=
  match s with
  | EmptyString => EmptyString
  | String c s' => String (lower_char c) (fold_ascii_case s')
  end.

Definition is_ascii (c : ascii) : bool := (nat_of_ascii c <? 128)%nat.
Definition ascii_text (s : string) : bool :=
  forallb is_ascii (list_ascii_of_string s).

(** A text that starts with one of the two characters. *)
Definition special_start (s : string) : bool :=
  match s with
  | String c1 (String c2 s2) =>
      is_capital_I_with_dot c1 c2
      || match s2 with
         | String c3 _ => is_kelvin_sign c1 c2 c3
         | EmptyString => false
         end
  | _ => false
  end.

(** Value of a character as a digit: [0-9], then [a-z] or [A-Z] for 10-35. *)
Definition digit_value (c : ascii) : option Z :=
  let n := Z.of_nat (nat_of_ascii c) in
  if (48 <=? n) && (n <=? 57) then Some (n - 48)
  else if (97 <=? n) && (n <=? 122) then Some (n - 87)
  else if (65 <=? n) && (n <=? 90) then Some (n - 55)
  else None.

(** The longest prefix of radix-[r] digits, as an integer; [acc] is [None]
    until the first digit is read. *)
Fixpoint parse_digits (r : Z) (s : string) (acc : option Z) : option Z :=
  match s with
  | EmptyString => acc
  | String c s' =>
      match digit_value c with
      | Some d =>
          if d <? r
          then parse_digits r s'
                 (Some (match acc with Some a => a | None => 0 end * r + d))
          else acc
      | None => acc
      end
  end.

Definition parseInt (input : string) : number :=
  let s := trimStart input in
  let '(neg, s) :=
    match s with
    | String "-" rest => (true, rest)
    | String "+" rest => (false, rest)
    | _ => (false, s)
    end in
  let '(radix, s) :=
    match s with
    | String "0" (String "x" rest) | String "0" (String "X" rest) => (16, rest)
    | _ => (10, s)
    end in
  match parse_digits radix s None with
  | None => S754_nan
  | Some 0 => S754_zero neg
  | Some n => of_Z (if neg then - n else n)
  end.

(** A decimal digit. *)
Definition is_decimal_digit (c : ascii) : bool :=
  match digit_value c with
  | Some d => (d <? 10)%Z
  | None => false
  end.

(** A text that is empty or starts with a character that is no decimal
    digit. *)
Definition starts_without_digit (s : string) : bool :=
  match s with
  | EmptyString => true
  | String c _ => negb (is_decimal_digit c)
  end.

End JSString.

(* ================================================================== *)
(** * Itinerary data (interface [ItineraryItem], TravelBudgetAnalyst.tsx) *)
(* ================================================================== *)

Module Itinerary.
Import JSNumber.

Inductive ActivityCategory :=
  sightseeing | food | activity | transport | shopping.

Definition category_eqb (a b : ActivityCategory) : bool :=
  match a, b with
  | sightseeing, sightseeing | food, food | activity, activity
  | transport, transport | shopping, shopping => true
  | _, _ => false
  end.

(** The text fields ([time], [title], [description], [location], names,
    [theme], [date]) are never read by the estimators and are left out. *)
Record Activity := { estimatedCost : number; category : ActivityCategory }.
Record Meal := { cost : number }.
Record Accommodation := { pricePerNight : number }.
Record ItineraryItem := {
  day : number;
  activities : list Activity;
  accommodation : option Accommodation;
  meals : list Meal
}.

End Itinerary.

(* ================================================================== *)
(** * src/components/BudgetAnalystAgent.tsx                             *)
(* ================================================================== *)

Module BudgetAnalystAgent.
Import JSNumber JSString.
Local Open Scope string_scope.
Local Open Scope list_scope.

Record TripData := {
  source : string;
  destination : string;
  startDate : string;
  endDate : string;
  budget : string;
  travellers : string;
  interests : list string
}.

(** The itinerary handed to the component.  It types [days] as [any[]];
    the shape used here is [ItineraryItem], the one the sibling estimator
    reads. *)
Record ItineraryPlan := {
  plan_id : string;
  plan_totalDays : number;
  plan_totalCost : number;
  days : list Itinerary.ItineraryItem
}.

(** A category of the breakdown.  The [calculation] and [details] fields
    are display text built with template literals; they carry no number
    that is read again and are left out. *)
Record Category := { amount : number }.

Record BudgetBreakdown := {
  flights : Category;
  accommodation : Category;
  food : Category;
  activities : Category;
  transportation : Category;
  miscellaneous : Category
}.

Inductive BudgetStatus := under | over | on_track.
Inductive Impact := low | medium | high.

Record CostSavingTip := {
  category : string;
  tip : string;
  potentialSavings : number
}.

Record RiskFactor := {
  factor : string;
  impact : Impact;
  description : string
}.

Record BudgetAnalysis := {
  totalEstimated : number;
  originalBudget : number;
  budgetStatus : BudgetStatus;
  variance : number;
  variancePercentage : number;
  breakdown : BudgetBreakdown;
  recommendations : list string;
  costSavingTips : list CostSavingTip;
  riskFactors : list RiskFactor
}.

(** [Object.values(breakdown)]: the categories in insertion order. *)
Definition Object_values (b : BudgetBreakdown) : list Category :=
  [flights b; accommodation b; food b; activities b; transportation b;
   miscellaneous b].

Definition lowCost : list string :=
  ["thailand"; "vietnam"; "india"; "nepal"; "cambodia"; "laos"; "guatemala";
   "bolivia"].
Definition mediumCost : list string :=
  ["spain"; "portugal"; "greece"; "czech republic"; "poland"; "hungary";
   "mexico"; "turkey"].
Definition highCost : list string :=
  ["japan"; "switzerland"; "norway"; "denmark"; "singapore"; "australia";
   "new zealand"; "uk"].
Definition veryHighCost : list string :=
  ["monaco"; "luxembourg"; "iceland"; "liechtenstein"].

Definition getDestinationMultiplier (destination : string) : number :=
  let dest := toLowerCase destination in
  if existsb (fun country => includes dest country) veryHighCost then lit 1.5
  else if existsb (fun country => includes dest country) highCost then lit 1.3
  else if existsb (fun country => includes dest country) mediumCost then lit 0.9
  else if existsb (fun country => includes dest country) lowCost then lit 0.6
  else lit 1.0.

Definition generateRecommendations (status : BudgetStatus) (variance : number)
    (data : TripData) : list string :=
  let recommendations := [] in
  let recommendations :=
    match status with
    | over =>
        recommendations ++
        ["Consider booking flights earlier or being flexible with travel dates to reduce costs";
         "Look into alternative accommodation options like hostels or vacation rentals";
         "Plan some free activities like hiking, beaches, or free museum days"]
    | under =>
        recommendations ++
        ["You have room in your budget for some premium experiences or upgrades";
         "Consider extending your trip or adding day trips to nearby destinations";
         "Allocate extra budget for unique local experiences and cultural activities"]
    | on_track =>
        recommendations ++
        ["Your budget looks well-balanced for this itinerary";
         "Keep a small emergency fund for unexpected opportunities"]
    end in
  let recommendations :=
    recommendations ++
    ["Book accommodation and major activities in advance for better rates"] in
  recommendations ++ ["Consider travel insurance to protect your investment"].

Definition generateCostSavingTips (breakdown : BudgetBreakdown) (data : TripData)
    : list CostSavingTip :=
  [ {| category := "Flights";
       tip := "Book 2-3 months in advance and consider nearby airports";
       potentialSavings := Math_round (amount (flights breakdown) * lit 0.15)%num |};
    {| category := "Accommodation";
       tip := "Stay in local guesthouses or use vacation rental platforms";
       potentialSavings := Math_round (amount (accommodation breakdown) * lit 0.25)%num |};
    {| category := "Food";
       tip := "Eat at local markets and cook some meals if possible";
       potentialSavings := Math_round (amount (food breakdown) * lit 0.30)%num |};
    {| category := "Transportation";
       tip := "Use public transport and walk when possible";
       potentialSavings := Math_round (amount (transportation breakdown) * lit 0.20)%num |} ].

Definition highCostRisk : RiskFactor :=
  {| factor := "High-cost destination";
     impact := high;
     description := "Prices may be 20-50% higher than estimated due to expensive local costs" |}.
Definition extendedTripRisk : RiskFactor :=
  {| factor := "Extended trip duration";
     impact := medium;
     description := "Longer trips tend to have higher daily expenses due to fatigue and convenience choices" |}.
Definition currencyRisk : RiskFactor :=
  {| factor := "Currency fluctuation";
     impact := medium;
     description := "Exchange rates may impact your actual spending power" |}.
Definition seasonalRisk : RiskFactor :=
  {| factor := "Seasonal pricing";
     impact := low;
     description := "Peak tourist season may increase accommodation and activity costs" |}.

Definition generateRiskFactors (data : TripData) (days : number)
    (multiplier : number) : list RiskFactor :=
  let factors := [] in
  let factors :=
    if (multiplier >? lit 1.2)%num then factors ++ [highCostRisk] else factors in
  let factors :=
    if (days >? of_Z 14)%num then factors ++ [extendedTripRisk] else factors in
  let factors := factors ++ [currencyRisk] in
  factors ++ [seasonalRisk].

(** The breakdown literal of [generateBudgetAnalysis] (lines 183-244). *)
Definition breakdownOf (totalDays travelers destMultiplier : number)
    : BudgetBreakdown :=
  {| flights :=
       {| amount := Math_round ((of_Z 600 * travelers
                      * (if totalDays >? of_Z 7 then lit 1.2 else lit 1.0))
                      * destMultiplier)%num |};
     accommodation :=
       {| amount := Math_round ((of_Z 85 * totalDays * Math_sqrt travelers)
                      * destMultiplier)%num |};
     food :=
       {| amount := Math_round ((of_Z 45 * totalDays * travelers)
                      * destMultiplier)%num |};
     activities :=
       {| amount := Math_round ((of_Z 35 * totalDays * travelers)
                      * destMultiplier)%num |};
     transportation :=
       {| amount := Math_round ((of_Z 25 * totalDays * Math_sqrt travelers)
                      * destMultiplier)%num |};
     miscellaneous :=
       {| amount := Math_round ((of_Z 20 * totalDays * travelers)
                      * destMultiplier)%num |} |}.

(** The statements of [generateBudgetAnalysis] that follow the breakdown
    literal (lines 246-266): the total, the variance, the status and the
    record that is returned. *)
Definition finishAnalysis (totalDays originalBudget destMultiplier : number)
    (breakdown : BudgetBreakdown) (data : TripData) : BudgetAnalysis :=
  let totalEstimated :=
    fold_left (fun sum category => (sum + amount category)%num)
      (Object_values breakdown) (of_Z 0) in
  let variance := (totalEstimated - originalBudget)%num in
  let variancePercentage := ((variance / originalBudget) * of_Z 100)%num in
  let budgetStatus :=
    if (variance <? - originalBudget * lit 0.05)%num then under
    else if (variance >? originalBudget * lit 0.05)%num then over
    else on_track in
  {| totalEstimated := totalEstimated;
     originalBudget := originalBudget;
     budgetStatus := budgetStatus;
     variance := variance;
     variancePercentage := variancePercentage;
     breakdown := breakdown;
     recommendations := generateRecommendations budgetStatus variance data;
     costSavingTips := generateCostSavingTips breakdown data;
     riskFactors := generateRiskFactors data totalDays destMultiplier |}.

(** The body of [generateBudgetAnalysis] once its three local constants
    [totalDays], [travelers] and [originalBudget] are bound.  The itinerary
    is a parameter of the function and is not read anywhere in its body. *)
Definition analysisOf (totalDays travelers originalBudget : number)
    (data : TripData) (itineraryData : option ItineraryPlan) : BudgetAnalysis :=
  let destMultiplier := getDestinationMultiplier (destination data) in
  let breakdown := breakdownOf totalDays travelers destMultiplier in
  finishAnalysis totalDays originalBudget destMultiplier breakdown data.

(** Notions used to state facts about the estimator: the exact sum of the
    values of a list of categories, and the bounds of the day count (the
    largest distance of two [Date] values) and of the traveller count under
    which every sum below is exact. *)
Definition sum_values (l : list Category) : Q :=
  fold_right (fun c q => (F2Q (amount c) + q)%Q) 0%Q l.

Definition maxDays : number := of_Z 200000000.
Definition maxTravelers : number := of_Z 100000.

(** The tips of [generateRecommendations], by status, and the two that
    close every list. *)
Definition statusTips (status : BudgetStatus) : list string :=
  match status with
  | over =>
      ["Consider booking flights earlier or being flexible with travel dates to reduce costs";
       "Look into alternative accommodation options like hostels or vacation rentals";
       "Plan some free activities like hiking, beaches, or free museum days"]
  | under =>
      ["You have room in your budget for some premium experiences or upgrades";
       "Consider extending your trip or adding day trips to nearby destinations";
       "Allocate extra budget for unique local experiences and cultural activities"]
  | on_track =>
      ["Your budget looks well-balanced for this itinerary";
       "Keep a small emergency fund for unexpected opportunities"]
  end%string.

Definition universalTips : list string :=
  ["Book accommodation and major activities in advance for better rates";
   "Consider travel insurance to protect your investment"]%string.

Section Estimator.

(** [new Date(s).getTime()]: date parsing is left to the host (ECMA-262
    21.4.3.2 fixes only the ISO format), so it is a parameter. *)
Variable Date_getTime : string -> number.

Definition totalDaysOf (data : TripData) : number :=
  Math_ceil ((Date_getTime (endDate data) - Date_getTime (startDate data))
             / (of_Z 1000 * of_Z 60 * of_Z 60 * of_Z 24))%num.

Definition travelersOf (data : TripData) : number :=
  or_else (parseInt (travellers data)) (of_Z 1).

Definition originalBudgetOf (data : TripData) : number :=
  or_else (parseInt (budget data)) (of_Z 2000).

Definition generateBudgetAnalysis (data : TripData)
    (itineraryData : option ItineraryPlan) : BudgetAnalysis :=
  let totalDays := totalDaysOf data in
  let travelers := travelersOf data in
  let originalBudget := originalBudgetOf data in
  analysisOf totalDays travelers originalBudget data itineraryData.

End Estimator.

End BudgetAnalystAgent.

(* ================================================================== *)
(** * src/components/TravelBudgetAnalyst.tsx                            *)
(* ================================================================== *)

Module TravelBudgetAnalyst.
Import JSNumber JSString Itinerary.
Local Open Scope string_scope.
Local Open Scope list_scope.

Record TripDetails := {
  source : string;
  destination : string;
  departureDate : string;
  returnDate : option string;
  travelers : number;
  budget : option number;
  interests : list string
}.

Record FlightSelection := {
  outbound : number;           (* outbound.price.amount *)
  return_ : option number      (* return?.price.amount *)
}.

(** A category of the breakdown; [details] is display text and left out. *)
Record Category := { amount : number; percentage : number }.

Record BudgetBreakdown := {
  flights : Category;
  accommodation : Category;
  food : Category;
  activities : Category;
  transportation : Category;
  miscellaneous : Category
}.

Inductive BudgetStatus := under | over | exact | no_budget.

Inductive CategoryKey :=
  k_flights | k_accommodation | k_food | k_activities | k_transportation
| k_miscellaneous.

Definition category_of (b : BudgetBreakdown) (k : CategoryKey) : Category :=
  match k with
  | k_flights => flights b
  | k_accommodation => accommodation b
  | k_food => food b
  | k_activities => activities b
  | k_transportation => transportation b
  | k_miscellaneous => miscellaneous b
  end.

Record Analysis := {
  highestCategory : CategoryKey;
  lowestCategory : CategoryKey;
  averageDailyCost : number;
  totalDays : number
}.

(** The [recommendations] field is text built from [toLocaleString] and is
    left out. *)
Record BudgetAnalysis := {
  totalEstimatedCost : number;
  userBudget : option number;
  budgetStatus : BudgetStatus;
  budgetDifference : option number;
  breakdown : BudgetBreakdown;
  costPerPerson : number;
  currency : string;
  analysis : Analysis
}.

(** [Math.max(x, y)]. *)
Definition Math_max (x y : number) : number :=
  if is_nan x || is_nan y then S754_nan
  else match fcompare x y with
       | Some Lt => y
       | Some Gt => x
       | _ => if sign x then y else x
       end.

(** [new Date(t).getTime()] for a Number [t] (TimeClip, ECMA-262
    21.4.1.31): NaN outside [+-8.64e15], the integer part otherwise. *)
Definition TimeClip (t : number) : number :=
  match t with
  | S754_finite s _ _ =>
      if Qle_bool (Qabs (F2Q t)) (inject_Z 8640000000000000)
      then of_Z (if s then Qceiling (F2Q t) else Qfloor (F2Q t))
      else S754_nan
  | S754_zero _ => S754_zero false
  | _ => S754_nan
  end.

(** Names every object inherits from [Object.prototype]: looking one up in
    a rate table yields a function or an object, whose numeric value is
    NaN. *)
Definition inherited_names : list string :=
  ["constructor"; "toString"; "toLocaleString"; "valueOf"; "hasOwnProperty";
   "isPrototypeOf"; "propertyIsEnumerable"; "__proto__"; "__defineGetter__";
   "__defineSetter__"; "__lookupGetter__"; "__lookupSetter__"].

Fixpoint assoc (key : string) (table : list (string * Z)) : option Z :=
  match table with
  | [] => None
  | (k, v) :: rest => if String.eqb k key then Some v else assoc key rest
  end.

(** [table[key] || fallback], as a Number. *)
Definition rate_or (table : list (string * Z)) (key : string) (fallback : Z)
    : number :=
  match assoc key table with
  | Some v => or_else (of_Z v) (of_Z fallback)
  | None =>
      if existsb (String.eqb key) inherited_names then S754_nan
      else of_Z fallback
  end.

Definition estimateFlightCost (source destination : string)
    (travelers days : number) : number :=
  let baseRates :=
    [("New York", 400); ("London", 600); ("Paris", 650); ("Tokyo", 800);
     ("Los Angeles", 350); ("Chicago", 300); ("Dubai", 700);
     ("Singapore", 750); ("Frankfurt", 550); ("Amsterdam", 500)] in
  let baseCost := rate_or baseRates destination 500 in
  let multiplier :=
    if (days >? of_Z 7)%num then lit 1.2
    else if (days <? of_Z 3)%num then lit 0.8 else lit 1.0 in
  Math_round (baseCost * multiplier * travelers)%num.

Definition estimateAccommodationCost (destination : string)
    (days travelers : number) : number :=
  let nightlyRates :=
    [("New York", 200); ("London", 150); ("Paris", 180); ("Tokyo", 120);
     ("Los Angeles", 160); ("Chicago", 140); ("Dubai", 250);
     ("Singapore", 130); ("Frankfurt", 110); ("Amsterdam", 120)] in
  let baseRate := rate_or nightlyRates destination 150 in
  let roomsNeeded := Math_ceil (travelers / of_Z 2)%num in
  Math_round (baseRate * days * roomsNeeded)%num.

Definition estimateFoodCost (destination : string) (days travelers : number)
    : number :=
  let dailyFoodRates :=
    [("New York", 80); ("London", 70); ("Paris", 75); ("Tokyo", 60);
     ("Los Angeles", 70); ("Chicago", 60); ("Dubai", 90); ("Singapore", 50);
     ("Frankfurt", 65); ("Amsterdam", 65)] in
  let dailyRate := rate_or dailyFoodRates destination 70 in
  Math_round (dailyRate * days * travelers)%num.

Definition estimateActivityCost (destination : string)
    (interests : list string) (days travelers : number) : number :=
  let baseDailyActivity :=
    [("New York", 60); ("London", 50); ("Paris", 55); ("Tokyo", 45);
     ("Los Angeles", 50); ("Chicago", 40); ("Dubai", 70); ("Singapore", 40);
     ("Frankfurt", 35); ("Amsterdam", 40)] in
  let baseRate := rate_or baseDailyActivity destination 50 in
  let interestMultiplier :=
    if (3 <? Z.of_nat (List.length interests))%Z then lit 1.3
    else if (Z.of_nat (List.length interests) <? 2)%Z then lit 0.7 else lit 1.0 in
  Math_round (baseRate * days * travelers * interestMultiplier)%num.

Definition estimateTransportationCost (destination : string)
    (days travelers : number) : number :=
  let dailyTransportRates :=
    [("New York", 25); ("London", 20); ("Paris", 18); ("Tokyo", 15);
     ("Los Angeles", 30); ("Chicago", 20); ("Dubai", 35); ("Singapore", 12);
     ("Frankfurt", 15); ("Amsterdam", 12)] in
  let dailyRate := rate_or dailyTransportRates destination 20 in
  Math_round (dailyRate * days * travelers)%num.

Definition estimateMiscellaneousCost (destination : string)
    (days travelers : number) : number :=
  let estimated :=
    ((estimateFlightCost "" destination travelers days
      + estimateAccommodationCost destination days travelers
      + estimateFoodCost destination days travelers
      + estimateActivityCost destination [] days travelers
      + estimateTransportationCost destination days travelers)
     * lit 0.15)%num in
  Math_round estimated.

(** [xs.reduce((total, x) => total + f(x), 0)]. *)
Definition sum_by {A : Type} (f : A -> number) (xs : list A) : number :=
  fold_left (fun total x => (total + f x)%num) xs (of_Z 0).

(** Cost of the activities of a day whose category satisfies [keep]. *)
Definition dayCost (keep : ActivityCategory -> bool) (d : ItineraryItem)
    : number :=
  sum_by estimatedCost (filter (fun a => keep (category a)) (Itinerary.activities d)).

(** [xs.reduce(f)] without an initial value, on the six category keys. *)
Definition reduce_keys (f : CategoryKey -> CategoryKey -> CategoryKey)
    : CategoryKey :=
  fold_left f
    [k_accommodation; k_food; k_activities; k_transportation; k_miscellaneous]
    k_flights.

Section Estimator.

(** [new Date(s).getTime()] for a date string: left to the host. *)
Variable Date_getTime : string -> number.

Definition analyzeTripBudget (trip : TripDetails)
    (itinerary : list ItineraryItem) (flights_ : option FlightSelection)
    : BudgetAnalysis :=
  let n := of_Z (Z.of_nat (List.length itinerary)) in
  let startDate := Date_getTime (departureDate trip) in
  let endDate :=
    match returnDate trip with
    | Some (String c r) => Date_getTime (String c r)
    | _ => TimeClip (startDate + (n * of_Z 24 * of_Z 60 * of_Z 60 * of_Z 1000))%num
    end in
  let totalDays :=
    Math_max (of_Z 1)
      (Math_ceil ((endDate - startDate)
                  / (of_Z 1000 * of_Z 60 * of_Z 60 * of_Z 24))%num) in
  (* 1. flights *)
  let flightCost :=
    match flights_ with
    | Some f =>
        let c := outbound f in
        let c := match return_ f with Some r => (c + r)%num | None => c end in
        (c * travelers trip)%num
    | None =>
        estimateFlightCost (source trip) (destination trip) (travelers trip)
          totalDays
    end in
  (* 2. accommodation *)
  let accommodationCost :=
    match itinerary with
    | {| Itinerary.accommodation := Some _ |} :: _ =>
        sum_by (fun d => match Itinerary.accommodation d with
                         | Some a => or_else (pricePerNight a) (of_Z 0)
                         | None => of_Z 0
                         end) itinerary
    | _ => estimateAccommodationCost (destination trip) totalDays (travelers trip)
    end in
  (* 3. food *)
  let foodCost :=
    match itinerary with
    | _ :: _ =>
        (sum_by (fun d => sum_by cost (Itinerary.meals d)) itinerary
         * travelers trip)%num
    | [] => estimateFoodCost (destination trip) totalDays (travelers trip)
    end in
  (* 4. activities *)
  let activityCost :=
    match itinerary with
    | _ :: _ =>
        (sum_by (dayCost (fun c => category_eqb c activity
                                   || category_eqb c sightseeing)) itinerary
         * travelers trip)%num
    | [] => estimateActivityCost (destination trip) (interests trip) totalDays
              (travelers trip)
    end in
  (* 5. transportation *)
  let transportCost :=
    match itinerary with
    | _ :: _ =>
        (sum_by (dayCost (fun c => category_eqb c transport)) itinerary
         * travelers trip)%num
    | [] => estimateTransportationCost (destination trip) totalDays
              (travelers trip)
    end in
  (* 6. miscellaneous *)
  let miscCost :=
    match itinerary with
    | _ :: _ =>
        let miscCost :=
          (sum_by (dayCost (fun c => category_eqb c shopping)) itinerary
           * travelers trip)%num in
        (miscCost
         + (flightCost + accommodationCost + foodCost + activityCost
            + transportCost) * lit 0.1)%num
    | [] => estimateMiscellaneousCost (destination trip) totalDays
              (travelers trip)
    end in
  let totalCost :=
    (flightCost + accommodationCost + foodCost + activityCost + transportCost
     + miscCost)%num in
  let item c := {| amount := c; percentage := ((c / totalCost) * of_Z 100)%num |} in
  let breakdown :=
    {| flights := item flightCost;
       accommodation := item accommodationCost;
       food := item foodCost;
       activities := item activityCost;
       transportation := item transportCost;
       miscellaneous := item miscCost |} in
  (* budget status: both variables are assigned under [if (trip.budget)] *)
  let budgetStatus :=
    match budget trip with
    | Some b =>
        if truthy b then
          if (totalCost <? b * lit 0.95)%num then under
          else if (totalCost >? b * lit 1.05)%num then over
          else exact
        else no_budget
    | None => no_budget
    end in
  let budgetDifference :=
    match budget trip with
    | Some b => if truthy b then Some (totalCost - b)%num else None
    | None => None
    end in
  let highestCategory :=
    reduce_keys (fun prev current =>
      if (amount (category_of breakdown prev)
          >? amount (category_of breakdown current))%num
      then prev else current) in
  let lowestCategory :=
    reduce_keys (fun prev current =>
      if (amount (category_of breakdown prev)
          <? amount (category_of breakdown current))%num
      then prev else current) in
  {| totalEstimatedCost := Math_round totalCost;
     userBudget := budget trip;
     budgetStatus := budgetStatus;
     budgetDifference := budgetDifference;
     breakdown := breakdown;
     costPerPerson := Math_round (totalCost / travelers trip)%num;
     currency := "USD";
     analysis :=
       {| highestCategory := highestCategory;
          lowestCategory := lowestCategory;
          averageDailyCost := Math_round (totalCost / totalDays)%num;
          totalDays := totalDays |} |}.

End Estimator.

(** ** The total and the keys of the rate tables *)

(** The sum the estimator calls [totalCost], from the breakdown. *)
Definition totalCostOf (b : BudgetBreakdown) : number :=
  (amount (flights b) + amount (accommodation b) + amount (food b)
   + amount (activities b) + amount (transportation b)
   + amount (miscellaneous b))%num.

(** The destinations the five rate tables of the [estimate*] functions
    have a rate for. *)
Definition cities : list string :=
  ["New York"; "London"; "Paris"; "Tokyo"; "Los Angeles"; "Chicago"; "Dubai";
   "Singapore"; "Frankfurt"; "Amsterdam"].

(** ** The recommendations *)

(** A recommendation: its text is fixed by the constructor, a number in it
    is formatted by [toLocaleString]. *)
Inductive Recommendation :=
| BudgetExceeded (excess : number)
| CutCost (category : CategoryKey)
| UnderBudget (surplus : number)
| UpgradeAccommodation
| LuxuryDining
| LargestExpense (category : option CategoryKey)
| ExtendedStay
| KeepExtra.

(** [Object.keys(breakdown)] and [Object.entries(breakdown)]. *)
Definition Object_keys : list CategoryKey :=
  [k_flights; k_accommodation; k_food; k_activities; k_transportation;
   k_miscellaneous].

Definition Object_entries (b : BudgetBreakdown) : list (CategoryKey * Category) :=
  map (fun k => (k, category_of b k)) Object_keys.

(** The comparator [([,a], [,b]) => b.amount - a.amount]. *)
Definition compareFn (a b : CategoryKey * Category) : number :=
  (amount (snd b) - amount (snd a))%num.

(** [Array.prototype.sort] (ECMA-262 23.1.3.30) is stable, and its result is
    determined when the comparator is consistent, as this one is when no
    amount is NaN.  [x], which comes before the elements of [sorted] in the
    array, goes after those the comparator puts first. *)
Fixpoint insert_entry (x : CategoryKey * Category)
    (sorted : list (CategoryKey * Category)) : list (CategoryKey * Category) :=
  match sorted with
  | [] => [x]
  | y :: rest =>
      if (compareFn x y >? zero)%num then y :: insert_entry x rest else x :: sorted
  end.

Fixpoint Array_sort (entries : list (CategoryKey * Category))
    : list (CategoryKey * Category) :=
  match entries with
  | [] => []
  | x :: rest => insert_entry x (Array_sort rest)
  end.

(** The order the sort leaves the entries in, and the amounts for which
    the comparator is consistent. *)
Definition costlier (x y : CategoryKey * Category) : Prop :=
  fle (amount (snd y)) (amount (snd x)) = true.

Definition proper (x : CategoryKey * Category) : Prop :=
  is_nan (amount (snd x)) = false /\ well_formed (amount (snd x)) = true.

(** The [switch] on the category: no case for [miscellaneous]. *)
Definition cutCostTip (category : CategoryKey) : list Recommendation :=
  match category with
  | k_miscellaneous => []
  | _ => [CutCost category]
  end.

(** [Math.max(...values)]. *)
Definition Math_max_of (values : list number) : number :=
  fold_left Math_max values (S754_infinity true).

Definition generateBudgetRecommendations (breakdown : BudgetBreakdown)
    (status : BudgetStatus) (destination : string) (days : number)
    (userBudget : option number) : list Recommendation :=
  let total :=
    (amount (flights breakdown) + amount (accommodation breakdown)
     + amount (food breakdown) + amount (activities breakdown)
     + amount (transportation breakdown)
     + amount (miscellaneous breakdown))%num in
  let recommendations := [] in
  let recommendations :=
    match status, userBudget with
    | over, Some b =>
        if truthy b then
          let recommendations :=
            recommendations ++ [BudgetExceeded (Math_round (total - b)%num)] in
          let sortedCategories := firstn 3 (Array_sort (Object_entries breakdown)) in
          recommendations
          ++ flat_map (fun entry => cutCostTip (fst entry)) sortedCategories
        else recommendations
    | _, _ => recommendations
    end in
  let recommendations :=
    match status, userBudget with
    | under, Some b =>
        if truthy b then
          let surplus := (b - total)%num in
          recommendations
          ++ [UnderBudget (Math_round surplus); UpgradeAccommodation; LuxuryDining]
        else recommendations
    | _, _ => recommendations
    end in
  let recommendations :=
    recommendations
    ++ [LargestExpense
          (find (fun k =>
                   feq (amount (category_of breakdown k))
                       (Math_max_of
                          (map (fun v => amount v)
                             (map (category_of breakdown) Object_keys))))
             Object_keys)] in
  let recommendations :=
    if fge days (of_Z 7) then recommendations ++ [ExtendedStay]
    else recommendations in
  recommendations ++ [KeepExtra].

Section Recommendations.
Variable Date_getTime : string -> number.

(** The [recommendations] field of the result of [analyzeTripBudget]. *)
Definition analyzeTripBudget_recommendations (trip : TripDetails)
    (itinerary : list ItineraryItem) (flights_ : option FlightSelection)
    : list Recommendation :=
  let a := analyzeTripBudget Date_getTime trip itinerary flights_ in
  generateBudgetRecommendations (breakdown a) (budgetStatus a) (destination trip)
    (totalDays (analysis a)) (budget trip).

End Recommendations.

End TravelBudgetAnalyst.

(* ================================================================== *)
(** * The formulas as spec.md words them                                *)
(* ================================================================== *)

Module SpecFormulas.
Import JSNumber JSString BudgetAnalystAgent.

(** The table of spec.md, section 4.1, with [D = totalDays],
    [T = travelers] and [M = destinationMultiplier]; [round] is
    [Math.round], [sqrt] is [Math.sqrt], and a product is read from left to
    right. *)
Definition durationFactor (D : number) : number :=
  if (D >? of_Z 7)%num then lit 1.2 else lit 1.0.

Definition flights (D T M : number) : number :=
  Math_round (of_Z 600 * T * durationFactor D * M)%num.
Definition accommodation (D T M : number) : number :=
  Math_round (of_Z 85 * D * Math_sqrt T * M)%num.
Definition food (D T M : number) : number :=
  Math_round (of_Z 45 * D * T * M)%num.
Definition activities (D T M : number) : number :=
  Math_round (of_Z 35 * D * T * M)%num.
Definition transportation (D T M : number) : number :=
  Math_round (of_Z 25 * D * Math_sqrt T * M)%num.
Definition miscellaneous (D T M : number) : number :=
  Math_round (of_Z 20 * D * T * M)%num.

(** A destination matches a tier when its lower-cased text contains one of
    the tier's country names. *)
Definition tier_matches (tier : list string) (destination : string) : Prop :=
  exists country pre post,
    In country tier
    /\ toLowerCase destination = (pre ++ country ++ post)%string.

End SpecFormulas.

(* ================================================================== *)
(** * Concrete inputs                                                   *)
(* ================================================================== *)

Module Examples.
Import JSNumber JSString Itinerary BudgetAnalystAgent.

(** An instance of date parsing: the ISO date-only form [YYYY-MM-DD], read
    as midnight UTC (ECMA-262 21.4.1.32); anything else is NaN. *)
Definition days_from_civil (y m d : Z) : Z :=
  let y := if m <=? 2 then y - 1 else y in
  let era := y / 400 in
  let yoe := y - era * 400 in
  let doy := (153 * (if 2 <? m then m - 3 else m + 9) + 2) / 5 + d - 1 in
  let doe := yoe * 365 + yoe / 4 - yoe / 100 + doy in
  era * 146097 + doe - 719468.

Definition days_in_month (y m : Z) : Z :=
  if m =? 2 then
    (if ((y mod 4 =? 0) && negb (y mod 100 =? 0)) || (y mod 400 =? 0)
     then 29 else 28)
  else if (m =? 4) || (m =? 6) || (m =? 9) || (m =? 11) then 30 else 31.

Definition all_digits (s : string) : option Z :=
  match s with
  | EmptyString => None
  | _ =>
      if forallb (fun c => match digit_value c with
                           | Some d => d <? 10
                           | None => false
                           end) (list_ascii_of_string s)
      then parse_digits 10 s None else None
  end.

Definition isoDate (s : string) : number :=
  if (String.length s =? 10)%nat
     && String.eqb (substring 4 1 s) "-" && String.eqb (substring 7 1 s) "-"
  then
    match all_digits (substring 0 4 s), all_digits (substring 5 2 s),
          all_digits (substring 8 2 s) with
    | Some y, Some m, Some d =>
        if (1 <=? m) && (m <=? 12) && (1 <=? d) && (d <=? days_in_month y m)
        then of_Z (days_from_civil y m d * 86400000)
        else S754_nan
    | _, _, _ => S754_nan
    end
  else S754_nan.

Local Open Scope string_scope.

(** The concrete scenario of spec.md, section 8. *)
Definition scenarioTrip : TripData :=
  {| source := "New York"; destination := "Thailand";
     startDate := "2025-03-15"; endDate := "2025-03-20";
     budget := "1000"; travellers := "2"; interests := [] |}.

(** The trip of BudgetAnalystDemo.tsx. *)
Definition exampleTripData : TripData :=
  {| source := "New York"; destination := "Tokyo, Japan";
     startDate := "2025-03-15"; endDate := "2025-03-25";
     budget := "3500"; travellers := "2";
     interests := ["culture"; "food"; "shopping"; "nature"] |}.

(** A party too large for binary64: a one followed by 306 zeros. *)
Definition crowd : string := "1" ++ string_of_list_ascii (repeat "0"%char 306).

Definition crowdTrip : TripData :=
  {| source := "New York"; destination := "Thailand";
     startDate := "2025-03-15"; endDate := "2025-03-16";
     budget := "1000"; travellers := crowd; interests := [] |}.

(** A party of 21.5 million million. *)
Definition throngTrip : TripData :=
  {| source := "New York"; destination := "Thailand";
     startDate := "2025-03-15"; endDate := "2025-03-16";
     budget := "1000"; travellers := "21500000000000"; interests := [] |}.

(** The scenario with a budget of zero. *)
Definition zeroBudgetTrip : TripData :=
  {| source := "New York"; destination := "Thailand";
     startDate := "2025-03-15"; endDate := "2025-03-20";
     budget := "0"; travellers := "2"; interests := [] |}.

(** One day with a meal, a museum visit, a taxi ride and a souvenir. *)
Definition oneDay : ItineraryItem :=
  {| day := of_Z 1;
     Itinerary.activities :=
       [ {| estimatedCost := of_Z 20; Itinerary.category := sightseeing |};
         {| estimatedCost := of_Z 15; Itinerary.category := transport |};
         {| estimatedCost := of_Z 30; Itinerary.category := shopping |} ];
     Itinerary.accommodation := Some {| pricePerNight := of_Z 100 |};
     meals := [ {| cost := of_Z 25 |} ] |}.

Definition weekendTrip : TravelBudgetAnalyst.TripDetails :=
  {| TravelBudgetAnalyst.source := "New York";
     TravelBudgetAnalyst.destination := "Paris";
     TravelBudgetAnalyst.departureDate := "2025-03-15";
     TravelBudgetAnalyst.returnDate := Some "2025-03-16";
     TravelBudgetAnalyst.travelers := of_Z 2;
     TravelBudgetAnalyst.budget := Some (of_Z 2000);
     TravelBudgetAnalyst.interests := ["culture"] |}.

Definition weekendFlights : TravelBudgetAnalyst.FlightSelection :=
  {| TravelBudgetAnalyst.outbound := of_Z 400;
     TravelBudgetAnalyst.return_ := Some (of_Z 380) |}.

(** Numbers on which the operators are compared with the Standard Library's
    binary64 and with the machine's: constants of the estimators, the zeros,
    the infinities, NaN, a subnormal, the largest finite Number and the
    traveller count of [crowd]. *)
Definition samples : list number :=
  [ S754_zero false; S754_zero true; S754_infinity false; S754_infinity true;
    S754_nan;
    of_Z 600; of_Z 85; of_Z 2000; of_Z (-787);
    lit 1.2; lit 0.9; lit 0.05; lit (1 # 3);
    S754_finite true 3 (-1074); S754_finite false (2 ^ 53 - 1) 971;
    of_Z (10 ^ 306) ].

Definition pairs : list (number * number) := list_prod samples samples.

Definition on_pairs {A : Type} (f : number -> number -> A) : list A :=
  map (fun p => f (fst p) (snd p)) pairs.

(** An operator of the machine, on Numbers. *)
Definition hardware1 (f : float -> float) (x : number) : number :=
  Prim2SF (f (SF2Prim x)).
Definition hardware2 (f : float -> float -> float) (x y : number) : number :=
  Prim2SF (f (SF2Prim x) (SF2Prim y)).

(** Trips the estimator of [BudgetAnalystAgent] does not check: a start date
    in another format, a negative traveller count, a negative budget, and a
    return on the day of departure. *)
Definition slashDateTrip : TripData :=
  {| source := "New York"; destination := "Thailand";
     startDate := "15/03/2025"; endDate := "2025-03-20";
     budget := "1000"; travellers := "2"; interests := [] |}.

Definition minusTwoTrip : TripData :=
  {| source := "New York"; destination := "Thailand";
     startDate := "2025-03-15"; endDate := "2025-03-20";
     budget := "1000"; travellers := "-2"; interests := [] |}.

Definition debtTrip : TripData :=
  {| source := "New York"; destination := "Thailand";
     startDate := "2025-03-15"; endDate := "2025-03-20";
     budget := "-500"; travellers := "2"; interests := [] |}.

Definition dayTrip : TripData :=
  {| source := "New York"; destination := "Thailand";
     startDate := "2025-03-15"; endDate := "2025-03-15";
     budget := "1000"; travellers := "2"; interests := [] |}.

(** The scenario from another city, with an interest. *)
Definition bostonTrip : TripData :=
  {| source := "Boston"; destination := "Thailand";
     startDate := "2025-03-15"; endDate := "2025-03-20";
     budget := "1000"; travellers := "2"; interests := ["food"] |}.

(** The weekend with a larger budget. *)
Definition lavishTrip : TravelBudgetAnalyst.TripDetails :=
  {| TravelBudgetAnalyst.source := "New York";
     TravelBudgetAnalyst.destination := "Paris";
     TravelBudgetAnalyst.departureDate := "2025-03-15";
     TravelBudgetAnalyst.returnDate := Some "2025-03-16";
     TravelBudgetAnalyst.travelers := of_Z 2;
     TravelBudgetAnalyst.budget := Some (of_Z 3000);
     TravelBudgetAnalyst.interests := ["culture"] |}.

(** A trip without a return date, to a destination typed in lower case. *)
Definition openTrip : TravelBudgetAnalyst.TripDetails :=
  {| TravelBudgetAnalyst.source := "New York";
     TravelBudgetAnalyst.destination := "paris";
     TravelBudgetAnalyst.departureDate := "2025-03-15";
     TravelBudgetAnalyst.returnDate := None;
     TravelBudgetAnalyst.travelers := of_Z 2;
     TravelBudgetAnalyst.budget := Some (of_Z 1000);
     TravelBudgetAnalyst.interests := ["culture"] |}.

(** The weekend from another city, with another interest. *)
Definition elsewhereTrip : TravelBudgetAnalyst.TripDetails :=
  {| TravelBudgetAnalyst.source := "Boston";
     TravelBudgetAnalyst.destination := "Paris";
     TravelBudgetAnalyst.departureDate := "2025-03-15";
     TravelBudgetAnalyst.returnDate := Some "2025-03-16";
     TravelBudgetAnalyst.travelers := of_Z 2;
     TravelBudgetAnalyst.budget := Some (of_Z 2000);
     TravelBudgetAnalyst.interests := ["food"] |}.

End Examples.

(* ================================================================== *)
(** * Facts about Numbers                                               *)
(* ================================================================== *)

Module JSNumberFacts.
Import JSNumber.
Local Open Scope Q_scope.

(** ** Powers of two *)

Lemma pow2_pos (e : Z) : 0 < pow2 e.
Proof. unfold pow2. apply Qpower_0_lt. reflexivity. Qed.

Lemma pow2_add (a b : Z) : pow2 (a + b) == pow2 a * pow2 b.
Proof. unfold pow2. apply Qpower_plus. discriminate. Qed.

Lemma pow2_0 : pow2 0 == 1.
Proof. reflexivity. Qed.

Lemma pow2_cancel (a : Z) : pow2 a * pow2 (- a) == 1.
Proof. rewrite <- pow2_add, Z.add_opp_diag_r. reflexivity. Qed.

Lemma pow2_le (a b : Z) : (a <= b)%Z -> pow2 a <= pow2 b.
Proof. intros H. unfold pow2. apply Qpower_le_compat_l; [exact H | discriminate]. Qed.

Lemma pow2_lt (a b : Z) : (a < b)%Z -> pow2 a < pow2 b.
Proof. intros H. unfold pow2. apply Qpower_lt_compat_l; [exact H | reflexivity]. Qed.

Lemma pow2_le_inv (a b : Z) : pow2 a <= pow2 b -> (a <= b)%Z.
Proof. intros H. apply (Qpower_le_compat_l_inv (2 # 1)); [exact H | reflexivity]. Qed.

Lemma pow2_lt_inv (a b : Z) : pow2 a < pow2 b -> (a < b)%Z.
Proof. intros H. apply (Qpower_lt_compat_l_inv (2 # 1)); [exact H | reflexivity]. Qed.

Lemma pow2_Z (n : Z) : (0 <= n)%Z -> pow2 n == inject_Z (2 ^ n).
Proof. intros H. unfold pow2. rewrite (Zpower_Qpower 2 n H). reflexivity. Qed.

Lemma pow2_succ (a : Z) : pow2 (a + 1) == 2 * pow2 a.
Proof. rewrite pow2_add. change (pow2 1) with (2 # 1). ring. Qed.

(** ** [flog2] *)

Lemma Q_as_fraction (q : Q) : q * inject_Z (Zpos (Qden q)) == inject_Z (Qnum q).
Proof.
  destruct q as [a b]. unfold Qeq, Qmult, inject_Z. simpl.
  rewrite Pos.mul_1_r. lia.
Qed.

Lemma flog2_spec (q : Q) :
  0 < q -> pow2 (flog2 q) <= q /\ q < pow2 (flog2 q + 1).
Proof.
  intros Hq.
  assert (Ha : (0 < Qnum q)%Z).
  { destruct q as [a b]. unfold Qlt in Hq. simpl in *. lia. }
  pose proof (Q_as_fraction q) as Hfrac.
  set (a := Qnum q) in *. set (b := Zpos (Qden q)) in *.
  assert (Hb : (0 < b)%Z) by (unfold b; lia).
  destruct (Z.log2_spec a Ha) as [Ha1 Ha2].
  destruct (Z.log2_spec b Hb) as [Hb1 Hb2].
  pose proof (Z.log2_nonneg a) as Hla. pose proof (Z.log2_nonneg b) as Hlb.
  rewrite Zle_Qle in Ha1, Hb1. rewrite Zlt_Qlt in Ha2, Hb2.
  rewrite <- pow2_Z in Ha1, Hb1, Ha2, Hb2 by lia.
  change (Z.succ (Z.log2 a)) with (Z.log2 a + 1)%Z in Ha2.
  change (Z.succ (Z.log2 b)) with (Z.log2 b + 1)%Z in Hb2.
  rewrite pow2_succ in Ha2, Hb2.
  assert (HB : inject_Z 0 < inject_Z b) by (rewrite <- Zlt_Qlt; exact Hb).
  change (inject_Z 0) with 0 in HB.
  set (k := (Z.log2 a - Z.log2 b)%Z).
  assert (Hk : pow2 k * pow2 (Z.log2 b) == pow2 (Z.log2 a)).
  { rewrite <- pow2_add. unfold k. replace (Z.log2 a - Z.log2 b + Z.log2 b)%Z with (Z.log2 a) by ring. reflexivity. }
  pose proof (pow2_pos k) as Pk. pose proof (pow2_pos (Z.log2 b)) as Pb.
  assert (Hlo : pow2 (k - 1) <= q).
  { assert (E : 2 * pow2 (k - 1) == pow2 k).
    { rewrite <- pow2_succ. replace (k - 1 + 1)%Z with k by ring. reflexivity. }
    pose proof (pow2_pos (k - 1)) as Pk1.
    apply Qnot_lt_le. intros Hc.
    assert (q * inject_Z b < pow2 k * pow2 (Z.log2 b)) by nra.
    nra. }
  assert (Hhi : q < pow2 (k + 1)).
  { rewrite pow2_succ. apply Qnot_le_lt. intros Hc.
    assert (2 * pow2 k * pow2 (Z.log2 b) <= q * inject_Z b) by nra.
    nra. }
  unfold flog2. fold a b k.
  destruct (Qle_bool (pow2 k) q) eqn:E.
  - apply Qle_bool_iff in E. split; assumption.
  - split; [exact Hlo|].
    replace (k - 1 + 1)%Z with k by ring.
    apply Qnot_le_lt. intros Hc. apply Qle_bool_iff in Hc. congruence.
Qed.

Lemma flog2_unique (q : Q) (k : Z) :
  pow2 k <= q -> q < pow2 (k + 1) -> flog2 q = k.
Proof.
  intros H1 H2.
  assert (Hq : 0 < q) by (pose proof (pow2_pos k); lra).
  destruct (flog2_spec q Hq) as [H3 H4].
  assert ((flog2 q < k + 1)%Z) by (apply pow2_lt_inv; lra).
  assert ((k < flog2 q + 1)%Z) by (apply pow2_lt_inv; lra).
  lia.
Qed.

Lemma flog2_mono (q q' : Q) : 0 < q -> q <= q' -> (flog2 q <= flog2 q')%Z.
Proof.
  intros Hq Hle.
  destruct (flog2_spec q Hq) as [H1 _].
  destruct (flog2_spec q') as [_ H2]; [lra|].
  assert ((flog2 q < flog2 q' + 1)%Z) by (apply pow2_lt_inv; lra).
  lia.
Qed.

(** ** [rhe]: nearest integer, ties to even *)

Lemma rhe_comp (q q' : Q) : q == q' -> rhe q = rhe q'.
Proof.
  intros E. unfold rhe. rewrite <- (Qfloor_comp _ _ E).
  replace (q' - inject_Z (Qfloor q) ?= 1 # 2)
    with (q - inject_Z (Qfloor q) ?= 1 # 2); [reflexivity|].
  apply Qcompare_comp; [lra | reflexivity].
Qed.

Lemma rhe_bounds (q : Q) : (Qfloor q <= rhe q <= Qfloor q + 1)%Z.
Proof.
  unfold rhe. destruct (q - inject_Z (Qfloor q) ?= 1 # 2); [destruct (Z.even _)| |]; lia.
Qed.

Lemma rhe_Z (q : Q) (z : Z) : q == inject_Z z -> rhe q = z.
Proof.
  intros E. rewrite (rhe_comp _ _ E). unfold rhe. rewrite Qfloor_Z.
  replace (inject_Z z - inject_Z z ?= 1 # 2) with Lt; [reflexivity|].
  symmetry. apply (proj1 (Qlt_alt _ _)). lra.
Qed.

Lemma rhe_mono (q q' : Q) : q <= q' -> (rhe q <= rhe q')%Z.
Proof.
  intros H.
  pose proof (Qfloor_resp_le _ _ H) as Hf.
  destruct (Z.eq_dec (Qfloor q) (Qfloor q')) as [E|NE].
  - unfold rhe. rewrite <- E.
    destruct (Qcompare_spec (q - inject_Z (Qfloor q)) (1 # 2)) as [H1|H1|H1];
    destruct (Qcompare_spec (q' - inject_Z (Qfloor q)) (1 # 2)) as [H2|H2|H2];
    try destruct (Z.even (Qfloor q)); try lia; exfalso; lra.
  - pose proof (rhe_bounds q). pose proof (rhe_bounds q'). lia.
Qed.

Lemma rhe_le_Z (q : Q) (z : Z) : q <= inject_Z z -> (rhe q <= z)%Z.
Proof. intros H. rewrite <- (rhe_Z (inject_Z z) z) by reflexivity. apply rhe_mono, H. Qed.

Lemma rhe_ge_Z (q : Q) (z : Z) : inject_Z z <= q -> (z <= rhe q)%Z.
Proof. intros H. rewrite <- (rhe_Z (inject_Z z) z) by reflexivity. apply rhe_mono, H. Qed.

(** ** The rounded value *)

Lemma scale_lt (x : Q) (a e b : Z) :
  0 <= x -> x < pow2 a -> (e <= b)%Z -> x * pow2 e < pow2 (a + b).
Proof.
  intros H0 H1 H2. rewrite pow2_add.
  pose proof (pow2_le _ _ H2). pose proof (pow2_pos e). pose proof (pow2_pos a).
  nra.
Qed.

Lemma scale_le (x : Q) (a e b : Z) :
  0 <= x -> x <= pow2 a -> (e <= b)%Z -> x * pow2 e <= pow2 (a + b).
Proof.
  intros H0 H1 H2. rewrite pow2_add.
  pose proof (pow2_le _ _ H2). pose proof (pow2_pos e). pose proof (pow2_pos a).
  nra.
Qed.

Lemma scale_ge (x : Q) (a e b : Z) :
  pow2 a <= x -> (b <= e)%Z -> pow2 (a + b) <= x * pow2 e.
Proof.
  intros H1 H2. rewrite pow2_add.
  pose proof (pow2_le _ _ H2). pose proof (pow2_pos b). pose proof (pow2_pos a).
  nra.
Qed.

Lemma inject_Z_pow2_le (z n : Z) : (0 <= n)%Z -> (z <= 2 ^ n)%Z <-> inject_Z z <= pow2 n.
Proof. intros H. rewrite pow2_Z by exact H. rewrite <- Zle_Qle. reflexivity. Qed.

Lemma inject_Z_pow2_lt (z n : Z) : (0 <= n)%Z -> (z < 2 ^ n)%Z <-> inject_Z z < pow2 n.
Proof. intros H. rewrite pow2_Z by exact H. rewrite <- Zlt_Qlt. reflexivity. Qed.

Lemma inject_Z_pow2_ge (z n : Z) : (0 <= n)%Z -> (2 ^ n <= z)%Z <-> pow2 n <= inject_Z z.
Proof. intros H. rewrite pow2_Z by exact H. rewrite <- Zle_Qle. reflexivity. Qed.

(** The scaled argument of [significand] lies in the binade of the format. *)
Lemma scaled_normal (q : Q) :
  0 < q -> (-1074 <= flog2 q - 52)%Z ->
  ulp_exp q = (flog2 q - 52)%Z /\
  pow2 52 <= q * pow2 (- ulp_exp q) /\ q * pow2 (- ulp_exp q) < pow2 53.
Proof.
  intros Hq Hn. destruct (flog2_spec q Hq) as [H1 H2].
  assert (E : ulp_exp q = (flog2 q - 52)%Z) by (unfold ulp_exp; lia).
  rewrite E. split; [reflexivity|]. split.
  - replace 52%Z with (flog2 q + - (flog2 q - 52))%Z at 1 by ring.
    apply scale_ge; [exact H1 | lia].
  - replace 53%Z with (flog2 q + 1 + - (flog2 q - 52))%Z at 1 by ring.
    apply scale_lt; [lra | exact H2 | lia].
Qed.

Lemma scaled_subnormal (q : Q) :
  0 < q -> (flog2 q - 52 < -1074)%Z ->
  ulp_exp q = (-1074)%Z /\
  0 < q * pow2 (- ulp_exp q) /\ q * pow2 (- ulp_exp q) < pow2 52.
Proof.
  intros Hq Hn. destruct (flog2_spec q Hq) as [H1 H2].
  assert (E : ulp_exp q = (-1074)%Z) by (unfold ulp_exp; lia).
  rewrite E. split; [reflexivity|]. split.
  - pose proof (pow2_pos (- -1074)). nra.
  - assert (q * pow2 (- -1074) < pow2 (flog2 q + 1 + 1074)).
    { apply scale_lt; [lra | exact H2 | lia]. }
    assert (pow2 (flog2 q + 1 + 1074) <= pow2 52) by (apply pow2_le; lia).
    lra.
Qed.

Lemma significand_normal (q : Q) :
  0 < q -> (-1074 <= flog2 q - 52)%Z ->
  (2 ^ 52 <= significand q <= 2 ^ 53)%Z.
Proof.
  intros Hq Hn. destruct (scaled_normal q Hq Hn) as (_ & H1 & H2).
  unfold significand. split.
  - apply rhe_ge_Z. rewrite <- pow2_Z by lia. exact H1.
  - apply rhe_le_Z. rewrite <- pow2_Z by lia. lra.
Qed.

Lemma significand_subnormal (q : Q) :
  0 < q -> (flog2 q - 52 < -1074)%Z ->
  (0 <= significand q <= 2 ^ 52)%Z.
Proof.
  intros Hq Hn. destruct (scaled_subnormal q Hq Hn) as (_ & H1 & H2).
  unfold significand. split.
  - apply rhe_ge_Z. change (inject_Z 0) with 0. lra.
  - apply rhe_le_Z. rewrite <- pow2_Z by lia. lra.
Qed.

Lemma rounded_nonneg (q : Q) : 0 < q -> 0 <= rounded q.
Proof.
  intros Hq. unfold rounded.
  assert (0 <= significand q)%Z.
  { destruct (Z_le_gt_dec (-1074) (flog2 q - 52)).
    - pose proof (significand_normal q Hq); lia.
    - pose proof (significand_subnormal q Hq); lia. }
  apply Qmult_le_0_compat.
  - change 0 with (inject_Z 0). rewrite <- Zle_Qle. exact H.
  - apply Qlt_le_weak, pow2_pos.
Qed.

(** Upper and lower bounds of the rounded value by powers of two. *)
Lemma rounded_upper (q : Q) :
  0 < q -> rounded q <= pow2 (Z.max (flog2 q + 1) (-1074)).
Proof.
  intros Hq. unfold rounded.
  destruct (Z_le_gt_dec (-1074) (flog2 q - 52)) as [Hn|Hn].
  - destruct (scaled_normal q Hq Hn) as (E & _ & _).
    pose proof (significand_normal q Hq Hn) as [Hs1 Hs2].
    rewrite E. replace (Z.max (flog2 q + 1) (-1074)) with (53 + (flog2 q - 52))%Z by lia.
    apply scale_le; [|apply inject_Z_pow2_le; lia|lia].
    change 0 with (inject_Z 0). rewrite <- Zle_Qle. lia.
  - assert (Hn' : (flog2 q - 52 < -1074)%Z) by lia.
    destruct (scaled_subnormal q Hq Hn') as (E & H1 & H2).
    pose proof (significand_subnormal q Hq Hn') as [Hs1 Hs2].
    rewrite E.
    destruct (Z_le_gt_dec (-1074) (flog2 q + 1)) as [Hk|Hk].
    + (* the scaled value is below the integer 2^(k+1+1074) *)
      assert (Hx : q * pow2 (- ulp_exp q) < pow2 (flog2 q + 1 + 1074)).
      { destruct (flog2_spec q Hq) as [_ Hq2]. rewrite E.
        apply scale_lt; [lra | exact Hq2 | lia]. }
      assert (Hs : (significand q <= 2 ^ (flog2 q + 1 + 1074))%Z).
      { unfold significand. apply rhe_le_Z. rewrite <- pow2_Z by lia. lra. }
      replace (Z.max (flog2 q + 1) (-1074)) with ((flog2 q + 1 + 1074) + -1074)%Z by lia.
      apply scale_le; [|apply inject_Z_pow2_le; lia|lia].
      change 0 with (inject_Z 0). rewrite <- Zle_Qle. lia.
    + assert (Hx : q * pow2 (- ulp_exp q) < 1).
      { destruct (flog2_spec q Hq) as [_ Hq2]. rewrite E.
        assert (q * pow2 (- -1074) < pow2 (flog2 q + 1 + 1074)) by (apply scale_lt; [lra | exact Hq2 | lia]).
        assert (pow2 (flog2 q + 1 + 1074) <= pow2 0) by (apply pow2_le; lia).
        rewrite pow2_0 in *. lra. }
      assert (Hs : (significand q <= 1)%Z).
      { unfold significand. apply rhe_le_Z. change (inject_Z 1) with 1. lra. }
      replace (Z.max (flog2 q + 1) (-1074)) with (0 + -1074)%Z by lia.
      apply scale_le; [| rewrite pow2_0; change 1 with (inject_Z 1); rewrite <- Zle_Qle; lia | lia].
      change 0 with (inject_Z 0). rewrite <- Zle_Qle. lia.
Qed.

Lemma rounded_lower (q : Q) :
  0 < q -> (-1074 <= flog2 q - 52)%Z -> pow2 (flog2 q) <= rounded q.
Proof.
  intros Hq Hn. unfold rounded.
  destruct (scaled_normal q Hq Hn) as (E & _ & _).
  pose proof (significand_normal q Hq Hn) as [Hs1 Hs2].
  rewrite E. replace (flog2 q) with (52 + (flog2 q - 52))%Z at 1 by ring.
  apply scale_ge; [apply inject_Z_pow2_ge; lia | lia].
Qed.

Lemma rounded_mono (q q' : Q) : 0 < q -> q <= q' -> rounded q <= rounded q'.
Proof.
  intros Hq Hle.
  assert (Hq' : 0 < q') by lra.
  pose proof (flog2_mono q q' Hq Hle) as Hk.
  destruct (Z.eq_dec (ulp_exp q) (ulp_exp q')) as [E|NE].
  - unfold rounded, significand. rewrite <- E.
    pose proof (pow2_pos (ulp_exp q)). pose proof (pow2_pos (- ulp_exp q)).
    assert (H1 : (rhe (q * pow2 (- ulp_exp q)) <= rhe (q' * pow2 (- ulp_exp q)))%Z).
    { apply rhe_mono. nra. }
    rewrite Zle_Qle in H1. nra.
  - assert (Hlt : (ulp_exp q < ulp_exp q')%Z) by (unfold ulp_exp in *; lia).
    assert (Hn' : (-1074 <= flog2 q' - 52)%Z) by (unfold ulp_exp in *; lia).
    pose proof (rounded_upper q Hq). pose proof (rounded_lower q' Hq' Hn').
    assert (pow2 (Z.max (flog2 q + 1) (-1074)) <= pow2 (flog2 q')).
    { apply pow2_le. unfold ulp_exp in *. lia. }
    lra.
Qed.

Lemma flog2_comp (q q' : Q) : 0 < q -> q == q' -> flog2 q = flog2 q'.
Proof.
  intros Hq E. symmetry. destruct (flog2_spec q Hq) as [H1 H2].
  apply flog2_unique; rewrite <- E; assumption.
Qed.

Lemma round_pos_comp (s : bool) (q q' : Q) :
  0 < q -> q == q' -> round_pos s q = round_pos s q'.
Proof.
  intros Hq E. unfold round_pos, significand, ulp_exp.
  rewrite <- (flog2_comp q q' Hq E).
  rewrite (rhe_comp (q' * _) (q * pow2 (- Z.max (flog2 q - 52) (-1074)))); [reflexivity|].
  apply Qmult_comp; [symmetry; exact E | reflexivity].
Qed.

Lemma rounded_comp (q q' : Q) : 0 < q -> q == q' -> rounded q == rounded q'.
Proof.
  intros Hq E. unfold rounded, significand, ulp_exp.
  rewrite <- (flog2_comp q q' Hq E).
  rewrite (rhe_comp (q' * _) (q * pow2 (- Z.max (flog2 q - 52) (-1074)))); [reflexivity|].
  apply Qmult_comp; [symmetry; exact E | reflexivity].
Qed.

Lemma canonical_normal (m : positive) (e : Z) :
  (2 ^ 52 <= Zpos m < 2 ^ 53)%Z -> (-1074 <= e <= 971)%Z -> canonical m e = true.
Proof.
  intros [H1 H2] [H3 H4]. unfold canonical.
  apply orb_true_iff. left. rewrite !andb_true_iff. repeat split.
  - apply Z.leb_le. exact H1.
  - apply Z.ltb_lt. exact H2.
  - apply Z.leb_le. exact H3.
  - apply Z.leb_le. exact H4.
Qed.

Lemma canonical_subnormal (m : positive) :
  (Zpos m < 2 ^ 52)%Z -> canonical m (-1074) = true.
Proof.
  intros H. unfold canonical.
  apply orb_true_iff. right. rewrite andb_true_iff. split.
  - apply Z.ltb_lt. exact H.
  - reflexivity.
Qed.

Lemma canonical_inv (m : positive) (e : Z) :
  canonical m e = true ->
  ((2 ^ 52 <= Zpos m < 2 ^ 53)%Z /\ (-1074 <= e <= 971)%Z)
  \/ ((Zpos m < 2 ^ 52)%Z /\ e = (-1074)%Z).
Proof.
  unfold canonical. rewrite orb_true_iff, !andb_true_iff.
  rewrite !Z.leb_le, !Z.ltb_lt, Z.eqb_eq. tauto.
Qed.

Lemma round_pos_spec (s : bool) (q : Q) :
  0 < q -> round_pos_result s q (round_pos s q).
Proof.
  intros Hq. unfold round_pos.
  pose proof (eq_refl (rounded q)) as Hr. unfold rounded at 2 in Hr.
  set (e := ulp_exp q) in *. set (m := significand q) in *.
  assert (He : (-1074 <= e)%Z) by (unfold e, ulp_exp; lia).
  assert (Hm : ((-1074 < e)%Z -> (2 ^ 52 <= m <= 2 ^ 53)%Z) /\ (0 <= m <= 2 ^ 53)%Z
               /\ (e = (-1074)%Z -> (2 ^ 52 < m)%Z -> (-1074 <= flog2 q - 52)%Z)).
  { destruct (Z_le_gt_dec (-1074) (flog2 q - 52)) as [Hn|Hn].
    - pose proof (significand_normal q Hq Hn). fold m in H. lia.
    - assert (Hn' : (flog2 q - 52 < -1074)%Z) by lia.
      pose proof (significand_subnormal q Hq Hn'). fold m in H.
      assert (e = (-1074)%Z) by (unfold e, ulp_exp; lia). lia. }
  destruct Hm as (Hm1 & Hm2 & _).
  destruct (Z.eqb_spec m 0) as [E0|N0].
  { apply rp_zero. rewrite Hr, E0. change (inject_Z 0) with 0. ring. }
  destruct (Z.eqb_spec m (2 ^ 53)) as [E53|N53].
  - destruct (Z.ltb_spec 971 (e + 1)) as [Ho|Ho].
    + apply rp_inf. rewrite Hr, E53.
      replace 1024%Z with (53 + 971)%Z by reflexivity.
      apply scale_ge; [rewrite pow2_Z by lia; apply Qle_refl | lia].
    + apply rp_fin.
      * rewrite Hr, E53. unfold Fabs.
        rewrite pow2_succ. rewrite Z2Pos.id by lia.
        rewrite <- !pow2_Z by lia.
        replace 53%Z with (52 + 1)%Z by reflexivity. rewrite pow2_succ. ring.
      * rewrite Hr, E53. rewrite <- pow2_Z by lia. rewrite <- pow2_add.
        apply pow2_lt. lia.
      * apply canonical_normal; rewrite ?Z2Pos.id; lia.
  - destruct (Z.ltb_spec 971 e) as [Ho|Ho].
    + apply rp_inf. rewrite Hr.
      replace 1024%Z with (52 + 972)%Z by reflexivity.
      apply scale_ge; [apply inject_Z_pow2_ge; lia | lia].
    + apply rp_fin.
      * rewrite Hr. unfold Fabs. rewrite Z2Pos.id by lia. reflexivity.
      * rewrite Hr. replace 1024%Z with (53 + 971)%Z by reflexivity.
        apply scale_lt; [change 0 with (inject_Z 0); rewrite <- Zle_Qle; lia
                        | apply inject_Z_pow2_lt; lia | lia].
      * destruct (Z.eq_dec e (-1074)) as [Es|Ns].
        -- destruct (Z_lt_ge_dec m (2 ^ 52)) as [Hl|Hg].
           ++ rewrite Es. apply canonical_subnormal. rewrite Z2Pos.id; lia.
           ++ apply canonical_normal; rewrite ?Z2Pos.id; lia.
        -- apply canonical_normal; rewrite ?Z2Pos.id; lia.
Qed.

(** ** The order on Numbers *)

Lemma Fabs_pos (m : positive) (e : Z) : 0 < Fabs m e.
Proof.
  unfold Fabs. apply Qmult_lt_0_compat; [|apply pow2_pos].
  change 0 with (inject_Z 0). rewrite <- Zlt_Qlt. lia.
Qed.

Lemma Qcompare_le (a b : Q) :
  match a ?= b with Lt | Eq => true | Gt => false end = true <-> a <= b.
Proof.
  destruct (Qcompare_spec a b); split; intros; try reflexivity; try discriminate; lra.
Qed.

Lemma Qcompare_lt (a b : Q) :
  match a ?= b with Lt => true | _ => false end = true <-> a < b.
Proof.
  destruct (Qcompare_spec a b); split; intros; try reflexivity; try discriminate; lra.
Qed.

Lemma Qcompare_gt (a b : Q) :
  match a ?= b with Gt => true | _ => false end = true <-> b < a.
Proof.
  destruct (Qcompare_spec a b); split; intros; try reflexivity; try discriminate; lra.
Qed.

Lemma Qcompare_eq (a b : Q) :
  match a ?= b with Eq => true | _ => false end = true <-> a == b.
Proof.
  destruct (Qcompare_spec a b); split; intros; try reflexivity; try discriminate; lra.
Qed.

Ltac number_cases x :=
  let s := fresh "s" in let m := fresh "m" in let e := fresh "e" in
  destruct x as [s|[|]| |s m e].

Lemma fle_iff (x y : number) :
  fle x y = true <-> is_nan x = false /\ is_nan y = false /\ ext_le x y.
Proof.
  unfold fle, ext_le.
  number_cases x; number_cases y; cbn [fcompare is_nan cls];
    try rewrite Qcompare_le;
    (split; [intros H; repeat split; try reflexivity; try discriminate; try (right; split; [reflexivity|]; right; exact H); try (left; reflexivity); try (right; split; [reflexivity|left; discriminate])
            | intros (H1 & H2 & H3); try discriminate; try reflexivity;
              destruct H3 as [H3|(H3 & H4)]; try discriminate; try lia;
              destruct H4 as [H4|H4]; try (exfalso; apply H4; reflexivity); try exact H4 ]).
Qed.

Lemma flt_iff (x y : number) :
  flt x y = true <-> is_nan x = false /\ is_nan y = false /\ ext_lt x y.
Proof.
  unfold flt, ext_lt.
  number_cases x; number_cases y; cbn [fcompare is_nan cls];
    try rewrite Qcompare_lt;
    (split; [intros H; repeat split; try reflexivity; try discriminate; try (right; repeat split; exact H); try (left; reflexivity)
            | intros (H1 & H2 & H3); try discriminate; try reflexivity;
              destruct H3 as [H3|(H3 & H4 & H5)]; try discriminate; try lia; try exact H5 ]).
Qed.

Lemma fgt_flt (x y : number) : fgt x y = flt y x.
Proof.
  unfold fgt, flt.
  number_cases x; number_cases y; cbn [fcompare]; try reflexivity.
  all: rewrite <- Qcompare_antisym; destruct (_ ?= _); reflexivity.
Qed.

Lemma fle_trans (x y z : number) :
  fle x y = true -> fle y z = true -> fle x z = true.
Proof.
  rewrite !fle_iff. unfold ext_le.
  intros (H1 & H2 & H3) (_ & H5 & H6). repeat split; try assumption.
  destruct H3 as [H3|(H3 & H3')], H6 as [H6|(H6 & H6')]; try (left; lia).
  right. split; [lia|]. destruct H3' as [H3'|H3'], H6' as [H6'|H6']; try (left; lia).
  right. lra.
Qed.

Lemma flt_fle_trans (x y z : number) :
  flt x y = true -> fle y z = true -> flt x z = true.
Proof.
  rewrite !flt_iff, fle_iff. unfold ext_le, ext_lt.
  intros (H1 & H2 & H3) (_ & H5 & H6). repeat split; try assumption.
  destruct H3 as [H3|(H3 & H3' & H3'')], H6 as [H6|(H6 & H6')]; try (left; lia).
  right. split; [lia|]. split; [lia|]. destruct H6' as [H6'|H6']; [lia | lra].
Qed.

Lemma fle_flt_trans (x y z : number) :
  fle x y = true -> flt y z = true -> flt x z = true.
Proof.
  rewrite !flt_iff, fle_iff. unfold ext_le, ext_lt.
  intros (H1 & H2 & H3) (_ & H5 & H6). repeat split; try assumption.
  destruct H3 as [H3|(H3 & H3')], H6 as [H6|(H6 & H6' & H6'')]; try (left; lia).
  right. split; [lia|]. split; [lia|]. destruct H3' as [H3'|H3']; [lia | lra].
Qed.

Lemma flt_fle (x y : number) : flt x y = true -> fle x y = true.
Proof.
  rewrite flt_iff, fle_iff. unfold ext_le, ext_lt.
  intros (H1 & H2 & H3). repeat split; try assumption.
  destruct H3 as [H3|(H3 & H3' & H3'')]; [left; lia | right; split; [lia | right; lra]].
Qed.

Lemma fle_refl (x : number) : is_nan x = false -> fle x x = true.
Proof.
  intros H. rewrite fle_iff. repeat split; try assumption.
  right. split; [reflexivity|]. destruct (Z.eq_dec (cls x) 0); [right; lra | left; assumption].
Qed.

Lemma flt_not_fle (x y : number) : flt x y = true -> fle y x = false.
Proof.
  intros H. destruct (fle y x) eqn:E; [|reflexivity]. exfalso.
  pose proof (flt_fle_trans _ _ _ H E) as C.
  rewrite flt_iff in C. destruct C as (_ & _ & [C|(_ & _ & C)]); [lia | lra].
Qed.

Lemma fle_zero_nonneg (x : number) : fle zero x = true -> nonneg x.
Proof.
  unfold fle, zero. number_cases x; cbn [fcompare F2Q]; try discriminate;
    try constructor.
  destruct s; [|constructor].
  rewrite Qcompare_le. pose proof (Fabs_pos m e). intros. lra.
Qed.

Lemma nonneg_fle_zero (x : number) : nonneg x -> fle zero x = true.
Proof.
  intros [s|m e|]; unfold fle, zero; cbn [fcompare F2Q]; try reflexivity.
  rewrite Qcompare_le. pose proof (Fabs_pos m e). lra.
Qed.

Lemma flt_zero_positive (x : number) : flt zero x = true <-> positive_num x.
Proof.
  split.
  - unfold flt, zero. number_cases x; cbn [fcompare F2Q]; try discriminate;
      try constructor.
    destruct s; [|constructor].
    rewrite Qcompare_lt. pose proof (Fabs_pos m e). intros. lra.
  - intros [m e|]; unfold flt, zero; cbn [fcompare F2Q]; try reflexivity.
    rewrite Qcompare_lt. apply Fabs_pos.
Qed.

Lemma positive_nonneg (x : number) : positive_num x -> nonneg x.
Proof. intros [m e|]; constructor. Qed.

Lemma positive_fle (c x : number) :
  positive_num c -> fle c x = true -> positive_num x.
Proof.
  intros Hc H. apply flt_zero_positive. apply flt_zero_positive in Hc.
  exact (flt_fle_trans _ _ _ Hc H).
Qed.

Lemma nonneg_fle (c x : number) : nonneg c -> fle c x = true -> nonneg x.
Proof.
  intros Hc H. apply fle_zero_nonneg. apply nonneg_fle_zero in Hc.
  exact (fle_trans _ _ _ Hc H).
Qed.

Lemma fle_inf (x : number) : is_nan x = false -> fle x (S754_infinity false) = true.
Proof. number_cases x; intros H; try discriminate; reflexivity. Qed.

Lemma fle_finite (m e m' e' : _) :
  fle (S754_finite false m e) (S754_finite false m' e') = true <-> Fabs m e <= Fabs m' e'.
Proof. unfold fle. cbn [fcompare F2Q]. apply Qcompare_le. Qed.

(** ** Rounding is monotone *)

Lemma round_pos_nonneg (q : Q) : 0 < q -> nonneg (round_pos false q).
Proof. intros Hq. destruct (round_pos_spec false q Hq); constructor. Qed.

Lemma round_pos_not_nan (s : bool) (q : Q) : 0 < q -> is_nan (round_pos s q) = false.
Proof. intros Hq. destruct (round_pos_spec s q Hq); reflexivity. Qed.

Lemma round_pos_mono (q q' : Q) :
  0 < q -> q <= q' -> fle (round_pos false q) (round_pos false q') = true.
Proof.
  intros Hq Hle. assert (Hq' : 0 < q') by lra.
  pose proof (rounded_mono q q' Hq Hle) as Hr.
  pose proof (rounded_nonneg q Hq) as Hn.
  destruct (round_pos_spec false q Hq) as [H1|H1|m e H1 H2 H3];
  destruct (round_pos_spec false q' Hq') as [H1'|H1'|m' e' H1' H2' H3'];
    unfold fle; cbn [fcompare F2Q]; try reflexivity; try rewrite Qcompare_le;
    pose proof (pow2_pos 1024); try pose proof (Fabs_pos m e);
    try pose proof (Fabs_pos m' e'); try lra.
Qed.

(** A Number of the format is the rounding of its own value. *)
Lemma Fabs_flog2 (m : positive) (e : Z) :
  flog2 (Fabs m e) = (Z.log2 (Zpos m) + e)%Z.
Proof.
  destruct (Z.log2_spec (Zpos m)) as [H1 H2]; [lia|].
  pose proof (Z.log2_nonneg (Zpos m)).
  apply flog2_unique; unfold Fabs.
  - apply scale_ge; [apply inject_Z_pow2_ge; lia | lia].
  - replace (Z.log2 (Zpos m) + e + 1)%Z with (Z.succ (Z.log2 (Zpos m)) + e)%Z by lia.
    apply scale_lt; [change 0 with (inject_Z 0); rewrite <- Zle_Qle; lia
                    | apply inject_Z_pow2_lt; lia | lia].
Qed.

Lemma log2_binade (z n : Z) : (0 <= n)%Z -> (2 ^ n <= z < 2 ^ (n + 1))%Z -> Z.log2 z = n.
Proof. intros Hn H. apply Z.log2_unique; [exact Hn | exact H]. Qed.

Lemma round_pos_canonical (s : bool) (m : positive) (e : Z) :
  canonical m e = true -> round_pos s (Fabs m e) = S754_finite s m e.
Proof.
  intros Hc. apply canonical_inv in Hc.
  assert (He : ulp_exp (Fabs m e) = e).
  { unfold ulp_exp. rewrite Fabs_flog2.
    destruct Hc as [[Hm He]|[Hm He]].
    - rewrite (log2_binade (Zpos m) 52); [lia | lia | exact Hm].
    - assert (Z.log2 (Zpos m) < 52)%Z by (apply Z.log2_lt_pow2; lia). lia. }
  assert (Hs : significand (Fabs m e) = Zpos m).
  { unfold significand. rewrite He. apply rhe_Z. unfold Fabs.
    rewrite <- Qmult_assoc, pow2_cancel. ring. }
  unfold round_pos. rewrite He, Hs.
  destruct (Z.eqb_spec (Zpos m) 0); [lia|].
  destruct (Z.eqb_spec (Zpos m) (2 ^ 53)); [lia|].
  destruct (Z.ltb_spec 971 e); [lia|]. reflexivity.
Qed.

Lemma fle_zero_round (s : bool) (q : Q) :
  0 < q -> fle (S754_zero s) (round_pos false q) = true.
Proof.
  intros Hq. destruct (round_pos_spec false q Hq) as [H1|H1|m e H1 H2 H3];
    unfold fle; cbn [fcompare F2Q]; try reflexivity.
  rewrite Qcompare_le. pose proof (Fabs_pos m e). lra.
Qed.

Lemma fle_fin_round (m : positive) (e : Z) (q : Q) :
  canonical m e = true -> Fabs m e <= q ->
  fle (S754_finite false m e) (round_pos false q) = true.
Proof.
  intros Hc Hle. rewrite <- (round_pos_canonical false m e Hc).
  apply round_pos_mono; [apply Fabs_pos | exact Hle].
Qed.

(** ** Multiplication *)

Lemma fmul_mono (x x' y y' : number) :
  positive_num x -> fle x x' = true -> positive_num y -> fle y y' = true ->
  fle (x * y)%num (x' * y')%num = true.
Proof.
  intros Hx Hxx Hy Hyy.
  pose proof (positive_fle _ _ Hx Hxx) as Hx'.
  pose proof (positive_fle _ _ Hy Hyy) as Hy'.
  destruct Hx as [mx ex|], Hx' as [mx' ex'|], Hy as [my ey|], Hy' as [my' ey'|];
    try discriminate; cbn [fmul sign xorb]; try reflexivity;
    try (apply fle_inf, round_pos_not_nan, Qmult_lt_0_compat; apply Fabs_pos).
  apply fle_finite in Hxx, Hyy.
  pose proof (Fabs_pos mx ex). pose proof (Fabs_pos my ey).
  apply round_pos_mono; [apply Qmult_lt_0_compat; assumption|].
  apply Qmult_le_compat_nonneg; split; try assumption; apply Qlt_le_weak; assumption.
Qed.

Lemma fmul_well_formed (x y : number) :
  well_formed x = true -> well_formed y = true -> well_formed (x * y)%num = true.
Proof.
  intros _ _. number_cases x; number_cases y; cbn [fmul sign]; try reflexivity.
  destruct (round_pos_spec (xorb s s0) (Fabs m e * Fabs m0 e0)) as [H1|H1|m' e' H1 H2 H3];
    [apply Qmult_lt_0_compat; apply Fabs_pos | reflexivity | reflexivity | exact H3].
Qed.

(** ** Square root *)

Lemma sqrt_proxy_pos (q : Q) : 0 < q -> 0 < sqrt_proxy q.
Proof.
  intros Hq. unfold sqrt_proxy.
  set (n := Qfloor (q * pow2 2400)). set (s := Z.sqrt n).
  assert (Hs : (0 <= s)%Z) by apply Z.sqrt_nonneg.
  pose proof (pow2_pos 2400). pose proof (pow2_pos (-1200)). pose proof (pow2_pos (-1201)).
  destruct (Qeq_bool (inject_Z (s * s)) (q * pow2 2400)) eqn:E.
  - apply Qeq_bool_iff in E.
    assert (s <> 0)%Z.
    { intros C. rewrite C in E. change (inject_Z (0 * 0)) with 0 in E. nra. }
    apply Qmult_lt_0_compat; [|assumption].
    change 0 with (inject_Z 0). rewrite <- Zlt_Qlt. lia.
  - apply Qmult_lt_0_compat; [|assumption].
    change 0 with (inject_Z 0). rewrite <- Zlt_Qlt. lia.
Qed.

Lemma sqrt_proxy_mono (q q' : Q) : 0 < q -> q <= q' -> sqrt_proxy q <= sqrt_proxy q'.
Proof.
  intros Hq Hle. unfold sqrt_proxy.
  pose proof (pow2_pos 2400) as P.
  assert (Hx : q * pow2 2400 <= q' * pow2 2400) by nra.
  set (x := q * pow2 2400) in *. set (x' := q' * pow2 2400) in *.
  pose proof (Qfloor_resp_le _ _ Hx) as Hn.
  set (n := Qfloor x) in *. set (n' := Qfloor x') in *.
  assert (H0 : (0 <= n)%Z).
  { unfold n. apply (Qfloor_resp_le 0 x). unfold x. nra. }
  pose proof (Z.sqrt_le_mono _ _ Hn) as Hs.
  set (s := Z.sqrt n) in *. set (s' := Z.sqrt n') in *.
  assert (Hs0 : (0 <= s)%Z) by apply Z.sqrt_nonneg.
  assert (E1 : pow2 (-1200) == 2 * pow2 (-1201)).
  { rewrite <- pow2_succ. reflexivity. }
  pose proof (pow2_pos (-1201)) as P1.
  assert (Hlt : (s < s')%Z -> inject_Z (2 * s + 1) * pow2 (-1201) <= inject_Z s' * pow2 (-1200)).
  { intros L. rewrite E1.
    assert (inject_Z (2 * s + 1) <= 2 * inject_Z s').
    { change 2 with (inject_Z 2). rewrite <- inject_Z_mult, <- Zle_Qle. lia. }
    nra. }
  assert (Hle2 : inject_Z s * pow2 (-1200) <= inject_Z (2 * s + 1) * pow2 (-1201)).
  { rewrite E1.
    assert (2 * inject_Z s <= inject_Z (2 * s + 1)).
    { change 2 with (inject_Z 2). rewrite <- inject_Z_mult, <- Zle_Qle. lia. }
    nra. }
  assert (Hss : inject_Z s * pow2 (-1200) <= inject_Z s' * pow2 (-1200)).
  { pose proof (pow2_pos (-1200)). rewrite Zle_Qle in Hs. nra. }
  assert (Hss1 : inject_Z (2 * s + 1) * pow2 (-1201) <= inject_Z (2 * s' + 1) * pow2 (-1201)).
  { assert (inject_Z (2 * s + 1) <= inject_Z (2 * s' + 1)) by (rewrite <- Zle_Qle; lia). nra. }
  destruct (Qeq_bool (inject_Z (s * s)) x) eqn:E;
  destruct (Qeq_bool (inject_Z (s' * s')) x') eqn:E'.
  - exact Hss.
  - eapply Qle_trans; [exact Hle2 | exact Hss1].
  - destruct (Z.eq_dec s s') as [Es|Ns]; [|apply Hlt; lia].
    exfalso. apply Qeq_bool_iff in E'. apply Qeq_bool_neq in E. apply E.
    (* x' = s^2 is an integer, and floor x has root s, so x = s^2 too *)
    rewrite <- Es in E'.
    assert (Hn1 : (s * s <= n)%Z) by (apply Z.sqrt_spec; exact H0).
    pose proof (Qfloor_le x) as Hfl. fold n in Hfl.
    rewrite Zle_Qle in Hn1. lra.
  - exact Hss1.
Qed.

Lemma Math_sqrt_mono (x x' : number) :
  positive_num x -> fle x x' = true -> fle (Math_sqrt x) (Math_sqrt x') = true.
Proof.
  intros Hx Hxx. pose proof (positive_fle _ _ Hx Hxx) as Hx'.
  destruct Hx as [m e|], Hx' as [m' e'|]; try discriminate; cbn [Math_sqrt];
    try reflexivity.
  - apply fle_finite in Hxx.
    apply round_pos_mono; [apply sqrt_proxy_pos, Fabs_pos|].
    apply sqrt_proxy_mono; [apply Fabs_pos | exact Hxx].
  - apply fle_inf, round_pos_not_nan, sqrt_proxy_pos, Fabs_pos.
Qed.

(** ** Integers *)

Lemma round_Q_pos (q : Q) : 0 < q -> round_Q q = round_pos false q.
Proof.
  intros H. unfold round_Q. apply Qgt_alt in H. rewrite H. reflexivity.
Qed.

Lemma of_Z_pos (n : Z) : (0 < n)%Z -> of_Z n = round_pos false (inject_Z n).
Proof.
  intros H. unfold of_Z. apply round_Q_pos.
  change 0 with (inject_Z 0). rewrite <- Zlt_Qlt. exact H.
Qed.

Lemma inject_Z_pos (n : Z) : (0 < n)%Z -> 0 < inject_Z n.
Proof. intros H. change 0 with (inject_Z 0). rewrite <- Zlt_Qlt. exact H. Qed.

(** An integer below [2^53] is a Number. *)
Lemma rounded_int_exact (n : Z) :
  (0 < n < 2 ^ 53)%Z -> rounded (inject_Z n) == inject_Z n.
Proof.
  intros [H0 H1]. pose proof (inject_Z_pos n H0) as Hq.
  assert (Hk : flog2 (inject_Z n) = Z.log2 n).
  { destruct (Z.log2_spec n H0) as [L1 L2]. pose proof (Z.log2_nonneg n).
    apply flog2_unique.
    - apply inject_Z_pow2_ge; lia.
    - apply inject_Z_pow2_lt; [lia|]. exact L2. }
  assert (Hl : (0 <= Z.log2 n < 53)%Z).
  { split; [apply Z.log2_nonneg | apply Z.log2_lt_pow2; lia]. }
  assert (He : ulp_exp (inject_Z n) = (Z.log2 n - 52)%Z) by (unfold ulp_exp; lia).
  unfold rounded, significand. rewrite He.
  rewrite (rhe_Z _ (n * 2 ^ (52 - Z.log2 n))).
  - rewrite inject_Z_mult, <- pow2_Z by lia.
    rewrite <- Qmult_assoc, <- pow2_add.
    replace (52 - Z.log2 n + (Z.log2 n - 52))%Z with 0%Z by ring.
    rewrite pow2_0. ring.
  - rewrite inject_Z_mult, <- pow2_Z by lia.
    replace (- (Z.log2 n - 52))%Z with (52 - Z.log2 n)%Z by ring. reflexivity.
Qed.

(** The rounding of a positive integer is an integer. *)
Lemma rounded_int (n : Z) :
  (0 < n)%Z -> exists z : Z, rounded (inject_Z n) == inject_Z z.
Proof.
  intros H0. destruct (Z_lt_ge_dec n (2 ^ 53)) as [Hs|Hb].
  - exists n. apply rounded_int_exact. lia.
  - pose proof (inject_Z_pos n H0) as Hq.
    assert (Hk : (53 <= flog2 (inject_Z n))%Z).
    { destruct (flog2_spec _ Hq) as [_ K].
      assert (pow2 53 <= inject_Z n) by (apply inject_Z_pow2_ge; lia).
      assert (53 < flog2 (inject_Z n) + 1)%Z by (apply pow2_lt_inv; lra). lia. }
    assert (He : (0 <= ulp_exp (inject_Z n))%Z) by (unfold ulp_exp; lia).
    exists (significand (inject_Z n) * 2 ^ ulp_exp (inject_Z n))%Z.
    unfold rounded. rewrite inject_Z_mult, <- pow2_Z by exact He. reflexivity.
Qed.

Lemma Qfloor_int (z : Z) (q : Q) : q == inject_Z z -> Qfloor q = z.
Proof. intros E. rewrite E. apply Qfloor_Z. Qed.

Lemma of_Z_integer (n : Z) :
  (0 < n)%Z -> is_finite (of_Z n) = true -> is_nonneg_integer (of_Z n) = true.
Proof.
  intros H0 Hf. rewrite of_Z_pos in * by exact H0.
  pose proof (inject_Z_pos n H0) as Hq.
  destruct (rounded_int n H0) as [z Hz].
  unfold is_nonneg_integer. rewrite Hf. cbn [andb].
  destruct (round_pos_spec false (inject_Z n) Hq) as [H1|H1|m e H1 H2 H3];
    try discriminate; cbn [F2Q]; [reflexivity|].
  apply andb_true_iff. split.
  - apply Qle_bool_iff. pose proof (Fabs_pos m e). lra.
  - apply Qeq_bool_iff. rewrite (Qfloor_int z); rewrite H1; exact Hz.
Qed.

(** ** [Math.round] *)

Lemma Math_round_well_formed (x : number) : well_formed (Math_round x) = true.
Proof.
  number_cases x; cbn [Math_round]; try reflexivity.
  destruct (Z.eqb_spec (Qfloor (F2Q (S754_finite s m e) + (1 # 2))) 0) as [E|N];
    [reflexivity|].
  unfold of_Z, round_Q.
  set (n := Qfloor _) in *.
  destruct (Qcompare_spec (inject_Z n) 0) as [H|H|H]; [reflexivity| |].
  - assert (0 < - inject_Z n) by lra.
    destruct (round_pos_spec true _ H0); [reflexivity | reflexivity | assumption].
  - destruct (round_pos_spec false _ H); [reflexivity | reflexivity | assumption].
Qed.

Lemma Math_round_pos_cases (m : positive) (e : Z) :
  let n := Qfloor (Fabs m e + (1 # 2)) in
  (0 <= n)%Z /\
  ((n = 0%Z /\ Math_round (S754_finite false m e) = S754_zero false)
   \/ ((0 < n)%Z /\ Math_round (S754_finite false m e) = round_pos false (inject_Z n))).
Proof.
  intros n. cbn [Math_round F2Q]. fold n.
  assert (H0 : (0 <= n)%Z).
  { unfold n. apply (Qfloor_resp_le 0). pose proof (Fabs_pos m e). lra. }
  split; [exact H0|].
  destruct (Z.eqb_spec n 0) as [E|N]; [left; split; [exact E | reflexivity]|].
  right. split; [lia|]. apply of_Z_pos. lia.
Qed.

Lemma Math_round_nonneg (x : number) : nonneg x -> nonneg (Math_round x).
Proof.
  intros [s|m e|]; cbn [Math_round]; try constructor.
  destruct (Math_round_pos_cases m e) as (_ & [(_ & E)|(Hn & E)]);
    cbn [Math_round] in E; rewrite E; [constructor|].
  apply round_pos_nonneg, inject_Z_pos, Hn.
Qed.

Lemma Math_round_mono (x x' : number) :
  nonneg x -> fle x x' = true -> fle (Math_round x) (Math_round x') = true.
Proof.
  intros Hx Hxx. pose proof (nonneg_fle _ _ Hx Hxx) as Hx'.
  destruct Hx as [s|m e|], Hx' as [s'|m' e'|]; try discriminate;
    try (cbn [Math_round]; reflexivity).
  - (* zero, finite *)
    destruct (Math_round_pos_cases m' e') as (_ & [(_ & E)|(Hn & E)]); rewrite E.
    + reflexivity.
    + apply fle_zero_round, inject_Z_pos, Hn.
  - (* finite, zero *)
    exfalso. unfold fle in Hxx. cbn [fcompare F2Q] in Hxx.
    rewrite Qcompare_le in Hxx. pose proof (Fabs_pos m e). lra.
  - (* finite, finite *)
    apply fle_finite in Hxx.
    assert (Hnn : (Qfloor (Fabs m e + (1 # 2)) <= Qfloor (Fabs m' e' + (1 # 2)))%Z).
    { apply Qfloor_resp_le. lra. }
    destruct (Math_round_pos_cases m e) as (_ & [(_ & E)|(Hn & E)]); rewrite E;
    destruct (Math_round_pos_cases m' e') as (_ & [(Hn' & E')|(Hn' & E')]); rewrite E'.
    + reflexivity.
    + apply fle_zero_round, inject_Z_pos, Hn'.
    + lia.
    + apply round_pos_mono; [apply inject_Z_pos, Hn | rewrite <- Zle_Qle; exact Hnn].
  - (* finite, infinity *)
    apply fle_inf.
    destruct (Math_round_pos_cases m e) as (_ & [(_ & E)|(Hn & E)]); rewrite E;
      [reflexivity | apply round_pos_not_nan, inject_Z_pos, Hn].
Qed.

Lemma Math_round_integer (x : number) :
  nonneg x -> is_finite (Math_round x) = true ->
  is_nonneg_integer (Math_round x) = true.
Proof.
  intros [s|m e|]; try (cbn [Math_round]; reflexivity); [|discriminate].
  destruct (Math_round_pos_cases m e) as (_ & [(_ & E)|(Hn & E)]); rewrite E;
    [reflexivity|].
  rewrite <- of_Z_pos by exact Hn. apply of_Z_integer, Hn.
Qed.

(** ** Addition *)

Lemma fadd_nonneg (x y : number) : nonneg x -> nonneg y -> nonneg (x + y)%num.
Proof.
  intros [sx|mx ex|] [sy|my ey|]; cbn [fadd Bool.eqb]; try constructor.
  - destruct (Bool.eqb sx sy); constructor.
  - rewrite round_Q_pos; [apply round_pos_nonneg|]; cbn [F2Q];
      pose proof (Fabs_pos mx ex); pose proof (Fabs_pos my ey); lra.
Qed.

Lemma fadd_well_formed (x y : number) :
  well_formed x = true -> well_formed y = true -> well_formed (x + y)%num = true.
Proof.
  intros Hx Hy.
  number_cases x; number_cases y; cbn [fadd Bool.eqb]; try reflexivity;
    try assumption; try (destruct s, s0; reflexivity).
  unfold round_Q. set (q := F2Q _ + F2Q _).
  destruct (Qcompare_spec q 0) as [H|H|H]; [reflexivity| |].
  - assert (0 < - q) by lra.
    destruct (round_pos_spec true _ H0); [reflexivity | reflexivity | assumption].
  - destruct (round_pos_spec false _ H); [reflexivity | reflexivity | assumption].
Qed.

Lemma fadd_mono (x x' y y' : number) :
  nonneg x -> well_formed x = true -> fle x x' = true ->
  nonneg y -> well_formed y = true -> fle y y' = true ->
  fle (x + y)%num (x' + y')%num = true.
Proof.
  intros Hx Wx Hxx Hy Wy Hyy.
  pose proof (nonneg_fle _ _ Hx Hxx) as Hx'.
  pose proof (nonneg_fle _ _ Hy Hyy) as Hy'.
  assert (Hnn : is_nan (x + y)%num = false).
  { pose proof (fadd_nonneg x y Hx Hy) as N. destruct N; reflexivity. }
  destruct Hx' as [sx'|mx' ex'|], Hy' as [sy'|my' ey'|];
    try (cbn [fadd]; apply fle_inf; exact Hnn).
  - (* zero, zero *)
    destruct Hx as [sx|mx ex|], Hy as [sy|my ey|]; try discriminate;
      try (exfalso; unfold fle in Hxx, Hyy; cbn [fcompare F2Q] in Hxx, Hyy;
           rewrite ?Qcompare_le in *;
           try pose proof (Fabs_pos mx ex); try pose proof (Fabs_pos my ey); lra).
    cbn [fadd]. destruct (Bool.eqb sx sy), (Bool.eqb sx' sy'); reflexivity.
  - (* zero, finite *)
    destruct Hx as [sx|mx ex|]; try discriminate;
      [|exfalso; unfold fle in Hxx; cbn [fcompare F2Q] in Hxx;
        rewrite Qcompare_le in Hxx; pose proof (Fabs_pos mx ex); lra].
    destruct Hy as [sy|my ey|]; try discriminate; cbn [fadd].
    + destruct (Bool.eqb sx sy); exact Hyy.
    + exact Hyy.
  - (* finite, zero *)
    destruct Hy as [sy|my ey|]; try discriminate;
      [|exfalso; unfold fle in Hyy; cbn [fcompare F2Q] in Hyy;
        rewrite Qcompare_le in Hyy; pose proof (Fabs_pos my ey); lra].
    destruct Hx as [sx|mx ex|]; try discriminate; cbn [fadd].
    + destruct (Bool.eqb sx sy); exact Hxx.
    + exact Hxx.
  - (* finite, finite *)
    pose proof (Fabs_pos mx' ex'). pose proof (Fabs_pos my' ey').
    assert (Hq' : 0 < Fabs mx' ex' + Fabs my' ey') by lra.
    destruct Hx as [sx|mx ex|], Hy as [sy|my ey|]; try discriminate;
      cbn [fadd F2Q]; rewrite ?round_Q_pos by exact Hq'.
    + destruct (Bool.eqb sx sy); apply fle_zero_round; exact Hq'.
    + apply fle_finite in Hyy. apply fle_fin_round; [exact Wy | lra].
    + apply fle_finite in Hxx. apply fle_fin_round; [exact Wx | lra].
    + apply fle_finite in Hxx, Hyy.
      pose proof (Fabs_pos mx ex). pose proof (Fabs_pos my ey).
      rewrite !round_Q_pos by lra. apply round_pos_mono; lra.
Qed.

(** Adding two whole Numbers is exact while the sum stays below [2^53]. *)
Lemma fadd_exact (x y : number) (a b : Z) :
  nonneg x -> nonneg y -> is_finite x = true -> is_finite y = true ->
  F2Q x == inject_Z a -> F2Q y == inject_Z b -> (a + b < 2 ^ 53)%Z ->
  is_finite (x + y)%num = true /\ F2Q (x + y)%num == inject_Z (a + b).
Proof.
  intros Hx Hy Fx Fy Ex Ey Hs.
  destruct Hx as [sx|mx ex|], Hy as [sy|my ey|]; try discriminate;
    cbn [fadd F2Q] in *.
  - split; [destruct (Bool.eqb sx sy); reflexivity|].
    rewrite inject_Z_plus, <- Ex, <- Ey. destruct (Bool.eqb sx sy); reflexivity.
  - split; [reflexivity|]. rewrite inject_Z_plus, <- Ex, <- Ey. ring.
  - split; [reflexivity|]. rewrite inject_Z_plus, <- Ex, <- Ey. ring.
  - pose proof (Fabs_pos mx ex). pose proof (Fabs_pos my ey).
    assert (Hq : 0 < Fabs mx ex + Fabs my ey) by lra.
    assert (E : Fabs mx ex + Fabs my ey == inject_Z (a + b)).
    { rewrite inject_Z_plus, <- Ex, <- Ey. reflexivity. }
    assert (Hab : (0 < a + b)%Z).
    { rewrite Zlt_Qlt. rewrite <- E. exact Hq. }
    rewrite round_Q_pos by exact Hq.
    rewrite (round_pos_comp false _ _ Hq E).
    pose proof (rounded_int_exact (a + b) (conj Hab Hs)) as R.
    assert (Hlt : inject_Z (a + b) < pow2 1024).
    { assert (inject_Z (a + b) < pow2 53) by (apply inject_Z_pow2_lt; lia).
      assert (pow2 53 <= pow2 1024) by (apply pow2_le; lia). lra. }
    destruct (round_pos_spec false (inject_Z (a + b)) (inject_Z_pos _ Hab))
      as [H1|H1|m e H1 H2 H3]; cbn [is_finite F2Q].
    + exfalso. pose proof (inject_Z_pos _ Hab). lra.
    + exfalso. lra.
    + split; [reflexivity | lra].
Qed.

Lemma fle_not_nan_l (x y : number) : fle x y = true -> is_nan x = false.
Proof. intros H. apply fle_iff in H. tauto. Qed.

Lemma fle_not_nan_r (x y : number) : fle x y = true -> is_nan y = false.
Proof. intros H. apply fle_iff in H. tauto. Qed.

Lemma between_intro (c x x' : number) :
  flt zero c = true -> fle c x = true -> fle x x' = true -> between c x x'.
Proof. intros H1 H2 H3. repeat split; try assumption. apply flt_zero_positive, H1. Qed.

(** ** Positive lower bounds along products and roots *)

Lemma between_refl (c : number) : positive_num c -> between c c c.
Proof.
  intros H. repeat split; [exact H | |]; apply fle_refl; destruct H; reflexivity.
Qed.

Lemma between_mul (c1 x1 x1' c2 x2 x2' : number) :
  between c1 x1 x1' -> between c2 x2 x2' ->
  flt zero (c1 * c2)%num = true ->
  between (c1 * c2)%num (x1 * x2)%num (x1' * x2')%num.
Proof.
  intros (P1 & L1 & M1) (P2 & L2 & M2) Hp.
  pose proof (positive_fle _ _ P1 L1). pose proof (positive_fle _ _ P2 L2).
  repeat split.
  - apply flt_zero_positive, Hp.
  - apply fmul_mono; assumption.
  - apply fmul_mono; assumption.
Qed.

Lemma between_sqrt (c x x' : number) :
  between c x x' -> flt zero (Math_sqrt c) = true ->
  between (Math_sqrt c) (Math_sqrt x) (Math_sqrt x').
Proof.
  intros (P & L & M) Hp.
  pose proof (positive_fle _ _ P L).
  repeat split.
  - apply flt_zero_positive, Hp.
  - apply Math_sqrt_mono; assumption.
  - apply Math_sqrt_mono; assumption.
Qed.

Lemma between_weaken (c x x' : number) : between c x x' -> between c x x.
Proof.
  intros (P & L & M). repeat split; try assumption.
  apply fle_refl. pose proof (positive_fle _ _ P L) as H. destruct H; reflexivity.
Qed.

Lemma between_round (c x x' : number) :
  between c x x' -> amount_le (Math_round x) (Math_round x').
Proof.
  intros (P & L & M).
  pose proof (positive_nonneg _ (positive_fle _ _ P L)) as N.
  repeat split.
  - apply Math_round_nonneg, N.
  - apply Math_round_well_formed.
  - apply Math_round_well_formed.
  - apply Math_round_mono; assumption.
Qed.

Lemma amount_le_add (s s' a a' : number) :
  amount_le s s' -> amount_le a a' -> amount_le (s + a)%num (s' + a')%num.
Proof.
  intros (N1 & W1 & W1' & L1) (N2 & W2 & W2' & L2). repeat split.
  - apply fadd_nonneg; assumption.
  - apply fadd_well_formed; assumption.
  - apply fadd_well_formed; assumption.
  - apply fadd_mono; assumption.
Qed.

Lemma amount_le_zero : amount_le (of_Z 0) (of_Z 0).
Proof. repeat split. constructor. Qed.

Lemma between_nonneg (c x : number) : between c x x -> nonneg x.
Proof. intros (P & L & _). exact (positive_nonneg _ (positive_fle _ _ P L)). Qed.

(** ** Whole Numbers and exact sums *)

Lemma is_nonneg_integer_inv (x : number) :
  is_nonneg_integer x = true ->
  is_finite x = true /\ exists z : Z, (0 <= z)%Z /\ F2Q x == inject_Z z.
Proof.
  unfold is_nonneg_integer. rewrite !andb_true_iff.
  intros [[Hf Hn] Hi]. split; [exact Hf|].
  apply Qle_bool_iff in Hn. apply Qeq_bool_iff in Hi.
  exists (Qfloor (F2Q x)). split; [|exact Hi].
  rewrite Zle_Qle. change (inject_Z 0) with 0. lra.
Qed.

Lemma is_nonneg_integer_intro (x : number) (z : Z) :
  is_finite x = true -> (0 <= z)%Z -> F2Q x == inject_Z z ->
  is_nonneg_integer x = true.
Proof.
  intros Hf Hz E. unfold is_nonneg_integer. rewrite Hf. cbn [andb].
  apply andb_true_iff. split.
  - apply Qle_bool_iff. rewrite E. change 0 with (inject_Z 0).
    rewrite <- Zle_Qle. exact Hz.
  - apply Qeq_bool_iff. rewrite (Qfloor_int z _ E). exact E.
Qed.

Lemma flt_finite (x c : number) :
  nonneg x -> flt x c = true -> is_finite c = true -> is_finite x = true.
Proof.
  intros Hx H Hc. destruct Hx; try reflexivity.
  exfalso. number_cases c; discriminate.
Qed.

Lemma fadd_zero_l (y : number) : nonneg y -> fle y (zero + y)%num = true.
Proof.
  intros [[|]|m e|]; try reflexivity. cbn [fadd zero]. apply fle_refl. reflexivity.
Qed.

Lemma fadd_zero_r (x : number) : nonneg x -> fle x (x + zero)%num = true.
Proof.
  intros [[|]|m e|]; try reflexivity. cbn [fadd zero]. apply fle_refl. reflexivity.
Qed.

Lemma well_formed_zero : well_formed zero = true.
Proof. reflexivity. Qed.

Lemma fle_fadd_l (x y : number) :
  nonneg x -> well_formed x = true -> nonneg y -> well_formed y = true ->
  fle x (x + y)%num = true.
Proof.
  intros Nx Wx Ny Wy.
  apply (fle_trans _ (x + zero)%num); [apply fadd_zero_r, Nx|].
  apply fadd_mono; try assumption; try constructor.
  - apply fle_refl. destruct Nx; reflexivity.
  - apply nonneg_fle_zero, Ny.
Qed.

Lemma fle_fadd_r (x y : number) :
  nonneg x -> well_formed x = true -> nonneg y -> well_formed y = true ->
  fle y (x + y)%num = true.
Proof.
  intros Nx Wx Ny Wy.
  apply (fle_trans _ (zero + y)%num); [apply fadd_zero_l, Ny|].
  apply fadd_mono; try assumption; try constructor.
  - apply nonneg_fle_zero, Nx.
  - apply fle_refl. destruct Ny; reflexivity.
Qed.

Lemma fadd_overflows_53 (x y : number) (a b : Z) :
  nonneg x -> nonneg y -> is_finite x = true -> is_finite y = true ->
  well_formed x = true -> well_formed y = true ->
  F2Q x == inject_Z a -> F2Q y == inject_Z b -> (2 ^ 53 <= a + b)%Z ->
  fle two53 (x + y)%num = true.
Proof.
  intros Hx Hy Fx Fy Wx Wy Ex Ey Hs.
  destruct Hx as [sx|mx ex|], Hy as [sy|my ey|]; try discriminate;
    cbn [fadd F2Q] in *;
    assert (V : F2Q two53 == inject_Z (2 ^ 53)) by (vm_compute; reflexivity);
    assert (T : two53 = round_pos false (inject_Z (2 ^ 53))) by (vm_compute; reflexivity).
  - exfalso. assert (inject_Z (a + b) == 0) by (rewrite inject_Z_plus; lra).
    assert (inject_Z (2 ^ 53) <= inject_Z (a + b)) by (rewrite <- Zle_Qle; exact Hs).
    assert (0 < inject_Z (2 ^ 53)) by reflexivity. lra.
  - apply fle_iff. repeat split. right. split; [reflexivity|]. right.
    rewrite V. cbn [F2Q]. rewrite Ey.
    assert (inject_Z (2 ^ 53) <= inject_Z (a + b)) by (rewrite <- Zle_Qle; exact Hs).
    rewrite inject_Z_plus in H. lra.
  - apply fle_iff. repeat split. right. split; [reflexivity|]. right.
    rewrite V. cbn [F2Q]. rewrite Ex.
    assert (inject_Z (2 ^ 53) <= inject_Z (a + b)) by (rewrite <- Zle_Qle; exact Hs).
    rewrite inject_Z_plus in H. lra.
  - pose proof (Fabs_pos mx ex). pose proof (Fabs_pos my ey).
    rewrite round_Q_pos by lra. rewrite T.
    apply round_pos_mono; [reflexivity|].
    assert (inject_Z (2 ^ 53) <= inject_Z (a + b)) by (rewrite <- Zle_Qle; exact Hs).
    rewrite inject_Z_plus in H1. lra.
Qed.

Lemma rounded_amount_round (x : number) : nonneg x -> rounded_amount (Math_round x).
Proof.
  intros H. repeat split.
  - apply Math_round_nonneg, H.
  - apply Math_round_well_formed.
  - apply Math_round_integer, H.
Qed.

(** ** Sign symmetry of the product *)

Lemma round_pos_opp (s : bool) (q : Q) :
  fopp (round_pos s q) = round_pos (negb s) q.
Proof.
  unfold round_pos.
  destruct (significand q =? 0)%Z; [reflexivity|].
  destruct (significand q =? 2 ^ 53)%Z.
  - destruct (971 <? ulp_exp q + 1)%Z; reflexivity.
  - destruct (971 <? ulp_exp q)%Z; reflexivity.
Qed.

Lemma fmul_opp_l (x y : number) : (- x * y)%num = (- (x * y))%num.
Proof.
  number_cases x; number_cases y; cbn [fmul fopp sign xorb negb];
    try reflexivity; try (destruct s; reflexivity);
    try (destruct s0; reflexivity); try (destruct s, s0; reflexivity).
  rewrite round_pos_opp. destruct s, s0; reflexivity.
Qed.

Lemma fmul_comm (x y : number) : (x * y)%num = (y * x)%num.
Proof.
  number_cases x; number_cases y; cbn [fmul sign]; try reflexivity;
    try (rewrite xorb_comm; reflexivity); try (destruct s; reflexivity);
    try (destruct s0; reflexivity).
  rewrite xorb_comm. apply round_pos_comp.
  - apply Qmult_lt_0_compat; apply Fabs_pos.
  - apply Qmult_comm.
Qed.

Lemma fopp_nonneg_le (t : number) : nonneg t -> fle (- t)%num t = true.
Proof.
  intros [s|m e|]; unfold fle; cbn [fopp fcompare F2Q negb]; try reflexivity.
  apply Qcompare_le. pose proof (Fabs_pos m e). lra.
Qed.

Lemma flt_irrefl (x : number) : flt x x = false.
Proof.
  destruct (flt x x) eqn:E; [|reflexivity]. exfalso.
  apply flt_iff in E. destruct E as (_ & _ & [E|(_ & _ & E)]); [lia | lra].
Qed.

Lemma fmul_positive_nonneg (x y : number) :
  positive_num x -> positive_num y -> nonneg (x * y)%num.
Proof.
  intros [mx ex|] [my ey|]; cbn [fmul sign xorb]; try constructor.
  apply round_pos_nonneg, Qmult_lt_0_compat; apply Fabs_pos.
Qed.

Lemma feq_iff (x y : number) :
  feq x y = true <->
  is_nan x = false /\ is_nan y = false
  /\ cls x = cls y /\ (cls x <> 0%Z \/ F2Q x == F2Q y).
Proof.
  unfold feq.
  number_cases x; number_cases y; cbn [fcompare is_nan cls];
    try rewrite Qcompare_eq;
    (split; [intros H; repeat split; try reflexivity; try discriminate;
               try (right; exact H); try (left; discriminate)
            | intros (H1 & H2 & H3 & H4); try discriminate; try reflexivity;
              destruct H4 as [H4|H4]; try (exfalso; apply H4; reflexivity);
              try exact H4 ]).
Qed.

Lemma feq_flt_compat_l (x y z : number) :
  feq x y = true -> flt x z = flt y z.
Proof.
  intros H. apply feq_iff in H. destruct H as (N1 & N2 & C & V).
  apply eq_true_iff_eq. rewrite !flt_iff. unfold ext_lt.
  split; intros (A & B & H); repeat split; try assumption;
    (destruct H as [H|(H1 & H2 & H3)]; [left; lia | right; repeat split; try lia;
      destruct V as [V|V]; [lia | lra]]).
Qed.

Lemma feq_flt_compat_r (x y z : number) :
  feq x y = true -> flt z x = flt z y.
Proof.
  intros H. apply feq_iff in H. destruct H as (N1 & N2 & C & V).
  apply eq_true_iff_eq. rewrite !flt_iff. unfold ext_lt.
  split; intros (A & B & H); repeat split; try assumption;
    (destruct H as [H|(H1 & H2 & H3)]; [left; lia | right; repeat split; try lia;
      destruct V as [V|V]; [lia | lra]]).
Qed.

Lemma feq_not_flt (x y : number) :
  feq x y = true -> flt x y = false /\ flt y x = false.
Proof.
  intros H. split.
  - rewrite (feq_flt_compat_l _ _ _ H). apply flt_irrefl.
  - rewrite (feq_flt_compat_r _ _ _ H). apply flt_irrefl.
Qed.

Lemma flt_opp_nonneg (t : number) : nonneg t -> flt t (- t)%num = false.
Proof.
  intros N. destruct (flt t (- t)%num) eqn:E; [|reflexivity].
  apply flt_not_fle in E. rewrite (fopp_nonneg_le t N) in E. discriminate.
Qed.

(** The two tests of the status cannot both hold when the budget is
    positive. *)
Lemma band_exclusive (V t : number) :
  nonneg t -> flt V (- t)%num = true -> flt t V = false.
Proof.
  intros N H1. destruct (flt t V) eqn:H2; [|reflexivity]. exfalso.
  pose proof (flt_fle_trans _ _ _ H1 (fopp_nonneg_le _ N)) as H3.
  pose proof (flt_fle_trans _ _ _ H2 (flt_fle _ _ H3)) as H4.
  rewrite flt_irrefl in H4. discriminate.
Qed.

(** ** Division by zero *)

Lemma fdiv_zero (v : number) (s : bool) :
  is_degenerate (v / S754_zero s)%num = true.
Proof. number_cases v; reflexivity. Qed.

Lemma fmul_degenerate (x c : number) :
  is_degenerate x = true -> is_finite c = true -> is_degenerate (x * c)%num = true.
Proof.
  number_cases x; try discriminate; number_cases c; try discriminate; reflexivity.
Qed.

(** ** Defaults of the parsed fields *)

Lemma or_else_truthy (x d : number) : truthy d = true -> truthy (or_else x d) = true.
Proof. intros H. unfold or_else. destruct (truthy x) eqn:E; assumption. Qed.

Lemma truthy_not_zero (x : number) :
  truthy x = true -> is_nan x = false /\ feq x (S754_zero false) = false.
Proof.
  number_cases x; try discriminate; intros _; split; try reflexivity.
  unfold feq. cbn [fcompare].
  destruct (Qcompare_spec (F2Q (S754_finite s m e)) (F2Q (S754_zero false)))
    as [H|H|H]; try reflexivity.
  exfalso. cbn [F2Q] in H. pose proof (Fabs_pos m e). destruct s; lra.
Qed.

(** ** Well-formed and finite results *)

Lemma round_Q_well_formed (q : Q) : well_formed (round_Q q) = true.
Proof.
  unfold round_Q. destruct (Qcompare_spec q 0) as [H|H|H]; [reflexivity| |].
  - destruct (round_pos_spec true (- q)) as [H1|H1|m' e' H1 H2 H3];
      [lra | reflexivity | reflexivity | exact H3].
  - destruct (round_pos_spec false q) as [H1|H1|m' e' H1 H2 H3];
      [lra | reflexivity | reflexivity | exact H3].
Qed.

Lemma of_Z_well_formed (z : Z) : well_formed (of_Z z) = true.
Proof. apply round_Q_well_formed. Qed.

(** The largest finite Number. *)
Lemma fle_max_value (x : number) :
  well_formed x = true -> is_finite x = true ->
  fle x (S754_finite false 9007199254740991 971) = true.
Proof.
  destruct x as [s|s| |s m e]; intros W F; try discriminate F.
  - destruct s; reflexivity.
  - apply fle_iff. split; [reflexivity|]. split; [reflexivity|].
    right. split; [reflexivity|]. right. cbn [F2Q].
    assert (B : (Fabs m e <= Fabs 9007199254740991 971)%Q).
    { unfold Fabs. cbn [well_formed] in W.
      assert (Hm : (inject_Z (Zpos m) <= inject_Z 9007199254740991)%Q).
      { rewrite <- Zle_Qle.
        destruct (canonical_inv _ _ W) as [[H _]|[H _]];
          change (2 ^ 53)%Z with 9007199254740992%Z in *;
          change (2 ^ 52)%Z with 4503599627370496%Z in *; lia. }
      assert (He : (pow2 e <= pow2 971)%Q).
      { apply pow2_le. destruct (canonical_inv _ _ W) as [[_ H]|[_ H]]; lia. }
      pose proof (pow2_pos e). pose proof (pow2_pos 971).
      assert (0 < inject_Z (Zpos m))%Q by (apply inject_Z_pos; lia).
      nra. }
    destruct s; [|exact B].
    pose proof (Fabs_pos m e). pose proof (Fabs_pos 9007199254740991 971). lra.
Qed.

(** A positive rational below one that rounds to a finite Number rounds to a
    zero or to a finite Number that is not greater. *)
Lemma round_pos_below (s : bool) (q q0 : Q) (m0 : positive) (e0 : Z) :
  0 < q -> q <= q0 -> round_pos false q0 = S754_finite false m0 e0 ->
  round_pos s q = S754_zero s
  \/ exists m e, round_pos s q = S754_finite s m e /\ Fabs m e <= Fabs m0 e0.
Proof.
  intros Hq Hle E0. assert (Hq0 : 0 < q0) by lra.
  pose proof (rounded_mono q q0 Hq Hle) as Hr.
  pose proof (round_pos_spec false q0 Hq0) as S0. rewrite E0 in S0.
  inversion S0 as [| |m' e' H1' H2' H3']; subst m' e'.
  destruct (round_pos_spec s q Hq) as [H1|H1|m e H1 H2 H3].
  - left. reflexivity.
  - exfalso. lra.
  - right. exists m, e. split; [reflexivity|]. lra.
Qed.

(** The same, as a bound of the absolute value. *)
Lemma round_pos_finite_below (s : bool) (q q0 : Q) (m0 : positive) (e0 : Z) :
  0 < q -> q <= q0 -> round_pos false q0 = S754_finite false m0 e0 ->
  is_finite (round_pos s q) = true
  /\ Qabs (F2Q (round_pos s q)) <= Fabs m0 e0.
Proof.
  intros Hq Hle E0. pose proof (Fabs_pos m0 e0) as P0.
  destruct (round_pos_below s q q0 m0 e0 Hq Hle E0) as [-> | (m & e & -> & L)].
  - split; [reflexivity|]. cbn [F2Q]. change (Qabs 0) with 0. lra.
  - split; [reflexivity|]. cbn [F2Q]. pose proof (Fabs_pos m e) as P.
    destruct s.
    + rewrite Qabs_opp, Qabs_pos; lra.
    + rewrite Qabs_pos; lra.
Qed.

(** No finite Number is beyond the largest one. *)
Lemma finite_abs (x : number) :
  is_finite x = true -> well_formed x = true -> Qabs (F2Q x) <= Fabs 9007199254740991 971.
Proof.
  intros F W. destruct x as [s|s| |s m e]; try discriminate F.
  - cbn [F2Q]. change (Qabs 0) with 0. pose proof (Fabs_pos 9007199254740991 971).
    cbn [F2Q]. lra.
  - assert (L : fle (S754_finite false m e) (S754_finite false 9007199254740991 971) = true)
      by (apply fle_max_value; [exact W | reflexivity]).
    apply fle_finite in L. cbn [F2Q]. pose proof (Fabs_pos m e).
    destruct s; [rewrite Qabs_opp|]; rewrite Qabs_pos; lra.
Qed.

(** The percentage a finite amount is over or under 2000 is finite. *)
Lemma percentage_of_2000_finite (t : number) :
  is_finite t = true -> well_formed t = true ->
  is_finite ((t - of_Z 2000) / of_Z 2000 * of_Z 100)%num = true.
Proof.
  intros F W. pose proof (finite_abs t F W) as B.
  assert (E2000 : of_Z 2000 = S754_finite false 8796093022208000 (-42))
    by (vm_compute; reflexivity).
  assert (E100 : of_Z 100 = S754_finite false 7036874417766400 (-46))
    by (vm_compute; reflexivity).
  assert (V2000 : Fabs 8796093022208000 (-42) == 2000) by (vm_compute; reflexivity).
  assert (V100 : Fabs 7036874417766400 (-46) == 100) by (vm_compute; reflexivity).
  rewrite E2000, E100.
  (* the difference *)
  assert (D : is_finite (t - S754_finite false 8796093022208000 (-42))%num = true
              /\ Qabs (F2Q (t - S754_finite false 8796093022208000 (-42))%num)
                 <= Fabs 9007199254740991 971).
  { destruct t as [s|s| |s m e]; try discriminate F.
    - destruct s; split; try reflexivity; vm_compute; discriminate.
    - unfold fsub, fopp. cbn [negb fadd]. unfold round_Q.
      set (q := F2Q (S754_finite s m e) + F2Q (S754_finite true 8796093022208000 (-42))).
      assert (Bq : Qabs q <= Fabs 9007199254740991 971 + 2000).
      { subst q. cbn [F2Q] in B |- *. rewrite V2000.
        eapply Qle_trans; [apply Qabs_triangle|].
        rewrite (Qabs_opp 2000). change (Qabs 2000) with 2000.
        apply Qplus_le_compat; [exact B | apply Qle_refl]. }
      assert (R : round_pos false (Fabs 9007199254740991 971 + 2000) = S754_finite false 9007199254740991 971)
        by (vm_compute; reflexivity).
      clearbody q. destruct (Qcompare_spec q 0) as [H|H|H].
      + split; [reflexivity|]. cbn [F2Q]. change (Qabs 0) with 0.
        pose proof (Fabs_pos 9007199254740991 971). cbn [F2Q]. lra.
      + assert (L : - q <= Fabs 9007199254740991 971 + 2000).
        { rewrite <- Qabs_opp in Bq. rewrite Qabs_pos in Bq; [exact Bq|]. lra. }
        apply (round_pos_finite_below true (- q) _ _ _ ltac:(lra) L R).
      + assert (L : q <= Fabs 9007199254740991 971 + 2000).
        { rewrite Qabs_pos in Bq; [|lra]. exact Bq. }
        apply (round_pos_finite_below false q _ _ _ H L R). }
  destruct D as (FD & BD).
  revert FD BD. generalize (t - S754_finite false 8796093022208000 (-42))%num.
  intros d FD BD.
  (* the quotient *)
  assert (E1 : round_pos false (Fabs 9007199254740991 971 / 2000)
               = S754_finite false 4611686018427387 961) by (vm_compute; reflexivity).
  assert (E2 : round_pos false (Fabs 4611686018427387 961 * 100)
               = S754_finite false 7205759403792792 967) by (vm_compute; reflexivity).
  revert E1 E2. generalize 4611686018427387%positive 961%Z 7205759403792792%positive 967%Z.
  intros m1 e1 m2 e2 E1 E2.
  assert (Q : is_finite (d / S754_finite false 8796093022208000 (-42))%num = true
              /\ Qabs (F2Q (d / S754_finite false 8796093022208000 (-42))%num)
                 <= Fabs m1 e1).
  { pose proof (Fabs_pos m1 e1) as P1.
    destruct d as [s|s| |s m e]; try discriminate FD.
    - split; [reflexivity|]. cbn [fdiv F2Q]. change (Qabs 0) with 0. lra.
    - cbn [fdiv]. pose proof (Fabs_pos m e) as P.
      apply (round_pos_finite_below _ _ (Fabs 9007199254740991 971 / 2000) m1 e1).
      + rewrite V2000. apply Qlt_shift_div_l; lra.
      + rewrite V2000. cbn [F2Q] in BD.
        assert (A : Fabs m e <= Fabs 9007199254740991 971).
        { destruct s; [rewrite Qabs_opp in BD|]; rewrite Qabs_pos in BD; lra. }
        apply Qle_shift_div_l; [lra|].
        unfold Qdiv. rewrite <- Qmult_assoc, (Qmult_comm (/ 2000)), Qmult_inv_r by lra.
        lra.
      + exact E1. }
  destruct Q as (FQ & BQ).
  revert FQ BQ. generalize (d / S754_finite false 8796093022208000 (-42))%num.
  intros z FZ BZ.
  destruct z as [s|s| |s m e]; try discriminate FZ; [reflexivity|].
  cbn [fmul]. pose proof (Fabs_pos m e) as P.
  apply (round_pos_finite_below _ _ (Fabs m1 e1 * 100) m2 e2).
  - rewrite V100. lra.
  - rewrite V100. cbn [F2Q] in BZ.
    assert (A : Fabs m e <= Fabs m1 e1).
    { destruct s; [rewrite Qabs_opp in BZ|]; rewrite Qabs_pos in BZ; lra. }
    lra.
  - exact E2.
Qed.

End JSNumberFacts.

(* ================================================================== *)
(** * The operators against the Standard Library's and the machine's    *)
(* ================================================================== *)

Module JSNumberConformance.
Import JSNumber Examples.

Example samples_valid :
  forallb (SpecFloat.valid_binary 53 1024) samples = true.
Proof. vm_compute. reflexivity. Qed.

Example fmul_conforms :
  let r := on_pairs fmul in
  r = on_pairs (SpecFloat.SFmul 53 1024)
  /\ r = on_pairs (hardware2 PrimFloat.mul).
Proof. vm_compute. split; reflexivity. Qed.

Example fdiv_conforms :
  let r := on_pairs fdiv in
  r = on_pairs (SpecFloat.SFdiv 53 1024)
  /\ r = on_pairs (hardware2 PrimFloat.div).
Proof. vm_compute. split; reflexivity. Qed.

Example fadd_conforms :
  let r := on_pairs fadd in
  r = on_pairs (SpecFloat.SFadd 53 1024)
  /\ r = on_pairs (hardware2 PrimFloat.add).
Proof. vm_compute. split; reflexivity. Qed.

Example fsub_conforms :
  let r := on_pairs fsub in
  r = on_pairs (SpecFloat.SFsub 53 1024)
  /\ r = on_pairs (hardware2 PrimFloat.sub).
Proof. vm_compute. split; reflexivity. Qed.

Example Math_sqrt_conforms :
  let r := map Math_sqrt samples in
  r = map (SpecFloat.SFsqrt 53 1024) samples
  /\ r = map (hardware1 PrimFloat.sqrt) samples.
Proof. vm_compute. split; reflexivity. Qed.

Example fopp_conforms :
  map fopp samples = map SpecFloat.SFopp samples
  /\ map fopp samples = map (hardware1 PrimFloat.opp) samples.
Proof. vm_compute. split; reflexivity. Qed.

Example fcompare_conforms :
  on_pairs fcompare = on_pairs SpecFloat.SFcompare
  /\ on_pairs flt = on_pairs SpecFloat.SFltb
  /\ on_pairs fle = on_pairs SpecFloat.SFleb
  /\ on_pairs feq = on_pairs SpecFloat.SFeqb.
Proof. vm_compute. repeat split. Qed.

(** The literals of the two estimators, as the machine reads them. *)
Example lit_conforms :
  [ lit 1.2; lit 1.5; lit 1.3; lit 0.9; lit 0.6; lit 0.05; lit 0.15;
    lit 0.25; lit 0.3; lit 0.1 ]
  = map Prim2SF
      [ 0x1.3333333333333p+0; 0x1.8p+0; 0x1.4cccccccccccdp+0;
        0x1.ccccccccccccdp-1; 0x1.3333333333333p-1; 0x1.999999999999ap-5;
        0x1.3333333333333p-3; 0x1p-2; 0x1.3333333333333p-2;
        0x1.999999999999ap-4 ]%float.
Proof. vm_compute. reflexivity. Qed.

(** [Math.round] takes a half towards [+Infinity] and keeps the sign of a
    zero; [Math.ceil] likewise gives [-0] between [-1] and [0]. *)
Example Math_round_values :
  map Math_round
    [ lit 2.5; lit (-2.5); lit 0.5; lit (-0.5); lit 0.49999999999999994;
      lit 360.62; lit (-0.2); of_Z 7; S754_infinity false; S754_nan;
      S754_zero true; lit 4503599627370495.5 ]
  = [ of_Z 3; of_Z (-2); of_Z 1; S754_zero true; S754_zero false;
      of_Z 361; S754_zero true; of_Z 7; S754_infinity false; S754_nan;
      S754_zero true; of_Z 4503599627370496 ].
Proof. vm_compute. reflexivity. Qed.

Example Math_ceil_values :
  map Math_ceil
    [ lit 4.2; lit (-4.2); lit (-0.5); of_Z 5; S754_nan; S754_infinity true;
      lit 0.0001 ]
  = [ of_Z 5; of_Z (-4); S754_zero true; of_Z 5; S754_nan;
      S754_infinity true; of_Z 1 ].
Proof. vm_compute. reflexivity. Qed.

End JSNumberConformance.

(* ================================================================== *)
(** * Facts about the string helpers                                    *)
(* ================================================================== *)

Module JSStringFacts.
Import JSString.
Local Open Scope string_scope.

Lemma prefix_spec (p s : string) :
  String.prefix p s = true <-> exists post, s = p ++ post.
Proof.
  revert s. induction p as [|c p IH]; intros s.
  - split; [intros _; exists s; reflexivity | intros _; destruct s; reflexivity].
  - destruct s as [|d s]; cbn [String.prefix].
    + split; [discriminate | intros [post H]; discriminate H].
    + destruct (Ascii.ascii_dec c d) as [->|N].
      * rewrite IH. split; intros [post H]; exists post.
        -- cbn. rewrite H. reflexivity.
        -- cbn in H. injection H as H. exact H.
      * split; [discriminate | intros [post H]; cbn in H; congruence].
Qed.

(** [includes] is substring search. *)
Lemma includes_spec (s sub : string) :
  includes s sub = true <-> exists pre post, s = pre ++ sub ++ post.
Proof.
  induction s as [|c s IH]; cbn [includes]; rewrite orb_true_iff, prefix_spec.
  - split.
    + intros [[post H]|H]; [|discriminate]. exists "", post. exact H.
    + intros (pre & post & H). left.
      destruct pre; [exists post; exact H | discriminate H].
  - rewrite IH. split.
    + intros [[post H]|(pre & post & H)].
      * exists "", post. exact H.
      * exists (String c pre), post. cbn. rewrite H. reflexivity.
    + intros (pre & post & H). destruct pre as [|d pre].
      * left. exists post. exact H.
      * right. cbn in H. injection H as _ H. exists pre, post. exact H.
Qed.

Lemma lower_lower_char (c : ascii) : lower_char (lower_char c) = lower_char c.
Proof. destruct c as [[] [] [] [] [] [] [] []]; reflexivity. Qed.

Lemma lower_char_ascii (c : ascii) : is_ascii (lower_char c) = is_ascii c.
Proof. destruct c as [[] [] [] [] [] [] [] []]; reflexivity. Qed.

Lemma lower_char_other (c : ascii) : is_ascii c = false -> lower_char c = c.
Proof. destruct c as [[] [] [] [] [] [] [] []]; intros H; try discriminate H; reflexivity. Qed.

(** ** The equations of [toLowerCase] *)

Lemma toLowerCase_kelvin (s : string) :
  toLowerCase (kelvin_sign ++ s) = String "k" (toLowerCase s).
Proof. reflexivity. Qed.

Lemma toLowerCase_capital_I_with_dot (s : string) :
  toLowerCase (capital_I_with_dot ++ s)
  = String "i" (combining_dot_above ++ toLowerCase s).
Proof. reflexivity. Qed.

Lemma special_start_inv (s : string) :
  special_start s = true ->
  exists r, s = capital_I_with_dot ++ r \/ s = kelvin_sign ++ r.
Proof.
  destruct s as [|c1 [|c2 s2]]; try discriminate. cbn [special_start].
  rewrite orb_true_iff. intros [H|H].
  - unfold is_capital_I_with_dot in H. apply andb_true_iff in H.
    destruct H as (A & B). apply Ascii.eqb_eq in A, B. subst. exists s2. left.
    reflexivity.
  - destruct s2 as [|c3 s3]; [discriminate H|].
    unfold is_kelvin_sign in H. rewrite !andb_true_iff in H.
    destruct H as ((A & B) & C). apply Ascii.eqb_eq in A, B, C. subst.
    exists s3. right. reflexivity.
Qed.

Lemma toLowerCase_other (c : ascii) (s : string) :
  special_start (String c s) = false ->
  toLowerCase (String c s) = String (lower_char c) (toLowerCase s).
Proof.
  intros H. destruct s as [|c2 s2]; [reflexivity|].
  cbn [special_start] in H. apply orb_false_iff in H. destruct H as (H1 & H2).
  cbn [toLowerCase]. rewrite H1.
  destruct s2 as [|c3 s3]; [reflexivity|]. rewrite H2. reflexivity.
Qed.

(** Induction along the way [toLowerCase] reads a text. *)
Lemma toLowerCase_ind (P : string -> Prop) :
  P "" ->
  (forall s, P s -> P (capital_I_with_dot ++ s)) ->
  (forall s, P s -> P (kelvin_sign ++ s)) ->
  (forall c s, special_start (String c s) = false -> P s -> P (String c s)) ->
  forall s, P s.
Proof.
  intros H0 HI HK HO s.
  assert (G : forall n s, (String.length s <= n)%nat -> P s).
  { clear s. induction n as [|n IH]; intros s L.
    - destruct s; [exact H0 | cbn in L; lia].
    - destruct s as [|c s]; [exact H0|].
      destruct (special_start (String c s)) eqn:E.
      + destruct (special_start_inv _ E) as (r & [R|R]); rewrite R in *.
        * apply HI, IH. cbn in L. lia.
        * apply HK, IH. cbn in L. lia.
      + apply HO; [exact E|]. apply IH. cbn in L. lia. }
  apply (G (String.length s)). lia.
Qed.

Lemma special_start_first (c : ascii) (s : string) :
  special_start (String c s) = true -> c = "196"%char \/ c = "226"%char.
Proof.
  intros H. destruct (special_start_inv _ H) as (r & [R|R]); injection R as -> _;
    [left|right]; reflexivity.
Qed.

Lemma special_start_ascii (c : ascii) (s : string) :
  is_ascii c = true -> special_start (String c s) = false.
Proof.
  intros H. destruct (special_start (String c s)) eqn:E; [|reflexivity].
  destruct (special_start_first _ _ E) as [-> | ->]; discriminate H.
Qed.

Lemma special_start_no (c : ascii) (s : string) :
  c <> "196"%char -> c <> "226"%char -> special_start (String c s) = false.
Proof.
  intros H1 H2. destruct (special_start (String c s)) eqn:E; [|reflexivity].
  destruct (special_start_first _ _ E); contradiction.
Qed.

(** A byte outside ASCII at the head of the result is the head of the
    text. *)
Lemma toLowerCase_head (s : string) (b : ascii) (r : string) :
  toLowerCase s = String b r -> is_ascii b = false ->
  exists s', s = String b s' /\ r = toLowerCase s'.
Proof.
  intros H Hb. destruct s as [|c s]; [discriminate H|].
  destruct (special_start (String c s)) eqn:E.
  - exfalso. destruct (special_start_inv _ E) as (r' & [R|R]); rewrite R in H.
    + rewrite toLowerCase_capital_I_with_dot in H. injection H as <- _.
      discriminate Hb.
    + rewrite toLowerCase_kelvin in H. injection H as <- _. discriminate Hb.
  - rewrite (toLowerCase_other _ _ E) in H. injection H as H1 H2.
    assert (A : is_ascii c = false) by (rewrite <- lower_char_ascii, H1; exact Hb).
    rewrite (lower_char_other c A) in H1. subst b. exists s. split; [reflexivity|].
    symmetry. exact H2.
Qed.

Lemma special_start_lower (c : ascii) (s : string) :
  special_start (String c s) = false ->
  special_start (String c (toLowerCase s)) = false.
Proof.
  intros H. destruct (special_start (String c (toLowerCase s))) eqn:E; [|reflexivity].
  exfalso. destruct (special_start_inv _ E) as (r & [R|R]); injection R as -> R.
  - destruct (toLowerCase_head s "176" r R eq_refl) as (s' & -> & _).
    discriminate H.
  - destruct (toLowerCase_head s "132" _ R eq_refl) as (s' & -> & R').
    symmetry in R'.
    destruct (toLowerCase_head s' "170" _ R' eq_refl) as (s'' & -> & _).
    discriminate H.
Qed.

(** ** [toLowerCase] twice *)

Lemma toLowerCase_idempotent (s : string) :
  toLowerCase (toLowerCase s) = toLowerCase s.
Proof.
  induction s as [|s IH|s IH|c s E IH] using toLowerCase_ind.
  - reflexivity.
  - rewrite toLowerCase_capital_I_with_dot.
    change (toLowerCase (String "i" (String "204" (String "135" (toLowerCase s))))
            = String "i" (String "204" (String "135" (toLowerCase s)))).
    rewrite (toLowerCase_other "i"); [|apply special_start_ascii; reflexivity].
    rewrite (toLowerCase_other "204") by (apply special_start_no; discriminate).
    rewrite (toLowerCase_other "135") by (apply special_start_no; discriminate).
    rewrite IH. reflexivity.
  - rewrite toLowerCase_kelvin.
    rewrite (toLowerCase_other "k"); [|apply special_start_ascii; reflexivity].
    rewrite IH. reflexivity.
  - rewrite (toLowerCase_other c s E).
    rewrite toLowerCase_other.
    + rewrite lower_lower_char, IH. reflexivity.
    + destruct (is_ascii c) eqn:A.
      * apply special_start_ascii. rewrite lower_char_ascii. exact A.
      * rewrite (lower_char_other c A). apply special_start_lower, E.
Qed.

(** ** The case of ASCII letters *)

Lemma lower_char_eqb (c b : ascii) :
  is_ascii b = false -> (lower_char c =? b)%char = (c =? b)%char.
Proof.
  intros Hb. destruct (is_ascii c) eqn:A.
  - assert (A' : is_ascii (lower_char c) = true) by (rewrite lower_char_ascii; exact A).
    destruct (Ascii.eqb_spec (lower_char c) b) as [E|_];
      [rewrite E in A'; congruence|].
    destruct (Ascii.eqb_spec c b) as [E|_]; [rewrite E in A; congruence|].
    reflexivity.
  - rewrite (lower_char_other c A). reflexivity.
Qed.

Lemma special_start_fold (s : string) :
  special_start (fold_ascii_case s) = special_start s.
Proof.
  destruct s as [|c1 [|c2 s2]]; try reflexivity.
  cbn [fold_ascii_case special_start].
  unfold is_capital_I_with_dot, is_kelvin_sign.
  rewrite !lower_char_eqb by reflexivity.
  destruct s2 as [|c3 s3]; [reflexivity|].
  cbn [fold_ascii_case]. rewrite !lower_char_eqb by reflexivity. reflexivity.
Qed.

Lemma toLowerCase_fold (s : string) :
  toLowerCase (fold_ascii_case s) = toLowerCase s.
Proof.
  induction s as [|s IH|s IH|c s E IH] using toLowerCase_ind.
  - reflexivity.
  - change (fold_ascii_case (capital_I_with_dot ++ s))
      with (capital_I_with_dot ++ fold_ascii_case s).
    rewrite !toLowerCase_capital_I_with_dot, IH. reflexivity.
  - change (fold_ascii_case (kelvin_sign ++ s))
      with (kelvin_sign ++ fold_ascii_case s).
    rewrite !toLowerCase_kelvin, IH. reflexivity.
  - rewrite (toLowerCase_other c s E).
    pose proof (special_start_fold (String c s)) as F. rewrite E in F.
    cbn [fold_ascii_case] in F |- *.
    rewrite (toLowerCase_other _ _ F), lower_lower_char, IH. reflexivity.
Qed.

(** ** Names in ASCII in a lower-cased text *)

Lemma includes_cons (x : ascii) (s sub : string) :
  includes s sub = true -> includes (String x s) sub = true.
Proof. intros H. cbn [includes]. rewrite H. apply orb_true_r. Qed.

Lemma includes_app_l (p s sub : string) :
  includes s sub = true -> includes (p ++ s) sub = true.
Proof.
  intros H. induction p as [|x p IH]; [exact H|]. cbn [append].
  apply includes_cons, IH.
Qed.

Lemma prefix_empty (s : string) : String.prefix "" s = true.
Proof. destruct s; reflexivity. Qed.

Lemma includes_empty (s : string) : includes s "" = true.
Proof. destruct s; reflexivity. Qed.

Lemma prefix_other (x : ascii) (s sub : string) :
  ascii_text sub = true -> is_ascii x = false ->
  String.prefix sub (String x s) = true -> sub = "".
Proof.
  intros Ha Hx H. destruct sub as [|a sub]; [reflexivity|]. exfalso.
  cbn [String.prefix] in H. destruct (Ascii.ascii_dec a x) as [->|_]; [|discriminate H].
  unfold ascii_text in Ha. cbn [list_ascii_of_string forallb] in Ha.
  rewrite Hx in Ha. discriminate Ha.
Qed.

(** A byte outside ASCII is no part of an occurrence of an ASCII name. *)
Lemma includes_other (x : ascii) (s sub : string) :
  ascii_text sub = true -> is_ascii x = false ->
  includes (String x s) sub = true -> includes s sub = true.
Proof.
  intros Ha Hx H. cbn [includes] in H. apply orb_true_iff in H.
  destruct H as [H|H]; [|exact H].
  rewrite (prefix_other x s sub Ha Hx H). apply includes_empty.
Qed.

Lemma includes_nil (sub : string) : includes "" sub = true -> sub = "".
Proof.
  cbn [includes]. rewrite orb_false_r. destruct sub; [reflexivity|discriminate].
Qed.

Lemma ascii_text_cons (a : ascii) (sub : string) :
  ascii_text (String a sub) = true -> is_ascii a = true /\ ascii_text sub = true.
Proof. unfold ascii_text. cbn [list_ascii_of_string forallb]. apply andb_true_iff. Qed.

(** Text after a text: an ASCII name at the head of the lower-cased text
    stays there. *)
Lemma prefix_toLowerCase_app (d post sub : string) :
  ascii_text sub = true ->
  String.prefix sub (toLowerCase d) = true ->
  String.prefix sub (toLowerCase (d ++ post)) = true.
Proof.
  revert sub. induction d as [|d IH|d IH|c d E IH] using toLowerCase_ind;
    intros sub Ha H.
  - destruct sub; [apply prefix_empty|discriminate H].
  - destruct sub as [|a sub]; [apply prefix_empty|].
    change ((capital_I_with_dot ++ d) ++ post) with (capital_I_with_dot ++ (d ++ post)).
    rewrite toLowerCase_capital_I_with_dot in H |- *.
    cbn [String.prefix] in H |- *.
    destruct (Ascii.ascii_dec a "i") as [->|_]; [|discriminate H].
    apply ascii_text_cons in Ha. destruct Ha as (_ & Ha).
    rewrite (prefix_other "204" _ sub Ha eq_refl H). apply prefix_empty.
  - destruct sub as [|a sub]; [apply prefix_empty|].
    change ((kelvin_sign ++ d) ++ post) with (kelvin_sign ++ (d ++ post)).
    rewrite toLowerCase_kelvin in H |- *.
    cbn [String.prefix] in H |- *.
    destruct (Ascii.ascii_dec a "k") as [->|_]; [|discriminate H].
    apply ascii_text_cons in Ha. apply IH; [apply Ha | exact H].
  - destruct sub as [|a sub]; [apply prefix_empty|].
    rewrite (toLowerCase_other c d E) in H.
    cbn [String.prefix] in H.
    destruct (Ascii.ascii_dec a (lower_char c)) as [->|_]; [|discriminate H].
    apply ascii_text_cons in Ha. destruct Ha as (Hc & Ha).
    rewrite lower_char_ascii in Hc.
    cbn [append]. rewrite toLowerCase_other by (apply special_start_ascii, Hc).
    cbn [String.prefix].
    destruct (Ascii.ascii_dec (lower_char c) (lower_char c)) as [_|N];
      [|exfalso; apply N; reflexivity].
    apply IH; assumption.
Qed.

(** What [toLowerCase] makes of a text that only starts with one of the two
    characters when more text follows. *)
Lemma special_start_straddle (c : ascii) (d post : string) :
  special_start (String c d) = false ->
  special_start (String c (d ++ post)) = true ->
  forall sub, ascii_text sub = true ->
              includes (toLowerCase (String c d)) sub = true -> sub = "".
Proof.
  intros E E' sub Ha H.
  assert (Hc : is_ascii c = false).
  { destruct (special_start_first _ _ E') as [-> | ->]; reflexivity. }
  rewrite (toLowerCase_other c d E), (lower_char_other c Hc) in H.
  apply (includes_other c _ sub Ha Hc) in H.
  destruct (special_start_inv _ E') as (r & [R|R]); injection R as -> R.
  - destruct d as [|c2 d].
    + apply includes_nil, H.
    + cbn [append] in R. injection R as -> _. discriminate E.
  - destruct d as [|c2 d].
    + apply includes_nil, H.
    + cbn [append] in R. injection R as -> R.
      destruct d as [|c3 d].
      * change (includes (String "132" "") sub = true) in H.
        apply (includes_other "132" "" sub Ha eq_refl) in H.
        apply includes_nil, H.
      * cbn [append] in R. injection R as -> _. discriminate E.
Qed.

Lemma includes_toLowerCase_app (d post sub : string) :
  ascii_text sub = true ->
  includes (toLowerCase d) sub = true ->
  includes (toLowerCase (d ++ post)) sub = true.
Proof.
  intros Ha. induction d as [|d IH|d IH|c d E IH] using toLowerCase_ind; intros H.
  - rewrite (includes_nil sub H). apply includes_empty.
  - change ((capital_I_with_dot ++ d) ++ post) with (capital_I_with_dot ++ (d ++ post)).
    rewrite toLowerCase_capital_I_with_dot in H |- *.
    cbn [includes] in H. apply orb_true_iff in H. destruct H as [H|H].
    + cbn [includes]. apply orb_true_iff. left.
      apply (prefix_toLowerCase_app (capital_I_with_dot ++ d) post sub Ha).
      rewrite toLowerCase_capital_I_with_dot. exact H.
    + apply includes_cons.
      change (includes (String "204" (String "135" (toLowerCase d))) sub = true) in H.
      apply (includes_other "204" _ sub Ha eq_refl) in H.
      apply (includes_other "135" _ sub Ha eq_refl) in H.
      apply (includes_app_l combining_dot_above), IH, H.
  - change ((kelvin_sign ++ d) ++ post) with (kelvin_sign ++ (d ++ post)).
    rewrite toLowerCase_kelvin in H |- *.
    cbn [includes] in H. apply orb_true_iff in H. destruct H as [H|H].
    + cbn [includes]. apply orb_true_iff. left.
      apply (prefix_toLowerCase_app (kelvin_sign ++ d) post sub Ha).
      rewrite toLowerCase_kelvin. exact H.
    + apply includes_cons, IH, H.
  - destruct (special_start (String c (d ++ post))) eqn:E'.
    + rewrite (special_start_straddle c d post E E' sub Ha H). apply includes_empty.
    + pose proof H as H'. rewrite (toLowerCase_other c d E) in H.
      cbn [append]. rewrite (toLowerCase_other _ _ E').
      cbn [includes] in H. apply orb_true_iff in H. destruct H as [H|H].
      * cbn [includes]. apply orb_true_iff. left.
        pose proof (prefix_toLowerCase_app (String c d) post sub Ha) as P.
        cbn [append] in P. rewrite (toLowerCase_other c d E) in P.
        rewrite (toLowerCase_other _ _ E') in P. apply P, H.
      * apply includes_cons, IH, H.
Qed.

(** Text before a text. *)
Lemma includes_app_toLowerCase (pre d sub : string) :
  ascii_text sub = true ->
  includes (toLowerCase d) sub = true ->
  includes (toLowerCase (pre ++ d)) sub = true.
Proof.
  intros Ha H. induction pre as [|p IH|p IH|c p E IH] using toLowerCase_ind.
  - exact H.
  - change ((capital_I_with_dot ++ p) ++ d) with (capital_I_with_dot ++ (p ++ d)).
    rewrite toLowerCase_capital_I_with_dot.
    apply includes_cons, (includes_app_l combining_dot_above), IH.
  - change ((kelvin_sign ++ p) ++ d) with (kelvin_sign ++ (p ++ d)).
    rewrite toLowerCase_kelvin. apply includes_cons, IH.
  - cbn [append]. destruct (special_start (String c (p ++ d))) eqn:E'.
    + (* the character is completed by the head of d *)
      destruct (special_start_inv _ E') as (r & [R|R]); rewrite R;
        injection R as -> R.
      * rewrite toLowerCase_capital_I_with_dot.
        apply includes_cons, (includes_app_l combining_dot_above).
        destruct p as [|c2 p].
        -- cbn [append] in R. subst d.
           rewrite (toLowerCase_other "176" r) in H by (apply special_start_no; discriminate).
           apply (includes_other "176" _ sub Ha eq_refl H).
        -- cbn [append] in R. injection R as -> _. discriminate E.
      * rewrite toLowerCase_kelvin. apply includes_cons.
        destruct p as [|c2 p].
        -- cbn [append] in R. subst d.
           rewrite (toLowerCase_other "132") in H by (apply special_start_no; discriminate).
           apply (includes_other "132" _ sub Ha eq_refl) in H.
           rewrite (toLowerCase_other "170") in H by (apply special_start_no; discriminate).
           apply (includes_other "170" _ sub Ha eq_refl H).
        -- cbn [append] in R. injection R as -> R. destruct p as [|c3 p].
           ++ cbn [append] in R. subst d.
              rewrite (toLowerCase_other "170") in H by (apply special_start_no; discriminate).
              apply (includes_other "170" _ sub Ha eq_refl H).
           ++ cbn [append] in R. injection R as -> _. discriminate E.
    + rewrite (toLowerCase_other _ _ E'). apply includes_cons, IH.
Qed.

Lemma append_assoc (s t u : string) : (s ++ t) ++ u = s ++ (t ++ u).
Proof.
  induction s as [|c s IH]; [reflexivity|].
  cbn [append]. rewrite IH. reflexivity.
Qed.

(** An ASCII name found in the lower-cased text is found with any text
    before and after. *)
Lemma includes_toLowerCase_extend (pre d post sub : string) :
  ascii_text sub = true ->
  includes (toLowerCase d) sub = true ->
  includes (toLowerCase (pre ++ d ++ post)) sub = true.
Proof.
  intros Ha H. apply includes_app_toLowerCase; [exact Ha|].
  apply includes_toLowerCase_app; assumption.
Qed.

(** ** Leading white space *)

Lemma trimStart_white_space (w s : string) :
  In w white_space -> trimStart (w ++ s) = trimStart s.
Proof.
  intros H. cbv [white_space map app string_of_list_ascii] in H. cbn [In] in H.
  repeat (destruct H as [<-|H]; [reflexivity|]). destruct H.
Qed.

Lemma trimStart_ascii (c : ascii) (t : string) :
  is_ascii c = true -> is_white_space1 c = false ->
  trimStart (String c t) = String c t.
Proof.
  intros Ha Hw. cbn [trimStart]. rewrite Hw.
  destruct t as [|c2 t]; [reflexivity|].
  assert (W2 : is_white_space2 c c2 = false).
  { unfold is_white_space2. destruct (Ascii.eqb_spec c "194") as [->|_];
      [discriminate Ha|reflexivity]. }
  rewrite W2. destruct t as [|c3 t]; [reflexivity|].
  assert (W3 : is_white_space3 c c2 c3 = false).
  { unfold is_white_space3.
    destruct (Ascii.eqb_spec c "225") as [->|_]; [discriminate Ha|].
    destruct (Ascii.eqb_spec c "226") as [->|_]; [discriminate Ha|].
    destruct (Ascii.eqb_spec c "227") as [->|_]; [discriminate Ha|].
    destruct (Ascii.eqb_spec c "239") as [->|_]; [discriminate Ha|].
    reflexivity. }
  rewrite W3. reflexivity.
Qed.

Lemma is_white_space1_spec (c : ascii) :
  is_white_space1 c = true -> In (String c "") white_space.
Proof.
  destruct c as [[] [] [] [] [] [] [] []]; intros H; try discriminate H;
    cbv [white_space map app string_of_list_ascii ascii_of_nat]; cbn; tauto.
Qed.

Lemma is_white_space2_spec (c1 c2 : ascii) :
  is_white_space2 c1 c2 = true -> In (String c1 (String c2 "")) white_space.
Proof.
  unfold is_white_space2. rewrite andb_true_iff. intros (A & B).
  apply Ascii.eqb_eq in A, B. subst.
  cbv [white_space map app string_of_list_ascii ascii_of_nat]; cbn; tauto.
Qed.

Lemma is_white_space3_spec (c1 c2 c3 : ascii) :
  is_white_space3 c1 c2 c3 = true ->
  In (String c1 (String c2 (String c3 ""))) white_space.
Proof.
  unfold is_white_space3. rewrite !orb_true_iff, !andb_true_iff.
  intros [[[[((A & B) & C)|((A & B) & C)]|((A & B) & C)]|((A & B) & C)]|((A & B) & C)];
    apply Ascii.eqb_eq in A, B; try apply Ascii.eqb_eq in C; subst;
    try (cbv [white_space map app string_of_list_ascii ascii_of_nat]; cbn; tauto).
  destruct c3 as [[] [] [] [] [] [] [] []]; try discriminate C;
    cbv [white_space map app string_of_list_ascii ascii_of_nat]; cbn; tauto.
Qed.

Lemma prefix_refl_app (w s : string) : String.prefix w (w ++ s) = true.
Proof. apply prefix_spec. exists s. reflexivity. Qed.

(** A text that starts with no white space character is left as it is. *)
Lemma trimStart_other (s : string) :
  (forall w, In w white_space -> String.prefix w s = false) -> trimStart s = s.
Proof.
  intros H. destruct s as [|c1 s1]; [reflexivity|]. cbn [trimStart].
  destruct (is_white_space1 c1) eqn:W1.
  { pose proof (H _ (is_white_space1_spec c1 W1)) as X.
    pose proof (prefix_refl_app (String c1 "") s1) as Y. cbn [append] in Y. congruence. }
  destruct s1 as [|c2 s2]; [reflexivity|].
  destruct (is_white_space2 c1 c2) eqn:W2.
  { pose proof (H _ (is_white_space2_spec c1 c2 W2)) as X.
    pose proof (prefix_refl_app (String c1 (String c2 "")) s2) as Y. cbn [append] in Y. congruence. }
  destruct s2 as [|c3 s3]; [reflexivity|].
  destruct (is_white_space3 c1 c2 c3) eqn:W3; [|reflexivity].
  pose proof (H _ (is_white_space3_spec c1 c2 c3 W3)) as X.
  pose proof (prefix_refl_app (String c1 (String c2 (String c3 ""))) s3) as Y. cbn [append] in Y. congruence.
Qed.

End JSStringFacts.

(* ================================================================== *)
(** * Facts about the estimator of BudgetAnalystAgent.tsx               *)
(* ================================================================== *)

Module BudgetAnalystAgentFacts.
Import JSNumber JSNumberFacts JSString JSStringFacts BudgetAnalystAgent Examples.
Local Open Scope Q_scope.

(** The destination multiplier is one of five constants. *)
Lemma getDestinationMultiplier_cases (destination : string) :
  let M := getDestinationMultiplier destination in
  M = lit 1.5 \/ M = lit 1.3 \/ M = lit 0.9 \/ M = lit 0.6 \/ M = lit 1.0.
Proof.
  unfold getDestinationMultiplier.
  repeat match goal with |- context [if ?b then _ else _] => destruct b end; tauto.
Qed.

(** The duration factor of the flight formula grows with the day count. *)
Lemma duration_factor_between (D D' : number) :
  fle D D' = true ->
  between (lit 1.0)
    (if (D >? of_Z 7)%num then lit 1.2 else lit 1.0)
    (if (D' >? of_Z 7)%num then lit 1.2 else lit 1.0).
Proof.
  intros H. rewrite !fgt_flt.
  destruct (flt (of_Z 7) D) eqn:E.
  - rewrite (flt_fle_trans _ _ _ E H).
    apply between_intro; vm_compute; reflexivity.
  - destruct (flt (of_Z 7) D'); apply between_intro; vm_compute; reflexivity.
Qed.

Ltac solve_between :=
  lazymatch goal with
  | |- between _ (fmul _ _) (fmul _ _) =>
      eapply between_mul; [solve_between | solve_between | vm_compute; reflexivity]
  | |- between _ (Math_sqrt _) (Math_sqrt _) =>
      eapply between_sqrt; [solve_between | vm_compute; reflexivity]
  | |- between _ (if _ then _ else _) _ =>
      apply duration_factor_between; assumption
  | |- between _ _ _ =>
      first [ eassumption
            | apply between_refl, flt_zero_positive; vm_compute; reflexivity ]
  end.

(** Every category amount grows with the day count and the traveller count. *)
Lemma breakdownOf_mono (D D' T T' M : number) :
  between (of_Z 1) D D' -> between (of_Z 1) T T' ->
  M = lit 1.5 \/ M = lit 1.3 \/ M = lit 0.9 \/ M = lit 0.6 \/ M = lit 1.0 ->
  Forall2 (fun c c' => amount_le (amount c) (amount c'))
    (Object_values (breakdownOf D T M)) (Object_values (breakdownOf D' T' M)).
Proof.
  intros HD HT HM.
  assert (HDD : fle D D' = true) by apply HD.
  unfold Object_values, breakdownOf; cbn [flights accommodation food activities
    transportation miscellaneous amount].
  destruct HM as [->|[->|[->|[->| ->]]]];
    repeat (apply Forall2_cons; [eapply between_round; solve_between|]);
    apply Forall2_nil.
Qed.

Lemma sum_amounts_mono (l l' : list Category) (s s' : number) :
  Forall2 (fun c c' => amount_le (amount c) (amount c')) l l' ->
  amount_le s s' ->
  amount_le (fold_left (fun sum category => (sum + amount category)%num) l s)
            (fold_left (fun sum category => (sum + amount category)%num) l' s').
Proof.
  intros H. revert s s'. induction H as [|c c' l l' Hc _ IH]; intros s s' Hs.
  - exact Hs.
  - cbn [fold_left]. apply IH. apply amount_le_add; assumption.
Qed.

(** Each field of the record, in terms of the breakdown. *)
Lemma analysisOf_finish (D T B : number) (data : TripData)
    (it : option ItineraryPlan) :
  analysisOf D T B data it
  = finishAnalysis D B (getDestinationMultiplier (destination data))
      (breakdownOf D T (getDestinationMultiplier (destination data))) data.
Proof. reflexivity. Qed.

Lemma totalEstimated_finish (D B M : number) (b : BudgetBreakdown)
    (data : TripData) :
  totalEstimated (finishAnalysis D B M b data)
  = fold_left (fun sum category => (sum + amount category)%num)
      (Object_values b) (of_Z 0).
Proof. reflexivity. Qed.

Lemma breakdown_finish (D B M : number) (b : BudgetBreakdown) (data : TripData) :
  breakdown (finishAnalysis D B M b data) = b.
Proof. reflexivity. Qed.

Lemma variance_finish (D B M : number) (b : BudgetBreakdown) (data : TripData) :
  variance (finishAnalysis D B M b data)
  = (totalEstimated (finishAnalysis D B M b data) - B)%num.
Proof. reflexivity. Qed.

Lemma variancePercentage_finish (D B M : number) (b : BudgetBreakdown)
    (data : TripData) :
  variancePercentage (finishAnalysis D B M b data)
  = (variance (finishAnalysis D B M b data) / B * of_Z 100)%num.
Proof. reflexivity. Qed.

Lemma budgetStatus_finish (D B M : number) (b : BudgetBreakdown)
    (data : TripData) :
  budgetStatus (finishAnalysis D B M b data)
  = if (variance (finishAnalysis D B M b data) <? - B * lit 0.05)%num then under
    else if (variance (finishAnalysis D B M b data) >? B * lit 0.05)%num then over
    else on_track.
Proof. reflexivity. Qed.

Lemma originalBudget_finish (D B M : number) (b : BudgetBreakdown)
    (data : TripData) :
  originalBudget (finishAnalysis D B M b data) = B.
Proof. reflexivity. Qed.

Lemma recommendations_finish (D B M : number) (b : BudgetBreakdown)
    (data : TripData) :
  recommendations (finishAnalysis D B M b data)
  = generateRecommendations (budgetStatus (finishAnalysis D B M b data))
      (variance (finishAnalysis D B M b data)) data.
Proof. reflexivity. Qed.

Lemma costSavingTips_finish (D B M : number) (b : BudgetBreakdown)
    (data : TripData) :
  costSavingTips (finishAnalysis D B M b data) = generateCostSavingTips b data.
Proof. reflexivity. Qed.

Lemma riskFactors_finish (D B M : number) (b : BudgetBreakdown)
    (data : TripData) :
  riskFactors (finishAnalysis D B M b data) = generateRiskFactors data D M.
Proof. reflexivity. Qed.

Lemma totalEstimated_analysisOf (D T B : number) (data : TripData)
    (it : option ItineraryPlan) :
  totalEstimated (analysisOf D T B data it)
  = fold_left (fun sum category => (sum + amount category)%num)
      (Object_values (breakdownOf D T (getDestinationMultiplier (destination data))))
      (of_Z 0).
Proof. rewrite analysisOf_finish. apply totalEstimated_finish. Qed.

Lemma breakdown_analysisOf (D T B : number) (data : TripData)
    (it : option ItineraryPlan) :
  breakdown (analysisOf D T B data it)
  = breakdownOf D T (getDestinationMultiplier (destination data)).
Proof. rewrite analysisOf_finish. apply breakdown_finish. Qed.

Lemma totalEstimated_mono (D D' T T' B B' : number) (data : TripData)
    (it it' : option ItineraryPlan) :
  between (of_Z 1) D D' -> between (of_Z 1) T T' ->
  amount_le (totalEstimated (analysisOf D T B data it))
            (totalEstimated (analysisOf D' T' B' data it')).
Proof.
  intros HD HT. rewrite !totalEstimated_analysisOf.
  apply sum_amounts_mono; [|apply amount_le_zero].
  apply breakdownOf_mono; try assumption.
  apply getDestinationMultiplier_cases.
Qed.

(** C7.  From one day and one traveller on, [totalEstimated] never
    decreases when the traveller count alone is replaced by a greater one,
    nor when the day count alone is replaced by a greater one; the
    destination and the budget stay as they are. *)
Theorem totalEstimated_monotone (D T B : number) (data : TripData)
    (it : option ItineraryPlan) :
  fle (of_Z 1) D = true -> fle (of_Z 1) T = true ->
  (forall T', fgt T' T = true ->
     fle (totalEstimated (analysisOf D T B data it))
         (totalEstimated (analysisOf D T' B data it)) = true)
  /\
  (forall D', fgt D' D = true ->
     fle (totalEstimated (analysisOf D T B data it))
         (totalEstimated (analysisOf D' T B data it)) = true).
Proof.
  intros HD HT.
  assert (P1 : flt zero (of_Z 1) = true) by (vm_compute; reflexivity).
  pose proof (fle_refl D (fle_not_nan_r _ _ HD)) as RD.
  pose proof (fle_refl T (fle_not_nan_r _ _ HT)) as RT.
  split.
  - intros T' H. rewrite fgt_flt in H. apply flt_fle in H.
    apply (totalEstimated_mono D D T T' B B data it it); apply between_intro; assumption.
  - intros D' H. rewrite fgt_flt in H. apply flt_fle in H.
    apply (totalEstimated_mono D D' T T B B data it it); apply between_intro; assumption.
Qed.

Lemma fold_sum_ge (l : list Category) (s : number) :
  Forall (fun c => rounded_amount (amount c)) l ->
  nonneg s -> well_formed s = true ->
  fle s (fold_left (fun sum category => (sum + amount category)%num) l s) = true.
Proof.
  intros H. revert s. induction H as [|c l (Nc & Wc & _) _ IH]; intros s Ns Ws.
  - apply fle_refl. destruct Ns; reflexivity.
  - cbn [fold_left].
    apply (fle_trans _ (s + amount c)%num); [apply fle_fadd_l; assumption|].
    apply IH; [apply fadd_nonneg | apply fadd_well_formed]; assumption.
Qed.

Lemma fold_sum_exact (l : list Category) (s : number) :
  Forall (fun c => rounded_amount (amount c)) l ->
  nonneg s -> well_formed s = true -> is_nonneg_integer s = true ->
  flt (fold_left (fun sum category => (sum + amount category)%num) l s) two53 = true ->
  Forall (fun c => is_nonneg_integer (amount c) = true) l
  /\ is_nonneg_integer
       (fold_left (fun sum category => (sum + amount category)%num) l s) = true
  /\ F2Q (fold_left (fun sum category => (sum + amount category)%num) l s)
     == F2Q s + sum_values l.
Proof.
  intros H. revert s.
  induction H as [|c l Hc Hl IH]; intros s Ns Ws Is Hlt.
  - cbn [fold_left]. change (sum_values []) with 0.
    repeat split; [constructor | exact Is | ring].
  - cbn [fold_left] in *.
    change (sum_values (c :: l)) with (F2Q (amount c) + sum_values l).
    pose proof Hc as (Nc & Wc & Ic).
    assert (Nt : nonneg (s + amount c)%num) by (apply fadd_nonneg; assumption).
    assert (Wt : well_formed (s + amount c)%num = true) by (apply fadd_well_formed; assumption).
    assert (Ht : flt (s + amount c)%num two53 = true).
    { eapply fle_flt_trans; [|exact Hlt]. apply fold_sum_ge; assumption. }
    assert (Hcl : flt (amount c) two53 = true).
    { eapply fle_flt_trans; [|exact Ht]. apply fle_fadd_r; assumption. }
    assert (Fc : is_finite (amount c) = true).
    { apply (flt_finite _ two53); [exact Nc | exact Hcl | vm_compute; reflexivity]. }
    specialize (Ic Fc).
    destruct (is_nonneg_integer_inv _ Is) as (Fs & a & Ha & Ea).
    destruct (is_nonneg_integer_inv _ Ic) as (_ & b & Hb & Eb).
    assert (Hab : (a + b < 2 ^ 53)%Z).
    { destruct (Z_lt_ge_dec (a + b) (2 ^ 53)) as [L|G]; [exact L|]. exfalso.
      assert (G' : (2 ^ 53 <= a + b)%Z) by lia.
      pose proof (fadd_overflows_53 s (amount c) a b Ns Nc Fs Fc Ws Wc Ea Eb G') as C.
      rewrite (flt_not_fle _ _ Ht) in C. discriminate. }
    destruct (fadd_exact s (amount c) a b Ns Nc Fs Fc Ea Eb Hab) as (Ft & Et).
    assert (It : is_nonneg_integer (s + amount c)%num = true).
    { apply (is_nonneg_integer_intro _ (a + b)); [exact Ft | lia | exact Et]. }
    destruct (IH _ Nt Wt It Hlt) as (A1 & A2 & A3).
    repeat split.
    + constructor; assumption.
    + exact A2.
    + rewrite inject_Z_plus in Et. rewrite A3. lra.
Qed.

Lemma breakdownOf_rounded (D T M : number) :
  between (of_Z 1) D D -> between (of_Z 1) T T ->
  M = lit 1.5 \/ M = lit 1.3 \/ M = lit 0.9 \/ M = lit 0.6 \/ M = lit 1.0 ->
  Forall (fun c => rounded_amount (amount c)) (Object_values (breakdownOf D T M)).
Proof.
  intros HD HT HM.
  assert (HDD : fle D D = true) by apply HD.
  unfold Object_values, breakdownOf; cbn [flights accommodation food activities
    transportation miscellaneous amount].
  destruct HM as [->|[->|[->|[->| ->]]]];
    repeat (apply Forall_cons;
            [apply rounded_amount_round; eapply between_nonneg; solve_between|]);
    apply Forall_nil.
Qed.

Lemma corner_below_two53 (M : number) :
  M = lit 1.5 \/ M = lit 1.3 \/ M = lit 0.9 \/ M = lit 0.6 \/ M = lit 1.0 ->
  flt (fold_left (fun sum category => (sum + amount category)%num)
         (Object_values (breakdownOf maxDays maxTravelers M)) (of_Z 0))
      two53 = true.
Proof.
  intros [->|[->|[->|[->| ->]]]]; vm_compute; reflexivity.
Qed.

Lemma of_Z_0 : of_Z 0 = zero.
Proof. reflexivity. Qed.

Lemma of_Z_two53 : of_Z (2 ^ 53) = two53.
Proof. vm_compute. reflexivity. Qed.

Lemma of_Z_maxDays : of_Z 200000000 = maxDays.
Proof. reflexivity. Qed.

Lemma of_Z_maxTravelers : of_Z 100000 = maxTravelers.
Proof. reflexivity. Qed.

(** C3.  From one day and one traveller on, each of the six amounts is not
    negative and, when it is finite, a whole number; [totalEstimated] is
    the sum of the six rounded amounts, added from left to right as Numbers
    and not rounded again.  As long as that total stays below [2^53], which
    it does for up to 200,000,000 days and 100,000 travellers, all six
    amounts are finite whole numbers and the total is their exact sum. *)
Theorem amounts_whole_and_summed (D T B : number) (data : TripData)
    (it : option ItineraryPlan) :
  fle (of_Z 1) D = true -> fle (of_Z 1) T = true ->
  let a := analysisOf D T B data it in
  let b := breakdown a in
  Forall (fun c => fle zero (amount c) = true
                   /\ (is_finite (amount c) = true ->
                       is_nonneg_integer (amount c) = true))
    (Object_values b)
  /\ totalEstimated a
     = (of_Z 0 + amount (flights b) + amount (accommodation b) + amount (food b)
        + amount (activities b) + amount (transportation b)
        + amount (miscellaneous b))%num
  /\ (fle D (of_Z 200000000) = true -> fle T (of_Z 100000) = true ->
      flt (totalEstimated a) (of_Z (2 ^ 53)) = true)
  /\ (flt (totalEstimated a) (of_Z (2 ^ 53)) = true ->
      Forall (fun c => is_nonneg_integer (amount c) = true) (Object_values b)
      /\ is_nonneg_integer (totalEstimated a) = true
      /\ F2Q (totalEstimated a)
         == F2Q (amount (flights b)) + F2Q (amount (accommodation b))
            + F2Q (amount (food b)) + F2Q (amount (activities b))
            + F2Q (amount (transportation b)) + F2Q (amount (miscellaneous b))).
Proof.
  intros HD HT a b. subst b a.
  rewrite of_Z_two53, of_Z_maxDays, of_Z_maxTravelers.
  assert (P1 : flt zero (of_Z 1) = true) by (vm_compute; reflexivity).
  pose proof (fle_refl D (fle_not_nan_r _ _ HD)) as RD.
  pose proof (fle_refl T (fle_not_nan_r _ _ HT)) as RT.
  pose proof (getDestinationMultiplier_cases (destination data)) as HM.
  cbv zeta in HM.
  pose proof (breakdownOf_rounded D T _
                (between_intro _ _ _ P1 HD RD) (between_intro _ _ _ P1 HT RT) HM) as HR.
  split; [|split; [|split]].
  - rewrite breakdown_analysisOf.
    eapply Forall_impl; [|exact HR]. cbv beta. intros c (N & _ & I).
    split; [apply nonneg_fle_zero, N | exact I].
  - rewrite breakdown_analysisOf, totalEstimated_analysisOf. reflexivity.
  - intros HD' HT'.
    pose proof (totalEstimated_mono D maxDays T maxTravelers B B data it it
                  (between_intro _ _ _ P1 HD HD') (between_intro _ _ _ P1 HT HT'))
      as (_ & _ & _ & L).
    eapply fle_flt_trans; [exact L|].
    rewrite totalEstimated_analysisOf.
    apply corner_below_two53, HM.
  - rewrite breakdown_analysisOf, totalEstimated_analysisOf, of_Z_0.
    intros Hlt.
    destruct (fold_sum_exact _ zero HR (nonneg_zero false) eq_refl eq_refl Hlt)
      as (A1 & A2 & A3).
    split; [exact A1|]. split; [exact A2|].
    rewrite A3. unfold sum_values, Object_values. cbn [fold_right].
    change (F2Q zero) with 0. ring.
Qed.

(** C2.  With a positive budget [B] and [V = totalEstimated - B], the status
    is [under] exactly when [V < -0.05 * B], [over] exactly when
    [V > 0.05 * B] and [on_track] otherwise, which includes the two
    boundaries [V = -0.05 * B] and [V = 0.05 * B]. *)
Theorem budgetStatus_band (D T B : number) (data : TripData)
    (it : option ItineraryPlan) :
  flt zero B = true ->
  let a := analysisOf D T B data it in
  let V := variance a in
  V = (totalEstimated a - B)%num
  /\ (budgetStatus a = under <-> flt V (- lit 0.05 * B)%num = true)
  /\ (budgetStatus a = over <-> fgt V (lit 0.05 * B)%num = true)
  /\ (budgetStatus a = on_track <->
        flt V (- lit 0.05 * B)%num = false /\ fgt V (lit 0.05 * B)%num = false)
  /\ (feq V (lit 0.05 * B)%num = true -> budgetStatus a = on_track)
  /\ (feq V (- lit 0.05 * B)%num = true -> budgetStatus a = on_track).
Proof.
  intros HB a V. subst V a.
  rewrite analysisOf_finish.
  split; [apply variance_finish|].
  rewrite budgetStatus_finish.
  generalize (variance (finishAnalysis D B (getDestinationMultiplier (destination data))
                (breakdownOf D T (getDestinationMultiplier (destination data))) data)).
  intros V.
  rewrite (fmul_opp_l (lit 0.05) B), (fmul_comm (lit 0.05) B), (fmul_opp_l B (lit 0.05)).
  assert (N : nonneg (B * lit 0.05)%num).
  { apply fmul_positive_nonneg; apply flt_zero_positive; [exact HB|].
    vm_compute. reflexivity. }
  revert N. generalize (B * lit 0.05)%num. intros t N.
  rewrite !fgt_flt.
  pose proof (band_exclusive V t N) as X.
  pose proof (flt_opp_nonneg t N) as O.
  destruct (flt V (- t)%num) eqn:E1.
  - rewrite (X eq_refl). repeat split; try discriminate; try reflexivity.
    + intros [C _]; discriminate.
    + intros C. rewrite (feq_flt_compat_l _ _ _ C) in E1. congruence.
    + intros C. apply feq_not_flt in C. destruct C as [C _]. congruence.
  - destruct (flt t V) eqn:E2;
      repeat split; try discriminate; try reflexivity; try tauto.
    + intros [_ C]; discriminate.
    + intros C. apply feq_not_flt in C. destruct C; congruence.
    + intros C. rewrite (feq_flt_compat_r _ _ _ C) in E2. congruence.
Qed.

(** The total is a Number of the format. *)
Lemma totalEstimated_well_formed (D T B : number) (data : TripData)
    (it : option ItineraryPlan) :
  well_formed (totalEstimated (analysisOf D T B data it)) = true.
Proof.
  rewrite totalEstimated_analysisOf.
  unfold Object_values, breakdownOf; cbn [flights accommodation food activities
    transportation miscellaneous amount fold_left].
  repeat apply fadd_well_formed; try apply Math_round_well_formed.
  apply of_Z_well_formed.
Qed.

(** C6.  No run divides by zero: the budget [generateBudgetAnalysis]
    divides by is never a zero and never NaN, and [variancePercentage] is
    [(totalEstimated - originalBudget) / originalBudget * 100] for it.  A
    budget text that parses to zero is replaced by 2000, the percentage is
    taken of 2000, and it is finite whenever the total is.  The division
    itself has no guard: in the body that follows the reading of the
    inputs, a budget of zero of either sign would give NaN or an
    infinity. *)
Theorem variancePercentage_zero_budget (Date_getTime : string -> number)
    (data : TripData) (it : option ItineraryPlan) :
  let a := generateBudgetAnalysis Date_getTime data it in
  (* no run divides by zero *)
  feq (originalBudget a) zero = false
  /\ is_nan (originalBudget a) = false
  /\ variancePercentage a
     = ((totalEstimated a - originalBudget a) / originalBudget a * of_Z 100)%num
  (* a budget of zero is replaced by 2000, and the percentage is finite *)
  /\ (feq (parseInt (budget data)) zero = true ->
      originalBudget a = of_Z 2000
      /\ variancePercentage a
         = ((totalEstimated a - of_Z 2000) / of_Z 2000 * of_Z 100)%num
      /\ (is_finite (totalEstimated a) = true ->
          is_finite (variancePercentage a) = true
          /\ is_degenerate (variancePercentage a) = false))
  (* the division itself has no guard *)
  /\ (forall D T s,
        is_degenerate (variancePercentage (analysisOf D T (S754_zero s) data it))
        = true).
Proof.
  intros a. subst a. unfold generateBudgetAnalysis.
  assert (Tr : truthy (originalBudgetOf data) = true)
    by (apply or_else_truthy; reflexivity).
  destruct (truthy_not_zero _ Tr) as (N & Z).
  pose proof (totalEstimated_well_formed (totalDaysOf Date_getTime data)
                (travelersOf data) (originalBudgetOf data) data it) as W.
  revert W.
  rewrite !analysisOf_finish, !originalBudget_finish. intros W.
  split; [exact Z|]. split; [exact N|]. split.
  { rewrite variancePercentage_finish, variance_finish. reflexivity. }
  split.
  - intros H.
    assert (E : originalBudgetOf data = of_Z 2000).
    { unfold originalBudgetOf, or_else.
      destruct (parseInt (budget data)) as [s|s| |s m e]; try discriminate H;
        try (destruct s; discriminate H); [reflexivity|].
      exfalso. apply feq_iff in H. destruct H as (_ & _ & _ & [H|H]).
      + apply H. reflexivity.
      + cbn [F2Q zero] in H. pose proof (Fabs_pos m e). destruct s; lra. }
    split; [exact E|].
    rewrite variancePercentage_finish, variance_finish, E.
    split; [reflexivity|].
    revert W. rewrite E.
    generalize (totalEstimated (finishAnalysis (totalDaysOf Date_getTime data) (of_Z 2000)
                  (getDestinationMultiplier (destination data))
                  (breakdownOf (totalDaysOf Date_getTime data) (travelersOf data)
                     (getDestinationMultiplier (destination data))) data)).
    intros t W F.
    pose proof (percentage_of_2000_finite t F W) as P.
    revert P. generalize ((t - of_Z 2000) / of_Z 2000 * of_Z 100)%num.
    intros p P. split; [exact P|]. destruct p; try discriminate P; reflexivity.
  - intros D T s. rewrite analysisOf_finish, variancePercentage_finish.
    generalize (variance (finishAnalysis D (S754_zero s)
                  (getDestinationMultiplier (destination data))
                  (breakdownOf D T (getDestinationMultiplier (destination data))) data)).
    intros v.
    assert (F : is_finite (of_Z 100) = true) by (vm_compute; reflexivity).
    revert F. generalize (of_Z 100). intros c F.
    apply (fmul_degenerate _ c); [apply fdiv_zero | exact F].
Qed.

(** C10.  The budget that [generateBudgetAnalysis] divides by is never NaN
    and never a zero: a budget text whose [parseInt] is NaN or zero, such as
    ["0"], ["abc"] and the empty text, is replaced by 2000, any other parse
    is kept; the traveller count is replaced by 1 in the same way. *)
Theorem originalBudget_never_zero (Date_getTime : string -> number)
    (data : TripData) (it : option ItineraryPlan) :
  let a := generateBudgetAnalysis Date_getTime data it in
  (* the divisor is a Number other than NaN and the zeros *)
  truthy (originalBudget a) = true
  /\ is_nan (originalBudget a) = false
  /\ feq (originalBudget a) (S754_zero false) = false
  (* a budget that parses to NaN or a zero is replaced by 2000 *)
  /\ (truthy (parseInt (budget data)) = false -> originalBudget a = of_Z 2000)
  /\ (truthy (parseInt (budget data)) = true ->
      originalBudget a = parseInt (budget data))
  (* and the traveller count likewise by 1 *)
  /\ (truthy (parseInt (travellers data)) = false -> travelersOf data = of_Z 1)
  /\ truthy (travelersOf data) = true
  /\ parseInt "0" = S754_zero false /\ parseInt "abc" = S754_nan
  /\ parseInt "" = S754_nan.
Proof.
  intros a. subst a. unfold generateBudgetAnalysis.
  rewrite analysisOf_finish, originalBudget_finish.
  assert (H : truthy (originalBudgetOf data) = true).
  { apply or_else_truthy. vm_compute. reflexivity. }
  destruct (truthy_not_zero _ H) as [H1 H2].
  repeat split; try assumption.
  - unfold originalBudgetOf, or_else. intros E. rewrite E. reflexivity.
  - unfold originalBudgetOf, or_else. intros E. rewrite E. reflexivity.
  - unfold travelersOf, or_else. intros E. rewrite E. reflexivity.
  - apply or_else_truthy. vm_compute. reflexivity.
Qed.

(** ** Risk factors and recommendations *)

Lemma generateRecommendations_order (status : BudgetStatus) (v : number)
    (data : TripData) :
  generateRecommendations status v data = statusTips status ++ universalTips.
Proof. destruct status; reflexivity. Qed.

Lemma generateRiskFactors_order (data : TripData) (days multiplier : number) :
  generateRiskFactors data days multiplier
  = (if fgt multiplier (lit 1.2) then [highCostRisk] else [])
    ++ (if fgt days (of_Z 14) then [extendedTripRisk] else [])
    ++ [currencyRisk; seasonalRisk].
Proof.
  unfold generateRiskFactors.
  destruct (fgt multiplier (lit 1.2)), (fgt days (of_Z 14)); reflexivity.
Qed.

Ltac decide_In :=
  cbn [app In];
  first
    [ tauto
    | split;
      [ intros H; repeat destruct H as [H|H];
        first [reflexivity | discriminate H | contradiction]
      | intros H; first [discriminate H | tauto] ] ].

(** C8.  [riskFactors] is the high-cost entry when the multiplier exceeds
    1.2, then the extended-trip entry when the day count exceeds 14, then
    the currency and the seasonal entries, which are always there; each
    conditional entry is in the list exactly under its condition.
    [recommendations] is the tips of the status followed by the two universal
    tips, booking in advance and travel insurance. *)
Theorem riskFactors_and_recommendations_order (D T B : number)
    (data : TripData) (it : option ItineraryPlan) :
  let a := analysisOf D T B data it in
  let M := getDestinationMultiplier (destination data) in
  riskFactors a
  = (if fgt M (lit 1.2) then [highCostRisk] else [])
    ++ (if fgt D (of_Z 14) then [extendedTripRisk] else [])
    ++ [currencyRisk; seasonalRisk]
  /\ (In highCostRisk (riskFactors a) <-> fgt M (lit 1.2) = true)
  /\ (In extendedTripRisk (riskFactors a) <-> fgt D (of_Z 14) = true)
  /\ In currencyRisk (riskFactors a) /\ In seasonalRisk (riskFactors a)
  /\ recommendations a = statusTips (budgetStatus a) ++ universalTips.
Proof.
  intros a M. subst a M.
  rewrite analysisOf_finish, riskFactors_finish, recommendations_finish.
  rewrite generateRecommendations_order, generateRiskFactors_order.
  split; [reflexivity|].
  destruct (fgt (getDestinationMultiplier (destination data)) (lit 1.2));
  destruct (fgt D (of_Z 14)); repeat split; try decide_In;
    try (intros _; decide_In); try (intros H; discriminate H);
    cbn [app In]; intros H; repeat destruct H as [H|H];
    first [discriminate H | contradiction].
Qed.

(** [generateBudgetAnalysis] takes an itinerary and never reads it. *)
Lemma generateBudgetAnalysis_itinerary (Date_getTime : string -> number)
    (data : TripData) (it it' : option ItineraryPlan) :
  generateBudgetAnalysis Date_getTime data it
  = generateBudgetAnalysis Date_getTime data it'.
Proof. reflexivity. Qed.

Local Open Scope Z_scope.

(** C1.  The six amounts of [generateBudgetAnalysis] are those of the table
    of the specification, for every day count [D], traveller count [T] and
    multiplier [M] of the destination, and so in particular from one day and
    one traveller on. *)
Theorem breakdown_matches_table (D T B : number) (data : TripData)
    (it : option ItineraryPlan) :
  let M := getDestinationMultiplier (destination data) in
  let b := breakdown (analysisOf D T B data it) in
  amount (flights b) = SpecFormulas.flights D T M
  /\ amount (accommodation b) = SpecFormulas.accommodation D T M
  /\ amount (food b) = SpecFormulas.food D T M
  /\ amount (activities b) = SpecFormulas.activities D T M
  /\ amount (transportation b) = SpecFormulas.transportation D T M
  /\ amount (miscellaneous b) = SpecFormulas.miscellaneous D T M
  /\ forall Date_getTime,
       generateBudgetAnalysis Date_getTime data it
       = analysisOf (totalDaysOf Date_getTime data) (travelersOf data)
           (originalBudgetOf data) data it.
Proof.
  intros M b. subst b M. rewrite breakdown_analysisOf.
  generalize (getDestinationMultiplier (destination data)). intros M.
  repeat split.
Qed.

(** C9.  [costSavingTips] has one entry for each of flights, accommodation,
    food and transportation, in that order, and the savings of each is the
    rounded product of the category amount with its rate: 0.15, 0.25, 0.3
    and 0.2. *)
Theorem costSavingTips_table (D T B : number) (data : TripData)
    (it : option ItineraryPlan) :
  let a := analysisOf D T B data it in
  let b := breakdown a in
  map category (costSavingTips a)
  = ["Flights"; "Accommodation"; "Food"; "Transportation"]%string
  /\ map potentialSavings (costSavingTips a)
     = [ Math_round (amount (flights b) * lit 0.15)%num;
         Math_round (amount (accommodation b) * lit 0.25)%num;
         Math_round (amount (food b) * lit 0.3)%num;
         Math_round (amount (transportation b) * lit 0.2)%num ].
Proof.
  intros a b. subst b a.
  rewrite analysisOf_finish, costSavingTips_finish, breakdown_finish.
  generalize (breakdownOf D T (getDestinationMultiplier (destination data))).
  intros b.
  assert (E : lit 0.30 = lit 0.3) by (vm_compute; reflexivity).
  assert (E' : lit 0.20 = lit 0.2) by (vm_compute; reflexivity).
  unfold generateCostSavingTips.
  cbn [map category potentialSavings].
  rewrite E, E'. split; reflexivity.
Qed.

Lemma existsb_tier (tier : list string) (destination : string) :
  existsb (fun country => includes (toLowerCase destination) country) tier = true
  <-> SpecFormulas.tier_matches tier destination.
Proof.
  rewrite existsb_exists. unfold SpecFormulas.tier_matches. split.
  - intros (country & Hin & H). apply includes_spec in H.
    destruct H as (pre & post & H). exists country, pre, post. split; assumption.
  - intros (country & pre & post & Hin & H). exists country. split; [exact Hin|].
    apply includes_spec. exists pre, post. exact H.
Qed.

Lemma getDestinationMultiplier_lower (d d' : string) :
  toLowerCase d' = toLowerCase d ->
  getDestinationMultiplier d' = getDestinationMultiplier d.
Proof. intros H. unfold getDestinationMultiplier. rewrite H. reflexivity. Qed.

(** C4.  The multiplier is one of 1.5, 1.3, 0.9, 0.6 and 1.0.  It is that of
    the first tier, in the order very high, high, medium, low, one of whose
    country names occurs in the lower-cased destination, and 1.0 when none
    does, as for ["Generic Place"].  The case of the letters plays no part:
    destinations with the same lower case get the same multiplier, and so
    do destinations that differ in the case of ASCII letters only; [UK]
    written with the Kelvin sign for its K is in the high tier. *)
Theorem getDestinationMultiplier_tiers (destination : string) :
  let M := getDestinationMultiplier destination in
  let matches tier := SpecFormulas.tier_matches tier destination in
  (M = lit 1.5 \/ M = lit 1.3 \/ M = lit 0.9 \/ M = lit 0.6 \/ M = lit 1.0)
  /\ (matches veryHighCost -> M = lit 1.5)
  /\ (~ matches veryHighCost -> matches highCost -> M = lit 1.3)
  /\ (~ matches veryHighCost -> ~ matches highCost -> matches mediumCost ->
      M = lit 0.9)
  /\ (~ matches veryHighCost -> ~ matches highCost -> ~ matches mediumCost ->
      matches lowCost -> M = lit 0.6)
  /\ (~ matches veryHighCost -> ~ matches highCost -> ~ matches mediumCost ->
      ~ matches lowCost -> M = lit 1.0)
  /\ (forall d', toLowerCase d' = toLowerCase destination ->
      getDestinationMultiplier d' = M)
  /\ (forall d', fold_ascii_case d' = fold_ascii_case destination ->
      getDestinationMultiplier d' = M)
  /\ getDestinationMultiplier "Generic Place" = lit 1.0
  /\ getDestinationMultiplier ("U" ++ kelvin_sign) = lit 1.3
  /\ (F2Q (lit 1.0) == 1)%Q.
Proof.
  intros M matches. subst M matches. cbv beta.
  split; [apply getDestinationMultiplier_cases|].
  rewrite <- !existsb_tier.
  split; [|split; [|split; [|split; [|split; [|split; [|split; [|split; [|split]]]]]]]].
  - unfold getDestinationMultiplier. intros ->. reflexivity.
  - unfold getDestinationMultiplier. intros H1 ->.
    apply not_true_is_false in H1. rewrite H1. reflexivity.
  - unfold getDestinationMultiplier. intros H1 H2 ->.
    apply not_true_is_false in H1, H2. rewrite H1, H2. reflexivity.
  - unfold getDestinationMultiplier. intros H1 H2 H3 ->.
    apply not_true_is_false in H1, H2, H3. rewrite H1, H2, H3. reflexivity.
  - unfold getDestinationMultiplier. intros H1 H2 H3 H4.
    apply not_true_is_false in H1, H2, H3, H4. rewrite H1, H2, H3, H4. reflexivity.
  - intros d' H. apply getDestinationMultiplier_lower, H.
  - intros d' H. apply getDestinationMultiplier_lower.
    rewrite <- (toLowerCase_fold d'), H. apply toLowerCase_fold.
  - vm_compute. reflexivity.
  - vm_compute. reflexivity.
  - vm_compute. reflexivity.
Qed.

(** The spec's concrete scenario, evaluated. *)
Example scenario_amounts :
  let a := generateBudgetAnalysis isoDate scenarioTrip None in
  totalDaysOf isoDate scenarioTrip = of_Z 5
  /\ map (fun c => amount c) (Object_values (breakdown a))
     = map of_Z [720; 361; 270; 210; 106; 120]
  /\ totalEstimated a = of_Z 1787
  /\ variance a = of_Z 787
  /\ budgetStatus a = over.
Proof. vm_compute. repeat split. Qed.

(** C7 at the scenario: five days and two travellers, against three
    travellers and against eight days. *)
Lemma totalEstimated_monotone_witness :
  fle (of_Z 1) (of_Z 5) = true /\ fle (of_Z 1) (of_Z 2) = true
  /\ fgt (of_Z 3) (of_Z 2) = true /\ fgt (of_Z 8) (of_Z 5) = true
  /\ fle (totalEstimated (analysisOf (of_Z 5) (of_Z 2) (of_Z 1000) scenarioTrip None))
         (totalEstimated (analysisOf (of_Z 5) (of_Z 3) (of_Z 1000) scenarioTrip None))
     = true
  /\ fle (totalEstimated (analysisOf (of_Z 5) (of_Z 2) (of_Z 1000) scenarioTrip None))
         (totalEstimated (analysisOf (of_Z 8) (of_Z 2) (of_Z 1000) scenarioTrip None))
     = true.
Proof.
  assert (H1 : fle (of_Z 1) (of_Z 5) = true) by (vm_compute; reflexivity).
  assert (H2 : fle (of_Z 1) (of_Z 2) = true) by (vm_compute; reflexivity).
  assert (H3 : fgt (of_Z 3) (of_Z 2) = true) by (vm_compute; reflexivity).
  assert (H4 : fgt (of_Z 8) (of_Z 5) = true) by (vm_compute; reflexivity).
  pose proof (totalEstimated_monotone (of_Z 5) (of_Z 2) (of_Z 1000) scenarioTrip
                None H1 H2) as [HT HD].
  exact (conj H1 (conj H2 (conj H3 (conj H4
           (conj (HT (of_Z 3) H3) (HD (of_Z 8) H4)))))).
Defined.

(** C3 at the scenario: five days and two travellers. *)
Lemma amounts_whole_and_summed_witness :
  fle (of_Z 1) (of_Z 5) = true /\ fle (of_Z 1) (of_Z 2) = true
  /\ fle (of_Z 5) (of_Z 200000000) = true /\ fle (of_Z 2) (of_Z 100000) = true
  /\ let a := analysisOf (of_Z 5) (of_Z 2) (of_Z 1000) scenarioTrip None in
     Forall (fun c => is_nonneg_integer (amount c) = true)
       (Object_values (breakdown a))
     /\ is_nonneg_integer (totalEstimated a) = true.
Proof.
  assert (H1 : fle (of_Z 1) (of_Z 5) = true) by (vm_compute; reflexivity).
  assert (H2 : fle (of_Z 1) (of_Z 2) = true) by (vm_compute; reflexivity).
  assert (H3 : fle (of_Z 5) (of_Z 200000000) = true) by (vm_compute; reflexivity).
  assert (H4 : fle (of_Z 2) (of_Z 100000) = true) by (vm_compute; reflexivity).
  pose proof (amounts_whole_and_summed (of_Z 5) (of_Z 2) (of_Z 1000) scenarioTrip
                None H1 H2) as (_ & _ & HB & HS).
  cbv zeta in HB, HS.
  destruct (HS (HB H3 H4)) as (A1 & A2 & _).
  exact (conj H1 (conj H2 (conj H3 (conj H4 (conj A1 A2))))).
Defined.

(** C2 at the scenario: a budget of 1000 against an estimate of 1787. *)
Lemma budgetStatus_band_witness :
  flt zero (of_Z 1000) = true
  /\ fgt (variance (analysisOf (of_Z 5) (of_Z 2) (of_Z 1000) scenarioTrip None))
         (lit 0.05 * of_Z 1000)%num = true
  /\ budgetStatus (analysisOf (of_Z 5) (of_Z 2) (of_Z 1000) scenarioTrip None) = over.
Proof.
  assert (H1 : flt zero (of_Z 1000) = true) by (vm_compute; reflexivity).
  assert (H2 : fgt (variance (analysisOf (of_Z 5) (of_Z 2) (of_Z 1000) scenarioTrip None))
                 (lit 0.05 * of_Z 1000)%num = true) by (vm_compute; reflexivity).
  pose proof (budgetStatus_band (of_Z 5) (of_Z 2) (of_Z 1000) scenarioTrip None H1)
    as (_ & _ & HO & _).
  cbv zeta in HO.
  exact (conj H1 (conj H2 (proj2 HO H2))).
Defined.

(** C3 as it is claimed, at two traveller counts [parseInt] reads from a
    text of digits.  For [10^306] travellers the flight amount and the
    total are [+Infinity], no whole numbers.  For 21,500,000,000,000
    travellers the six amounts are whole numbers and the total, past
    [2^53], is 9030000306029412, one more than their sum. *)
Lemma amounts_whole_and_summed_counterexample :
  (let D := totalDaysOf isoDate crowdTrip in
   let T := travelersOf crowdTrip in
   let a := generateBudgetAnalysis isoDate crowdTrip None in
   fle (of_Z 1) D = true /\ fle (of_Z 1) T = true
   /\ T = of_Z (10 ^ 306)
   /\ amount (flights (breakdown a)) = S754_infinity false
   /\ is_nonneg_integer (amount (flights (breakdown a))) = false
   /\ is_nonneg_integer (totalEstimated a) = false)
  /\
  (let D := totalDaysOf isoDate throngTrip in
   let T := travelersOf throngTrip in
   let a := generateBudgetAnalysis isoDate throngTrip None in
   fle (of_Z 1) D = true /\ fle (of_Z 1) T = true
   /\ T = of_Z 21500000000000
   /\ map (fun c => amount c) (Object_values (breakdown a))
      = map of_Z [7740000000000000; 236477272; 580500000000000;
                  451500000000000; 69552139; 258000000000000]%Z
   /\ forallb (fun c => is_nonneg_integer (amount c)) (Object_values (breakdown a))
      = true
   /\ totalEstimated a = of_Z 9030000306029412
   /\ Qeq_bool (F2Q (totalEstimated a)) (sum_values (Object_values (breakdown a)))
      = false
   /\ (7740000000000000 + 236477272 + 580500000000000
       + 451500000000000 + 69552139 + 258000000000000 = 9030000306029411)%Z).
Proof. vm_compute. repeat split. Qed.

(** C6 as it is claimed, at the scenario with the budget text [0]: the
    budget is 2000 and [variancePercentage] is the finite
    [(1787 - 2000) / 2000 * 100], between -11 and -10. *)
Lemma variancePercentage_zero_budget_counterexample :
  let a := generateBudgetAnalysis isoDate zeroBudgetTrip None in
  parseInt (budget zeroBudgetTrip) = S754_zero false
  /\ originalBudget a = of_Z 2000
  /\ totalEstimated a = of_Z 1787
  /\ variancePercentage a = ((of_Z 1787 - of_Z 2000) / of_Z 2000 * of_Z 100)%num
  /\ is_finite (variancePercentage a) = true
  /\ is_degenerate (variancePercentage a) = false
  /\ fle (of_Z (-11)) (variancePercentage a) = true
  /\ fle (variancePercentage a) (of_Z (-10)) = true.
Proof. vm_compute. repeat split. Qed.

End BudgetAnalystAgentFacts.

(* ================================================================== *)
(** * Facts about the estimator of TravelBudgetAnalyst.tsx              *)
(* ================================================================== *)

Module TravelBudgetAnalystFacts.
Import JSNumber JSString Itinerary TravelBudgetAnalyst Examples.
Local Open Scope Z_scope.

(** C5.  In [analyzeTripBudget] an itinerary of at least one day replaces the
    flat estimates: food is the sum of the meal costs, activities the sum of
    the [activity] and [sightseeing] entries, transportation the sum of the
    [transport] entries, each times the traveller count; miscellaneous is the
    sum of the [shopping] entries times the traveller count plus a tenth of
    the other five categories.  With an empty itinerary the four amounts are
    the flat estimates. *)
Theorem itinerary_overrides (Date_getTime : string -> number)
    (trip : TripDetails) (day1 : ItineraryItem) (rest : list ItineraryItem)
    (flights_ : option FlightSelection) :
  let itinerary := day1 :: rest in
  let b := breakdown (analyzeTripBudget Date_getTime trip itinerary flights_) in
  let T := travelers trip in
  amount (food b)
  = (sum_by (fun d => sum_by cost (Itinerary.meals d)) itinerary * T)%num
  /\ amount (activities b)
     = (sum_by (dayCost (fun c => category_eqb c activity
                                  || category_eqb c sightseeing)) itinerary * T)%num
  /\ amount (transportation b)
     = (sum_by (dayCost (fun c => category_eqb c transport)) itinerary * T)%num
  /\ amount (miscellaneous b)
     = (sum_by (dayCost (fun c => category_eqb c shopping)) itinerary * T
        + (amount (flights b) + amount (accommodation b) + amount (food b)
           + amount (activities b) + amount (transportation b)) * lit 0.1)%num
  /\ let e := breakdown (analyzeTripBudget Date_getTime trip [] flights_) in
     let days := totalDays (analysis (analyzeTripBudget Date_getTime trip [] flights_)) in
     amount (food e) = estimateFoodCost (destination trip) days T
     /\ amount (activities e)
        = estimateActivityCost (destination trip) (interests trip) days T
     /\ amount (transportation e)
        = estimateTransportationCost (destination trip) days T
     /\ amount (miscellaneous e)
        = estimateMiscellaneousCost (destination trip) days T.
Proof.
  intros. repeat split; reflexivity.
Qed.

(** C5 read without the tenth: for one day with a shopping entry of 30 and
    two travellers the shopping sum is 60 and the miscellaneous amount is
    238. *)
Lemma itinerary_misc_counterexample :
  let a := analyzeTripBudget isoDate weekendTrip [oneDay] (Some weekendFlights) in
  let shoppingTotal :=
    (sum_by (dayCost (fun c => category_eqb c shopping)) [oneDay]
     * travelers weekendTrip)%num in
  shoppingTotal = of_Z 60
  /\ amount (miscellaneous (breakdown a)) = of_Z 238
  /\ feq (amount (miscellaneous (breakdown a))) shoppingTotal = false.
Proof. vm_compute. repeat split. Qed.

End TravelBudgetAnalystFacts.

(* ================================================================== *)
(** * Numbers: NaN, signs and order                                     *)
(* ================================================================== *)

Module JSNumberEdgeFacts.
Import JSNumber JSNumberFacts.

Lemma fmul_nan_r (x : number) : (x * S754_nan)%num = S754_nan.
Proof. destruct x; reflexivity. Qed.

Lemma fmul_nan_l (y : number) : (S754_nan * y)%num = S754_nan.
Proof. reflexivity. Qed.

Lemma fadd_nan_r (x : number) : (x + S754_nan)%num = S754_nan.
Proof. destruct x; reflexivity. Qed.

Lemma fadd_nan_l (y : number) : (S754_nan + y)%num = S754_nan.
Proof. reflexivity. Qed.

Lemma fsub_nan_l (y : number) : (S754_nan - y)%num = S754_nan.
Proof. reflexivity. Qed.

Lemma fsub_nan_r (x : number) : (x - S754_nan)%num = S754_nan.
Proof. destruct x; reflexivity. Qed.

Lemma fdiv_nan_l (y : number) : (S754_nan / y)%num = S754_nan.
Proof. reflexivity. Qed.

Lemma fdiv_nan_r (x : number) : (x / S754_nan)%num = S754_nan.
Proof. destruct x; reflexivity. Qed.

Lemma flt_nan_l (y : number) : flt S754_nan y = false.
Proof. reflexivity. Qed.

Lemma flt_nan_r (x : number) : flt x S754_nan = false.
Proof. destruct x; reflexivity. Qed.

Lemma fgt_nan_l (y : number) : fgt S754_nan y = false.
Proof. reflexivity. Qed.

Lemma fgt_nan_r (x : number) : fgt x S754_nan = false.
Proof. destruct x; reflexivity. Qed.

Lemma is_nan_eq (x : number) : is_nan x = true -> x = S754_nan.
Proof. destruct x; intros H; try discriminate H; reflexivity. Qed.

Lemma Math_sqrt_negative (x : number) : flt x zero = true -> Math_sqrt x = S754_nan.
Proof.
  destruct x as [s|s| |s m e]; try destruct s; intros H; try reflexivity;
    try discriminate H.
  exfalso. apply flt_iff in H. destruct H as (_ & _ & [H|(_ & _ & H)]).
  - cbn in H. lia.
  - change (F2Q zero) with 0%Q in H. cbn [F2Q] in H.
    pose proof (Fabs_pos m e). lra.
Qed.

Lemma negative_truthy (x : number) : flt x zero = true -> truthy x = true.
Proof.
  destruct x as [s|s| |s m e]; intros H; try reflexivity; discriminate H.
Qed.

Lemma fopp_well_formed (x : number) : well_formed (- x)%num = well_formed x.
Proof. destruct x; reflexivity. Qed.

Lemma fopp_involutive (x : number) : (- - x)%num = x.
Proof. destruct x; cbn [fopp]; rewrite ?negb_involutive; reflexivity. Qed.

Lemma negative_opp_positive (x : number) :
  flt x zero = true -> positive_num (- x)%num.
Proof.
  destruct x as [s|s| |s m e]; intros H; try discriminate H.
  - destruct s; [constructor | discriminate H].
  - destruct s; [constructor|]. exfalso.
    apply flt_iff in H. destruct H as (_ & _ & [H|(_ & _ & H)]).
    + cbn in H. lia.
    + change (F2Q zero) with 0%Q in H. cbn [F2Q] in H.
      pose proof (Fabs_pos m e). lra.
Qed.

(** [x * 1] is [x]. *)
Lemma fmul_one_r (x : number) :
  well_formed x = true -> (x * of_Z 1)%num = x.
Proof.
  change (of_Z 1) with (S754_finite false 4503599627370496 (-52)).
  destruct x as [s|s| |s m e]; intros W; try reflexivity;
    try (destruct s; reflexivity).
  cbn [fmul]. rewrite xorb_false_r.
  rewrite (round_pos_comp s _ (Fabs m e)).
  - apply round_pos_canonical, W.
  - apply Qmult_lt_0_compat; apply Fabs_pos.
  - assert (E : (Fabs 4503599627370496 (-52) == 1)%Q) by reflexivity.
    rewrite E. ring.
Qed.

Lemma flt_opp_positive (t V : number) :
  nonneg t -> positive_num V -> flt (- t)%num V = true.
Proof.
  intros Nt PV. apply flt_iff.
  destruct Nt as [s|m e|]; destruct PV as [m' e'|]; cbn [fopp is_nan negb];
    (split; [reflexivity|]; split; [reflexivity|]);
    unfold ext_lt; cbn [cls F2Q negb];
    try (left; lia); right; (split; [reflexivity|]; split; [reflexivity|]).
  - apply Fabs_pos.
  - pose proof (Fabs_pos m e). pose proof (Fabs_pos m' e'). lra.
Qed.

Lemma fle_not_flt (x y : number) : fle x y = true -> flt y x = false.
Proof.
  intros H. destruct (flt y x) eqn:E; [|reflexivity].
  apply flt_not_fle in E. congruence.
Qed.

(** [Math.round] leaves what it returns alone. *)
Lemma Math_round_idempotent (x : number) :
  nonneg x -> Math_round (Math_round x) = Math_round x.
Proof.
  intros [s|m e|]; try reflexivity.
  destruct (Math_round_pos_cases m e) as (_ & [(_ & ->)|(Hn & ->)]); [reflexivity|].
  set (n := Qfloor (Fabs m e + (1 # 2))) in *.
  assert (Q0 : (0 < inject_Z n)%Q) by (apply inject_Z_pos, Hn).
  destruct (round_pos_spec false (inject_Z n) Q0) as [H1|H1|m' e' H1 H2 H3];
    try reflexivity.
  destruct (rounded_int n Hn) as (z & Hz).
  assert (Ez : (Fabs m' e' == inject_Z z)%Q) by (rewrite H1; exact Hz).
  assert (Pz : (0 < z)%Z).
  { rewrite Zlt_Qlt. change (inject_Z 0) with 0%Q. rewrite <- Ez. apply Fabs_pos. }
  unfold Math_round. cbn [F2Q].
  assert (F : Qfloor (Fabs m' e' + (1 # 2)) = z).
  { apply Z.le_antisymm.
    - apply Z.lt_succ_r. rewrite Zlt_Qlt.
      apply (Qle_lt_trans _ (Fabs m' e' + (1 # 2))); [apply Qfloor_le|].
      rewrite Ez. unfold Z.succ. rewrite inject_Z_plus.
      change (inject_Z 1) with 1%Q. lra.
    - rewrite <- (Qfloor_Z z) at 1. apply Qfloor_resp_le. rewrite Ez. lra. }
  rewrite F.
  destruct (z =? 0)%Z eqn:E0; [apply Z.eqb_eq in E0; lia|].
  rewrite (of_Z_pos z Pz).
  rewrite (round_pos_comp false (inject_Z z) (Fabs m' e')).
  - apply round_pos_canonical, H3.
  - apply inject_Z_pos, Pz.
  - symmetry. exact Ez.
Qed.

Lemma positive_le_finite (x c : number) :
  positive_num x -> fle x c = true -> is_finite c = true ->
  exists m e, x = S754_finite false m e.
Proof.
  intros [m e|] L F; [exists m, e; reflexivity|].
  exfalso. destruct c as [s|s| |s m e]; try discriminate F; discriminate L.
Qed.

Lemma Math_sqrt_finite (x : number) :
  fle (of_Z 1) x = true -> well_formed x = true -> is_finite x = true ->
  exists m e, Math_sqrt x = S754_finite false m e.
Proof.
  intros L W F.
  assert (P1 : positive_num (of_Z 1)) by (apply flt_zero_positive; vm_compute; reflexivity).
  pose proof (positive_fle _ _ P1 L) as PX.
  apply (positive_le_finite _ (Math_sqrt (S754_finite false 9007199254740991 971))).
  - apply (positive_fle (Math_sqrt (of_Z 1))).
    + apply flt_zero_positive. vm_compute. reflexivity.
    + apply Math_sqrt_mono; assumption.
  - apply Math_sqrt_mono; [exact PX|]. apply fle_max_value; assumption.
  - vm_compute. reflexivity.
Qed.

Lemma fadd_zero_positive_l (s : bool) (x : number) :
  positive_num x -> (S754_zero s + x)%num = x.
Proof. intros [m e|]; reflexivity. Qed.

Lemma fadd_zero_positive_r (s : bool) (x : number) :
  positive_num x -> (x + S754_zero s)%num = x.
Proof. intros [m e|]; reflexivity. Qed.

Lemma feq_zero_inv (x : number) :
  feq x zero = true -> exists s, x = S754_zero s.
Proof.
  destruct x as [s|s| |s m e]; intros H; try discriminate H.
  - exists s. reflexivity.
  - destruct s; discriminate H.
  - exfalso. apply feq_iff in H. destruct H as (_ & _ & _ & [H|H]).
    + apply H. reflexivity.
    + change (F2Q zero) with 0%Q in H. cbn [F2Q] in H.
      pose proof (Fabs_pos m e). destruct s; lra.
Qed.

Lemma between_round_positive (c x : number) :
  between c x x -> flt zero (Math_round c) = true -> positive_num (Math_round x).
Proof.
  intros (P & L & _) H.
  apply (positive_fle (Math_round c)); [apply flt_zero_positive, H|].
  apply Math_round_mono; [apply positive_nonneg, P | exact L].
Qed.

(** Two Numbers other than NaN compare. *)
Lemma flt_false_fle (x y : number) :
  is_nan x = false -> is_nan y = false -> flt x y = false -> fle y x = true.
Proof.
  intros Nx Ny H. unfold flt in H. unfold fle.
  destruct x as [sx|sx| |sx mx ex]; try discriminate Nx;
    destruct y as [sy|sy| |sy my ey]; try discriminate Ny;
    cbn [fcompare] in *;
    try (destruct sx; destruct sy; first [reflexivity | discriminate H]);
    try (destruct sx; first [reflexivity | discriminate H]);
    try (destruct sy; first [reflexivity | discriminate H]);
    match type of H with
    | context [(?a ?= ?b)%Q] =>
        rewrite <- (Qcompare_antisym a b); destruct (a ?= b)%Q
    end; first [reflexivity | discriminate H].
Qed.

Lemma fle_sign_true (x : number) :
  is_nan x = false -> sign x = true -> fle x zero = true.
Proof.
  destruct x as [s|s| |s m e]; intros N S; try discriminate N; cbn [sign] in S;
    subst s; try reflexivity.
  apply fle_iff. split; [reflexivity|]. split; [reflexivity|].
  right. split; [reflexivity|]. right. cbn [F2Q]. change (F2Q zero) with 0%Q.
  pose proof (Fabs_pos m e). lra.
Qed.

Lemma fle_sign_false (x : number) :
  is_nan x = false -> sign x = false -> fle zero x = true.
Proof.
  destruct x as [s|s| |s m e]; intros N S; try discriminate N; cbn [sign] in S;
    subst s; try reflexivity.
  apply fle_iff. split; [reflexivity|]. split; [reflexivity|].
  right. split; [reflexivity|]. right. cbn [F2Q]. change (F2Q zero) with 0%Q.
  pose proof (Fabs_pos m e). lra.
Qed.

Lemma round_pos_sign (s : bool) (q : Q) : sign (round_pos s q) = s.
Proof.
  unfold round_pos. destruct (significand q =? 0); [reflexivity|].
  destruct (significand q =? 2 ^ 53); destruct (971 <? _); reflexivity.
Qed.

(** The sign of a difference: [x - y] is not positive when [x < y]. *)
Ltac solve_sign :=
  first [ reflexivity
        | apply fle_sign_true; reflexivity
        | apply fle_sign_false; reflexivity ].

Lemma fsub_flt (x y : number) :
  flt x y = true -> fle (x - y)%num zero = true /\ fle zero (y - x)%num = true.
Proof.
  intros H. pose proof H as H'. apply flt_iff in H'.
  destruct H' as (Nx & Ny & E). unfold ext_lt in E. unfold fsub.
  destruct x as [sx|sx| |sx mx ex]; try discriminate Nx;
    destruct y as [sy|sy| |sy my ey]; try discriminate Ny;
    cbn [cls F2Q] in E.
  - exfalso. destruct E as [E|(_ & _ & E)]; [lia|]. destruct sx, sy; cbn in E; lra.
  - destruct sy; [exfalso; destruct E as [E|(? & ? & _)]; [cbn in E; lia|discriminate]|].
    destruct sx; split; solve_sign.
  - assert (sy = false).
    { destruct sy; [|reflexivity]. exfalso.
      destruct E as [E|(_ & _ & E)]; [lia|].
      pose proof (Fabs_pos my ey). destruct sx; cbn in E; lra. }
    subst sy. destruct sx; split; solve_sign.
  - destruct sx; [|exfalso; destruct E as [E|(? & ? & _)]; [cbn in E; lia|discriminate]].
    destruct sy; split; solve_sign.
  - destruct sx, sy; try (split; solve_sign);
      exfalso; destruct E as [E|(? & ? & _)]; cbn in *; try lia; discriminate.
  - destruct sx; [|exfalso; destruct E as [E|(? & ? & _)]; [cbn in E; lia|discriminate]].
    destruct sy; split; solve_sign.
  - assert (sx = true).
    { destruct sx; [reflexivity|]. exfalso.
      destruct E as [E|(_ & _ & E)]; [lia|].
      pose proof (Fabs_pos mx ex). destruct sy; cbn in E; lra. }
    subst sx. destruct sy; split; solve_sign.
  - destruct sy; [exfalso; destruct E as [E|(? & ? & _)]; [cbn in E; lia|discriminate]|].
    destruct sx; split; solve_sign.
  - clear E. pose proof (proj2 (proj2 (proj1 (flt_iff _ _) H))) as E.
    destruct E as [E|(_ & _ & E)]; [cbn in E; lia|].
    cbn [fadd fopp]. unfold round_Q.
    set (qx := F2Q (S754_finite sx mx ex)) in *.
    set (qy := F2Q (S754_finite sy my ey)) in *.
    assert (Ey : (F2Q (S754_finite (negb sy) my ey) == - qy)%Q).
    { subst qy. destruct sy; cbn [F2Q negb]; ring. }
    assert (Ex : (F2Q (S754_finite (negb sx) mx ex) == - qx)%Q).
    { subst qx. destruct sx; cbn [F2Q negb]; ring. }
    split.
    + destruct (Qcompare_spec (qx + F2Q (S754_finite (negb sy) my ey)) 0) as [C|C|C];
        [reflexivity| |exfalso; lra].
      apply fle_sign_true; [apply round_pos_not_nan; lra | apply round_pos_sign].
    + destruct (Qcompare_spec (qy + F2Q (S754_finite (negb sx) mx ex)) 0) as [C|C|C];
        [reflexivity|exfalso; lra|].
      apply fle_sign_false; [apply round_pos_not_nan; lra | apply round_pos_sign].
Qed.

(** ** Quotient and ceiling of positive Numbers *)

Lemma fdiv_mono (x x' : number) (m : positive) (e : Z) :
  positive_num x -> fle x x' = true ->
  fle (x / S754_finite false m e)%num (x' / S754_finite false m e)%num = true.
Proof.
  intros Hx Hxx. pose proof (positive_fle _ _ Hx Hxx) as Hx'.
  pose proof (Fabs_pos m e) as Pd.
  destruct Hx as [mx ex|], Hx' as [mx' ex'|]; try discriminate;
    cbn [fdiv sign xorb]; try reflexivity.
  - apply fle_finite in Hxx. pose proof (Fabs_pos mx ex).
    apply round_pos_mono.
    + apply Qlt_shift_div_l; [exact Pd|]. lra.
    + unfold Qdiv. apply Qmult_le_compat_r; [exact Hxx|].
      apply Qlt_le_weak, Qinv_lt_0_compat, Pd.
  - apply fle_inf, round_pos_not_nan.
    apply Qlt_shift_div_l; [exact Pd|]. pose proof (Fabs_pos mx ex). lra.
Qed.

Lemma fdiv_positive (x : number) (m : positive) (e : Z) :
  positive_num x -> nonneg (x / S754_finite false m e)%num.
Proof.
  intros [mx ex|]; cbn [fdiv sign xorb]; [|constructor].
  apply round_pos_nonneg. apply Qlt_shift_div_l; [apply Fabs_pos|].
  pose proof (Fabs_pos mx ex). lra.
Qed.

Lemma Math_ceil_positive (m : positive) (e : Z) :
  (0 < Qceiling (Fabs m e))%Z
  /\ Math_ceil (S754_finite false m e)
     = round_pos false (inject_Z (Qceiling (Fabs m e))).
Proof.
  assert (H : (0 < Qceiling (Fabs m e))%Z).
  { rewrite Zlt_Qlt. apply (Qlt_le_trans _ (Fabs m e)); [apply Fabs_pos|].
    apply Qle_ceiling. }
  split; [exact H|]. unfold Math_ceil. cbn [F2Q].
  destruct (Qceiling (Fabs m e) =? 0)%Z eqn:E; [apply Z.eqb_eq in E; lia|].
  apply of_Z_pos, H.
Qed.

Lemma Math_ceil_mono (x x' : number) :
  positive_num x -> fle x x' = true -> fle (Math_ceil x) (Math_ceil x') = true.
Proof.
  intros Hx Hxx. pose proof (positive_fle _ _ Hx Hxx) as Hx'.
  destruct Hx as [m e|], Hx' as [m' e'|]; try discriminate; try reflexivity.
  - destruct (Math_ceil_positive m e) as (P & ->).
    destruct (Math_ceil_positive m' e') as (P' & ->).
    apply fle_finite in Hxx.
    apply round_pos_mono; [apply inject_Z_pos, P|].
    rewrite <- Zle_Qle. apply Qceiling_resp_le, Hxx.
  - destruct (Math_ceil_positive m e) as (P & ->).
    apply fle_inf, round_pos_not_nan, inject_Z_pos, P.
Qed.

Lemma between_div (c x x' k : number) :
  between c x x' -> flt zero k = true -> is_finite k = true ->
  flt zero (c / k)%num = true ->
  between (c / k)%num (x / k)%num (x' / k)%num.
Proof.
  intros (P & L & M) Pk Fk H.
  apply flt_zero_positive in Pk. destruct Pk as [m e|]; [|discriminate Fk].
  split; [apply flt_zero_positive, H|]. split.
  - apply fdiv_mono; assumption.
  - apply fdiv_mono; [apply (positive_fle _ _ P L) | exact M].
Qed.

Lemma between_ceil (c x x' : number) :
  between c x x' -> flt zero (Math_ceil c) = true ->
  between (Math_ceil c) (Math_ceil x) (Math_ceil x').
Proof.
  intros (P & L & M) H.
  split; [apply flt_zero_positive, H|]. split.
  - apply Math_ceil_mono; assumption.
  - apply Math_ceil_mono; [apply (positive_fle _ _ P L) | exact M].
Qed.

Lemma of_Z_mono (a b : Z) :
  (0 < a <= b)%Z -> fle (of_Z a) (of_Z b) = true.
Proof.
  intros H. rewrite !of_Z_pos by lia.
  apply round_pos_mono; [apply inject_Z_pos; lia|].
  rewrite <- Zle_Qle. lia.
Qed.

(** ** The sign of a difference *)

(** Every finite Number of the format is a multiple of [2^-1074]. *)
Lemma on_grid (x : number) :
  well_formed x = true -> is_finite x = true ->
  exists k : Z, (F2Q x == inject_Z k * pow2 (-1074))%Q.
Proof.
  destruct x as [s|s| |s m e]; intros W F; try discriminate F.
  - exists 0%Z. cbn [F2Q]. change (inject_Z 0) with 0%Q. ring.
  - cbn [well_formed] in W.
    assert (He : (-1074 <= e)%Z) by (destruct (canonical_inv _ _ W) as [[_ H]|[_ H]]; lia).
    assert (E : (Fabs m e == inject_Z (Zpos m * 2 ^ (e + 1074)) * pow2 (-1074))%Q).
    { unfold Fabs. rewrite inject_Z_mult, <- pow2_Z by lia.
      rewrite <- Qmult_assoc, <- pow2_add.
      replace (e + 1074 + -1074)%Z with e by lia. reflexivity. }
    destruct s; cbn [F2Q].
    + exists (- (Zpos m * 2 ^ (e + 1074)))%Z. rewrite E, inject_Z_opp. ring.
    + exists (Zpos m * 2 ^ (e + 1074))%Z. exact E.
Qed.

Lemma not_positive_flt (x : number) :
  ~ positive_num x -> flt zero x = false.
Proof.
  intros H. destruct (flt zero x) eqn:E; [|reflexivity].
  exfalso. apply H, flt_zero_positive, E.
Qed.

Lemma round_pos_true_not_positive (q : Q) : ~ positive_num (round_pos true q).
Proof.
  intros H. pose proof (round_pos_sign true q) as S.
  destruct H; discriminate S.
Qed.

(** [x - y] is not positive when [x <= y]. *)
Lemma fsub_fle (x y : number) :
  fle x y = true -> flt zero (x - y)%num = false.
Proof.
  intros H. apply not_positive_flt. pose proof H as H'. apply fle_iff in H'.
  destruct H' as (Nx & Ny & E). unfold ext_le in E. unfold fsub.
  destruct x as [sx|sx| |sx mx ex]; try discriminate Nx;
    destruct y as [sy|sy| |sy my ey]; try discriminate Ny;
    cbn [fopp fadd].
  - destruct sx, sy; cbn [Bool.eqb negb]; intros C; inversion C.
  - destruct sy; [exfalso; cbn in E; destruct E as [E|(E & _)]; lia|].
    intros C; inversion C.
  - assert (sy = false).
    { destruct sy; [|reflexivity]. exfalso. cbn in E.
      destruct E as [E|(_ & [E|E])]; try lia.
      pose proof (Fabs_pos my ey). lra. }
    subst sy. intros C; inversion C.
  - destruct sx; [|exfalso; cbn in E; destruct E as [E|(E & _)]; lia].
    intros C; inversion C.
  - destruct sx, sy; cbn [Bool.eqb negb]; try (intros C; inversion C);
      exfalso; cbn in E; destruct E as [E|(E & _)]; lia.
  - destruct sx; [|exfalso; cbn in E; destruct E as [E|(E & _)]; lia].
    intros C; inversion C.
  - assert (sx = true).
    { destruct sx; [reflexivity|]. exfalso. cbn in E.
      destruct E as [E|(_ & [E|E])]; try lia.
      pose proof (Fabs_pos mx ex). lra. }
    subst sx. intros C; inversion C.
  - destruct sy; [exfalso; cbn in E; destruct E as [E|(E & _)]; lia|].
    intros C; inversion C.
  - destruct E as [E|(_ & [E|E])]; [cbn in E; lia | cbn in E; lia |].
    unfold round_Q.
    assert (Ey : (F2Q (S754_finite (negb sy) my ey)
                  == - F2Q (S754_finite sy my ey))%Q).
    { destruct sy; cbn [F2Q negb]; ring. }
    destruct (Qcompare_spec (F2Q (S754_finite sx mx ex)
                             + F2Q (S754_finite (negb sy) my ey)) 0) as [C|C|C].
    + intros P; inversion P.
    + apply round_pos_true_not_positive.
    + exfalso. lra.
Qed.

(** [y - x] is positive when [x < y]: a difference of two Numbers of the
    format does not round to zero. *)
Lemma fsub_positive (x y : number) :
  well_formed x = true -> well_formed y = true ->
  flt x y = true -> flt zero (y - x)%num = true.
Proof.
  intros Wx Wy H. apply flt_zero_positive. pose proof H as H'. apply flt_iff in H'.
  destruct H' as (Nx & Ny & E). unfold ext_lt in E. unfold fsub.
  destruct x as [sx|sx| |sx mx ex]; try discriminate Nx;
    destruct y as [sy|sy| |sy my ey]; try discriminate Ny;
    cbn [fopp fadd].
  - exfalso. cbn in E. destruct E as [E|(_ & _ & E)]; [lia|lra].
  - destruct sy; [exfalso; cbn in E; destruct E as [E|(? & ? & _)]; [lia|discriminate]|].
    constructor.
  - assert (sy = false).
    { destruct sy; [|reflexivity]. exfalso. cbn in E.
      destruct E as [E|(_ & _ & E)]; [lia|].
      pose proof (Fabs_pos my ey). lra. }
    subst sy. constructor.
  - destruct sx; [|exfalso; cbn in E; destruct E as [E|(? & ? & _)]; [lia|discriminate]].
    constructor.
  - destruct sx, sy; cbn [Bool.eqb negb]; try constructor;
      exfalso; cbn in E; destruct E as [E|(? & ? & _)]; try lia; discriminate.
  - destruct sx; [|exfalso; cbn in E; destruct E as [E|(? & ? & _)]; [lia|discriminate]].
    constructor.
  - assert (sx = true).
    { destruct sx; [reflexivity|]. exfalso. cbn in E.
      destruct E as [E|(_ & _ & E)]; [lia|].
      pose proof (Fabs_pos mx ex). lra. }
    subst sx. constructor.
  - destruct sy; [exfalso; cbn in E; destruct E as [E|(? & ? & _)]; [lia|discriminate]|].
    constructor.
  - destruct E as [E|(_ & _ & E)]; [cbn in E; lia|].
    destruct (on_grid _ Wx eq_refl) as (kx & Kx).
    destruct (on_grid _ Wy eq_refl) as (ky & Ky).
    assert (Ex : (F2Q (S754_finite (negb sx) mx ex)
                  == - F2Q (S754_finite sx mx ex))%Q).
    { destruct sx; cbn [F2Q negb]; ring. }
    pose proof (pow2_pos (-1074)) as Pp.
    assert (Hk : (kx < ky)%Z).
    { rewrite Kx, Ky in E. rewrite Zlt_Qlt.
      apply Qmult_lt_r with (z := pow2 (-1074)); assumption. }
    assert (G : (Fabs 1 (-1074) <= F2Q (S754_finite sy my ey)
                                   + F2Q (S754_finite (negb sx) mx ex))%Q).
    { rewrite Ex, Kx, Ky. unfold Fabs.
      assert (inject_Z 1 <= inject_Z ky - inject_Z kx)%Q.
      { unfold Qminus. rewrite <- inject_Z_opp, <- inject_Z_plus, <- Zle_Qle. lia. }
      nra. }
    pose proof (Fabs_pos 1 (-1074)) as P1.
    rewrite round_Q_pos by lra.
    apply (positive_fle (S754_finite false 1 (-1074))); [constructor|].
    apply fle_fin_round; [reflexivity | exact G].
Qed.

Lemma fgt_difference (x y : number) :
  well_formed x = true -> well_formed y = true ->
  is_nan x = false -> is_nan y = false ->
  fgt (y - x)%num zero = flt x y.
Proof.
  intros Wx Wy Nx Ny. rewrite fgt_flt.
  destruct (flt x y) eqn:E.
  - apply fsub_positive; assumption.
  - apply fsub_fle, flt_false_fle; assumption.
Qed.

End JSNumberEdgeFacts.

(* ================================================================== *)
(** * Numbers: whole values are exact                                   *)
(* ================================================================== *)

Module JSNumberIntegerFacts.
Import JSNumber JSNumberFacts JSNumberEdgeFacts.

Local Open Scope Q_scope.

Lemma round_pos_int (s : bool) (n : Z) :
  (0 < n < 2 ^ 53)%Z ->
  int_value (round_pos s (inject_Z n)) (if s then - n else n).
Proof.
  intros [H0 H1]. pose proof (inject_Z_pos n H0) as Hq.
  pose proof (rounded_int_exact n (conj H0 H1)) as R.
  assert (Hlt : inject_Z n < pow2 1024).
  { assert (inject_Z n < pow2 53) by (apply inject_Z_pow2_lt; lia).
    assert (pow2 53 <= pow2 1024) by (apply pow2_le; lia). lra. }
  destruct (round_pos_spec s (inject_Z n) Hq) as [E|E|m e E1 E2 E3].
  - exfalso. lra.
  - exfalso. lra.
  - split; [reflexivity|]. cbn [F2Q].
    destruct s; [rewrite inject_Z_opp|]; lra.
Qed.

Lemma round_Q_comp (q q' : Q) : q == q' -> round_Q q = round_Q q'.
Proof.
  intros E. unfold round_Q.
  assert (C : (q ?= 0) = (q' ?= 0)) by (apply Qcompare_comp; [exact E|reflexivity]).
  rewrite <- C. destruct (Qcompare_spec q 0) as [H|H|H]; [reflexivity| |].
  - apply round_pos_comp; lra.
  - apply round_pos_comp; lra.
Qed.

Lemma round_Q_int (z : Z) :
  (- 2 ^ 53 < z < 2 ^ 53)%Z -> int_value (round_Q (inject_Z z)) z.
Proof.
  intros H. unfold round_Q.
  destruct (Qcompare_spec (inject_Z z) 0) as [C|C|C].
  - split; [reflexivity|]. cbn [F2Q]. lra.
  - assert (Hz : (z < 0)%Z) by (rewrite Zlt_Qlt; exact C).
    rewrite (round_pos_comp true _ (inject_Z (- z))).
    + pose proof (round_pos_int true (- z)) as X.
      rewrite Z.opp_involutive in X. apply X. lia.
    + lra.
    + rewrite inject_Z_opp. reflexivity.
  - assert (Hz : (0 < z)%Z) by (rewrite Zlt_Qlt; exact C).
    apply (round_pos_int false z). lia.
Qed.

Lemma int_of_Z (z : Z) : (- 2 ^ 53 < z < 2 ^ 53)%Z -> int_value (of_Z z) z.
Proof. apply round_Q_int. Qed.

Lemma int_fopp (x : number) (a : Z) : int_value x a -> int_value (- x)%num (- a).
Proof.
  intros (F & E). destruct x as [s|s| |s m e]; try discriminate F;
    (split; [reflexivity|]); rewrite inject_Z_opp; cbn [fopp F2Q] in *.
  - lra.
  - destruct s; cbn [negb]; lra.
Qed.

Lemma int_fadd (x y : number) (a b : Z) :
  int_value x a -> int_value y b -> (- 2 ^ 53 < a + b < 2 ^ 53)%Z ->
  int_value (x + y)%num (a + b).
Proof.
  intros (Fx & Ex) (Fy & Ey) H.
  assert (E : F2Q x + F2Q y == inject_Z (a + b))
    by (rewrite inject_Z_plus, Ex, Ey; reflexivity).
  destruct x as [sx|sx| |sx mx ex]; try discriminate Fx;
    destruct y as [sy|sy| |sy my ey]; try discriminate Fy; cbn [fadd].
  - split; [destruct (Bool.eqb sx sy); reflexivity|].
    cbn [F2Q] in E. destruct (Bool.eqb sx sy); cbn [F2Q]; lra.
  - split; [reflexivity|]. change (F2Q (S754_zero sx)) with 0 in E. lra.
  - split; [reflexivity|]. change (F2Q (S754_zero sy)) with 0 in E. lra.
  - rewrite (round_Q_comp _ _ E). apply round_Q_int, H.
Qed.

Lemma int_fsub (x y : number) (a b : Z) :
  int_value x a -> int_value y b -> (- 2 ^ 53 < a - b < 2 ^ 53)%Z ->
  int_value (x - y)%num (a - b).
Proof.
  intros Hx Hy H. unfold fsub. apply int_fadd; [exact Hx | apply int_fopp, Hy | lia].
Qed.

(** The magnitude and the sign of a finite Number that is not a zero. *)
Lemma int_finite_inv (s : bool) (m : positive) (e : Z) (a : Z) :
  int_value (S754_finite s m e) a ->
  Fabs m e == inject_Z (Z.abs a) /\ (0 < Z.abs a)%Z /\ s = (a <? 0)%Z.
Proof.
  intros (_ & E). cbn [F2Q] in E. pose proof (Fabs_pos m e) as P.
  destruct s.
  - assert (Ha : (a < 0)%Z).
    { rewrite Zlt_Qlt. change (inject_Z 0) with 0. lra. }
    rewrite Z.abs_neq by lia. rewrite inject_Z_opp.
    split; [lra|]. split; [lia|]. symmetry. apply Z.ltb_lt, Ha.
  - assert (Ha : (0 < a)%Z).
    { rewrite Zlt_Qlt. change (inject_Z 0) with 0. lra. }
    rewrite Z.abs_eq by lia.
    split; [lra|]. split; [lia|]. symmetry. apply Z.ltb_ge. lia.
Qed.

Lemma int_zero_inv (s : bool) (a : Z) : int_value (S754_zero s) a -> a = 0%Z.
Proof.
  intros (_ & E). cbn [F2Q] in E. apply inject_Z_injective.
  change (inject_Z 0) with 0. lra.
Qed.

Lemma xorb_ltb (a b : Z) :
  (0 < Z.abs a)%Z -> (0 < Z.abs b)%Z ->
  (if xorb (a <? 0)%Z (b <? 0)%Z then - (Z.abs a * Z.abs b) else Z.abs a * Z.abs b)%Z
  = (a * b)%Z.
Proof.
  intros Ha Hb.
  destruct (Z.ltb_spec a 0), (Z.ltb_spec b 0); cbn [xorb]; nia.
Qed.

Lemma int_fmul (x y : number) (a b : Z) :
  int_value x a -> int_value y b -> (- 2 ^ 53 < a * b < 2 ^ 53)%Z ->
  int_value (x * y)%num (a * b).
Proof.
  intros Hx Hy H.
  destruct x as [sx|sx| |sx mx ex]; try (destruct Hx as (Fx & _); discriminate Fx);
    destruct y as [sy|sy| |sy my ey]; try (destruct Hy as (Fy & _); discriminate Fy);
    cbn [fmul sign].
  - rewrite (int_zero_inv _ _ Hx). split; reflexivity.
  - rewrite (int_zero_inv _ _ Hx). split; reflexivity.
  - rewrite (int_zero_inv _ _ Hy), Z.mul_0_r. split; reflexivity.
  - destruct (int_finite_inv _ _ _ _ Hx) as (Ex & Px & ->).
    destruct (int_finite_inv _ _ _ _ Hy) as (Ey & Py & ->).
    rewrite (round_pos_comp _ _ (inject_Z (Z.abs a * Z.abs b))).
    + rewrite <- (xorb_ltb a b Px Py). apply round_pos_int. nia.
    + apply Qmult_lt_0_compat; apply Fabs_pos.
    + rewrite inject_Z_mult, Ex, Ey. reflexivity.
Qed.

Lemma int_fdiv (x y : number) (a b q : Z) :
  int_value x a -> int_value y b -> b <> 0%Z -> a = (q * b)%Z ->
  (- 2 ^ 53 < q < 2 ^ 53)%Z ->
  int_value (x / y)%num q.
Proof.
  intros Hx Hy Hb Ha H.
  destruct x as [sx|sx| |sx mx ex]; try (destruct Hx as (Fx & _); discriminate Fx);
    destruct y as [sy|sy| |sy my ey]; try (destruct Hy as (Fy & _); discriminate Fy);
    cbn [fdiv sign].
  - exfalso. apply Hb, (int_zero_inv _ _ Hy).
  - pose proof (int_zero_inv _ _ Hx) as E0.
    assert (q = 0%Z) by nia. subst q. split; reflexivity.
  - exfalso. apply Hb, (int_zero_inv _ _ Hy).
  - destruct (int_finite_inv _ _ _ _ Hx) as (Ex & Px & ->).
    destruct (int_finite_inv _ _ _ _ Hy) as (Ey & Py & ->).
    assert (Pq : (0 < Z.abs q)%Z) by nia.
    rewrite (round_pos_comp _ _ (inject_Z (Z.abs q))).
    + assert (S : (if xorb (a <? 0)%Z (b <? 0)%Z then - Z.abs q else Z.abs q)%Z = q).
      { subst a. destruct (Z.ltb_spec (q * b) 0), (Z.ltb_spec b 0); cbn [xorb]; nia. }
      rewrite <- S at 2. apply round_pos_int. lia.
    + apply Qlt_shift_div_l; [apply Fabs_pos|]. pose proof (Fabs_pos mx ex). lra.
    + rewrite Ex, Ey. subst a. rewrite Z.abs_mul, inject_Z_mult.
      field. intros C. assert (0 < inject_Z (Z.abs b)) by (apply inject_Z_pos, Py). lra.
Qed.

Lemma int_Math_ceil (x : number) (a : Z) :
  int_value x a -> (- 2 ^ 53 < a < 2 ^ 53)%Z -> int_value (Math_ceil x) a.
Proof.
  intros Hx H. destruct x as [s|s| |s m e];
    try (destruct Hx as (Fx & _); discriminate Fx); [exact Hx|].
  destruct (int_finite_inv _ _ _ _ Hx) as (_ & P & _).
  destruct Hx as (_ & E). unfold Math_ceil.
  assert (C : Qceiling (F2Q (S754_finite s m e)) = a).
  { unfold Qceiling. rewrite E, <- inject_Z_opp, Qfloor_Z. lia. }
  rewrite C. destruct (Z.eqb_spec a 0); [lia|]. apply int_of_Z, H.
Qed.

Lemma int_flt (x y : number) (a b : Z) :
  int_value x a -> int_value y b -> flt x y = (a <? b)%Z.
Proof.
  intros (Fx & Ex) (Fy & Ey). unfold flt.
  assert (C : fcompare x y = Some (F2Q x ?= F2Q y)).
  { destruct x as [sx|sx| |sx mx ex]; try discriminate Fx;
      destruct y as [sy|sy| |sy my ey]; try discriminate Fy; reflexivity. }
  rewrite C, (Qcompare_comp _ _ Ex _ _ Ey).
  destruct (Z.ltb_spec a b) as [L|L].
  - rewrite Zlt_Qlt in L. rewrite (proj1 (Qlt_alt _ _) L). reflexivity.
  - rewrite Zle_Qle in L. destruct (Qcompare_spec (inject_Z a) (inject_Z b)) as [K|K|K];
      try reflexivity. exfalso. lra.
Qed.

End JSNumberIntegerFacts.

(* ================================================================== *)
(** * generateBudgetAnalysis: inputs nobody checks                      *)
(* ================================================================== *)

Module BudgetAnalystAgentEdgeFacts.
Import JSNumber JSNumberFacts JSNumberEdgeFacts JSString JSStringFacts.
Import BudgetAnalystAgent Examples BudgetAnalystAgentFacts.

(** Once an amount is NaN the total is NaN. *)
Lemma fold_sum_nan (l : list Category) :
  fold_left (fun sum category => (sum + amount category)%num) l S754_nan = S754_nan.
Proof. induction l as [|c l IH]; [reflexivity|exact IH]. Qed.

Lemma fold_sum_has_nan (l : list Category) (s : number) :
  Exists (fun c => is_nan (amount c) = true) l ->
  fold_left (fun sum category => (sum + amount category)%num) l s = S754_nan.
Proof.
  intros H. revert s. induction H as [c l H|c l _ IH]; intros s.
  - cbn [fold_left]. rewrite (is_nan_eq _ H), fadd_nan_r. apply fold_sum_nan.
  - cbn [fold_left]. apply IH.
Qed.

(** With a total that is NaN the variance and its percentage are NaN and
    the status is on-track. *)
Lemma finishAnalysis_nan (D B M : number) (b : BudgetBreakdown) (data : TripData) :
  Exists (fun c => is_nan (amount c) = true) (Object_values b) ->
  let a := finishAnalysis D B M b data in
  totalEstimated a = S754_nan /\ variance a = S754_nan
  /\ variancePercentage a = S754_nan /\ budgetStatus a = on_track
  /\ recommendations a = statusTips on_track ++ universalTips.
Proof.
  intros H a. subst a.
  assert (E : totalEstimated (finishAnalysis D B M b data) = S754_nan).
  { rewrite totalEstimated_finish. apply fold_sum_has_nan, H. }
  assert (V : variance (finishAnalysis D B M b data) = S754_nan).
  { rewrite variance_finish, E. apply fsub_nan_l. }
  assert (S : budgetStatus (finishAnalysis D B M b data) = on_track).
  { rewrite budgetStatus_finish, V, flt_nan_l, fgt_nan_l. reflexivity. }
  split; [exact E|]. split; [exact V|]. split.
  - rewrite variancePercentage_finish, V, fdiv_nan_l. apply fmul_nan_l.
  - split; [exact S|].
    rewrite recommendations_finish, S. apply generateRecommendations_order.
Qed.

Lemma totalDaysOf_nan (Date_getTime : string -> number) (data : TripData) :
  is_nan (Date_getTime (startDate data)) = true
  \/ is_nan (Date_getTime (endDate data)) = true ->
  totalDaysOf Date_getTime data = S754_nan.
Proof.
  unfold totalDaysOf. intros [H|H]; rewrite (is_nan_eq _ H).
  - rewrite fsub_nan_r, fdiv_nan_l. reflexivity.
  - rewrite fsub_nan_l, fdiv_nan_l. reflexivity.
Qed.

Lemma breakdownOf_nan_days (T M : number) :
  let b := breakdownOf S754_nan T M in
  amount (flights b) = Math_round (of_Z 600 * T * lit 1.0 * M)%num
  /\ amount (accommodation b) = S754_nan /\ amount (food b) = S754_nan
  /\ amount (activities b) = S754_nan /\ amount (transportation b) = S754_nan
  /\ amount (miscellaneous b) = S754_nan.
Proof.
  unfold breakdownOf;
    cbn [flights accommodation food activities transportation miscellaneous amount].
  rewrite fgt_nan_l, !fmul_nan_r, !fmul_nan_l.
  repeat split.
Qed.

(** X1.  A start or an end date that does not parse goes unnoticed.  The
    day count is NaN, and so are the five amounts computed from it, the
    total, the variance and its percentage.  The flights amount is computed
    as for any trip, and since every comparison with NaN is false the status
    is [on_track], with the recommendations of a trip on track. *)
Theorem invalid_dates_go_unnoticed (Date_getTime : string -> number)
    (data : TripData) (it : option ItineraryPlan) :
  is_nan (Date_getTime (startDate data)) = true
  \/ is_nan (Date_getTime (endDate data)) = true ->
  let a := generateBudgetAnalysis Date_getTime data it in
  let b := breakdown a in
  is_nan (totalDaysOf Date_getTime data) = true
  /\ amount (flights b)
     = Math_round (of_Z 600 * travelersOf data * lit 1.0
                   * getDestinationMultiplier (destination data))%num
  /\ Forall (fun c => is_nan (amount c) = true)
       [accommodation b; food b; activities b; transportation b; miscellaneous b]
  /\ is_nan (totalEstimated a) = true
  /\ is_nan (variance a) = true
  /\ is_nan (variancePercentage a) = true
  /\ budgetStatus a = on_track
  /\ recommendations a = statusTips on_track ++ universalTips.
Proof.
  intros H a b. subst b a. unfold generateBudgetAnalysis.
  rewrite (totalDaysOf_nan _ _ H), analysisOf_finish, breakdown_finish.
  generalize (travelersOf data) (originalBudgetOf data)
    (getDestinationMultiplier (destination data)).
  intros T B M.
  destruct (breakdownOf_nan_days T M) as (F & A1 & A2 & A3 & A4 & A5).
  cbv zeta in F, A1, A2, A3, A4, A5.
  assert (X : Exists (fun c => is_nan (amount c) = true)
                (Object_values (breakdownOf S754_nan T M))).
  { unfold Object_values. apply Exists_cons_tl, Exists_cons_hd.
    cbv beta. rewrite A1. reflexivity. }
  destruct (finishAnalysis_nan S754_nan B M _ data X) as (E & V & P & S & R).
  cbv zeta in E, V, P, S, R.
  split; [reflexivity|]. split; [exact F|]. split.
  - repeat constructor; cbv beta; rewrite ?A1, ?A2, ?A3, ?A4, ?A5; reflexivity.
  - rewrite E, V, P. repeat split; assumption.
Qed.

(** X1 at a trip whose start date is written 15/03/2025. *)
Lemma invalid_dates_go_unnoticed_witness :
  is_nan (isoDate (startDate slashDateTrip)) = true
  /\ budgetStatus (generateBudgetAnalysis isoDate slashDateTrip None) = on_track.
Proof.
  assert (H : is_nan (isoDate (startDate slashDateTrip)) = true)
    by (vm_compute; reflexivity).
  pose proof (invalid_dates_go_unnoticed isoDate slashDateTrip None (or_introl H)) as X.
  cbv zeta in X.
  exact (conj H (proj1 (proj2 (proj2 (proj2 (proj2 (proj2 (proj2 X)))))))).
Defined.

Lemma parseInt_well_formed (s : string) : well_formed (parseInt s) = true.
Proof.
  unfold parseInt.
  destruct (match trimStart s with
            | String "-" rest => (true, rest)
            | String "+" rest => (false, rest)
            | _ => (false, trimStart s)
            end) as [neg s1].
  destruct (match s1 with
            | String "0" (String "x" rest) | String "0" (String "X" rest) => (16, rest)
            | _ => (10, s1)
            end) as [radix s2].
  destruct (parse_digits radix s2 None) as [[|p|p]|]; try reflexivity;
    apply of_Z_well_formed.
Qed.

Lemma or_else_negative (x d : number) : flt x zero = true -> or_else x d = x.
Proof. intros H. unfold or_else. rewrite (negative_truthy _ H). reflexivity. Qed.

Lemma breakdownOf_negative_travelers (D T M : number) :
  flt T zero = true ->
  amount (accommodation (breakdownOf D T M)) = S754_nan
  /\ amount (transportation (breakdownOf D T M)) = S754_nan.
Proof.
  intros H. unfold breakdownOf; cbn [accommodation transportation amount].
  rewrite (Math_sqrt_negative _ H), !fmul_nan_r, !fmul_nan_l. split; reflexivity.
Qed.

(** X2.  A negative traveller count is used as it is read: only 0 and NaN
    fall back to 1.  The square root of the count in the accommodation and
    the transportation amounts is then NaN, and with them the total, the
    variance and its percentage are NaN; the status is [on_track]. *)
Theorem negative_travellers_go_unnoticed (Date_getTime : string -> number)
    (data : TripData) (it : option ItineraryPlan) :
  flt (parseInt (travellers data)) zero = true ->
  let a := generateBudgetAnalysis Date_getTime data it in
  let b := breakdown a in
  travelersOf data = parseInt (travellers data)
  /\ is_nan (amount (accommodation b)) = true
  /\ is_nan (amount (transportation b)) = true
  /\ is_nan (totalEstimated a) = true
  /\ is_nan (variance a) = true
  /\ is_nan (variancePercentage a) = true
  /\ budgetStatus a = on_track.
Proof.
  intros H a b. subst b a. unfold generateBudgetAnalysis.
  assert (ET : travelersOf data = parseInt (travellers data))
    by (apply or_else_negative, H).
  rewrite ET, analysisOf_finish, breakdown_finish.
  revert H. generalize (parseInt (travellers data)) (totalDaysOf Date_getTime data)
    (originalBudgetOf data) (getDestinationMultiplier (destination data)).
  intros T D B M H.
  destruct (breakdownOf_negative_travelers D T M H) as (A1 & A2).
  assert (X : Exists (fun c => is_nan (amount c) = true)
                (Object_values (breakdownOf D T M))).
  { unfold Object_values. apply Exists_cons_tl, Exists_cons_hd.
    cbv beta. rewrite A1. reflexivity. }
  destruct (finishAnalysis_nan D B M _ data X) as (E & V & P & S & R).
  cbv zeta in E, V, P, S, R.
  rewrite A1, A2, E, V, P. repeat split. exact S.
Qed.

(** X2 at a trip for -2 travellers. *)
Lemma negative_travellers_go_unnoticed_witness :
  flt (parseInt (travellers minusTwoTrip)) zero = true
  /\ budgetStatus (generateBudgetAnalysis isoDate minusTwoTrip None) = on_track.
Proof.
  assert (H : flt (parseInt (travellers minusTwoTrip)) zero = true)
    by (vm_compute; reflexivity).
  pose proof (negative_travellers_go_unnoticed isoDate minusTwoTrip None H) as X.
  cbv zeta in X.
  exact (conj H (proj2 (proj2 (proj2 (proj2 (proj2 (proj2 X))))))).
Defined.

(** X3.  A negative budget is used as it is read: only 0 and NaN fall back
    to 2000.  For a trip of at least one day and one traveller the variance
    is then greater than zero and the status is [over]. *)
Theorem negative_budget_is_over (Date_getTime : string -> number)
    (data : TripData) (it : option ItineraryPlan) :
  fle (of_Z 1) (totalDaysOf Date_getTime data) = true ->
  fle (of_Z 1) (travelersOf data) = true ->
  flt (parseInt (budget data)) zero = true ->
  let a := generateBudgetAnalysis Date_getTime data it in
  originalBudget a = parseInt (budget data)
  /\ flt zero (variance a) = true
  /\ budgetStatus a = over.
Proof.
  intros HD HT HB a. subst a. unfold generateBudgetAnalysis.
  assert (EB : originalBudgetOf data = parseInt (budget data))
    by (apply or_else_negative, HB).
  assert (WB : well_formed (parseInt (budget data)) = true)
    by apply parseInt_well_formed.
  rewrite EB.
  assert (P1 : flt zero (of_Z 1) = true) by (vm_compute; reflexivity).
  pose proof (fle_refl _ (fle_not_nan_r _ _ HD)) as RD.
  pose proof (fle_refl _ (fle_not_nan_r _ _ HT)) as RT.
  pose proof (totalEstimated_mono _ _ _ _ (parseInt (budget data))
                (parseInt (budget data)) data it it
                (between_intro _ _ _ P1 HD RD) (between_intro _ _ _ P1 HT RT))
    as (NE & WE & _ & _).
  rewrite analysisOf_finish in NE, WE |- *.
  rewrite originalBudget_finish, budgetStatus_finish, variance_finish.
  revert NE WE.
  generalize (totalEstimated
                (finishAnalysis (totalDaysOf Date_getTime data) (parseInt (budget data))
                   (getDestinationMultiplier (destination data))
                   (breakdownOf (totalDaysOf Date_getTime data) (travelersOf data)
                      (getDestinationMultiplier (destination data))) data)).
  revert HB WB. generalize (parseInt (budget data)). clear. intros B HB WB E NE WE.
  pose proof (negative_opp_positive _ HB) as PB.
  assert (WnB : well_formed (- B)%num = true) by (rewrite fopp_well_formed; exact WB).
  assert (LV : fle (- B)%num (E - B)%num = true).
  { unfold fsub. apply fle_fadd_r; try assumption. apply positive_nonneg, PB. }
  assert (PV : positive_num (E - B)%num) by (apply (positive_fle _ _ PB LV)).
  assert (P5 : positive_num (lit 0.05)) by (apply flt_zero_positive; vm_compute; reflexivity).
  assert (L5 : fle (- B * lit 0.05)%num (- B)%num = true).
  { rewrite <- (fmul_one_r (- B)%num WnB) at 2.
    apply fmul_mono; try assumption.
    - apply fle_refl. destruct PB; reflexivity.
    - vm_compute. reflexivity. }
  split; [reflexivity|]. split; [apply flt_zero_positive, PV|].
  rewrite (fle_not_flt _ _ (fle_trans _ _ _ L5 LV)).
  rewrite fgt_flt.
  assert (G : flt (B * lit 0.05)%num (E - B)%num = true).
  { rewrite <- (fopp_involutive B) at 1. rewrite fmul_opp_l.
    apply flt_opp_positive; [|exact PV].
    apply fmul_positive_nonneg; assumption. }
  rewrite G. reflexivity.
Qed.

(** X3 at a trip with a budget of -500. *)
Lemma negative_budget_is_over_witness :
  fle (of_Z 1) (totalDaysOf isoDate debtTrip) = true
  /\ fle (of_Z 1) (travelersOf debtTrip) = true
  /\ flt (parseInt (budget debtTrip)) zero = true
  /\ budgetStatus (generateBudgetAnalysis isoDate debtTrip None) = over.
Proof.
  assert (H1 : fle (of_Z 1) (totalDaysOf isoDate debtTrip) = true)
    by (vm_compute; reflexivity).
  assert (H2 : fle (of_Z 1) (travelersOf debtTrip) = true)
    by (vm_compute; reflexivity).
  assert (H3 : flt (parseInt (budget debtTrip)) zero = true)
    by (vm_compute; reflexivity).
  pose proof (negative_budget_is_over isoDate debtTrip None H1 H2 H3) as X.
  cbv zeta in X.
  exact (conj H1 (conj H2 (conj H3 (proj2 (proj2 X))))).
Defined.

(** ** Amounts from one day and one traveller on *)

Lemma breakdownOf_positive (D T M : number) :
  between (of_Z 1) D D -> between (of_Z 1) T T ->
  M = lit 1.5 \/ M = lit 1.3 \/ M = lit 0.9 \/ M = lit 0.6 \/ M = lit 1.0 ->
  Forall (fun c => positive_num (amount c)) (Object_values (breakdownOf D T M)).
Proof.
  intros HD HT HM.
  assert (HDD : fle D D = true) by apply HD.
  unfold Object_values, breakdownOf; cbn [flights accommodation food activities
    transportation miscellaneous amount].
  destruct HM as [->|[->|[->|[->| ->]]]];
    repeat (apply Forall_cons;
            [eapply between_round_positive;
             [solve_between | vm_compute; reflexivity]|]);
    apply Forall_nil.
Qed.

Lemma fold_sum_positive (l : list Category) (s : number) :
  Forall (fun c => rounded_amount (amount c)) l ->
  positive_num s -> well_formed s = true ->
  positive_num (fold_left (fun sum category => (sum + amount category)%num) l s).
Proof.
  intros H P W.
  apply (positive_fle s); [exact P|].
  apply fold_sum_ge; [exact H | apply positive_nonneg, P | exact W].
Qed.

(** X4.  From one day and one traveller on, every amount of the breakdown
    is greater than zero, and so is the total, whatever the destination and
    the budget (an amount may be [+Infinity]; none is NaN, zero or
    negative). *)
Theorem amounts_positive (D T B : number) (data : TripData)
    (it : option ItineraryPlan) :
  fle (of_Z 1) D = true -> fle (of_Z 1) T = true ->
  let a := analysisOf D T B data it in
  Forall (fun c => flt zero (amount c) = true) (Object_values (breakdown a))
  /\ flt zero (totalEstimated a) = true.
Proof.
  intros HD HT a. subst a.
  rewrite breakdown_analysisOf, totalEstimated_analysisOf.
  assert (P1 : flt zero (of_Z 1) = true) by (vm_compute; reflexivity).
  pose proof (fle_refl D (fle_not_nan_r _ _ HD)) as RD.
  pose proof (fle_refl T (fle_not_nan_r _ _ HT)) as RT.
  pose proof (getDestinationMultiplier_cases (destination data)) as HM.
  cbv zeta in HM.
  pose proof (breakdownOf_positive D T _ (between_intro _ _ _ P1 HD RD)
                (between_intro _ _ _ P1 HT RT) HM) as HP.
  pose proof (breakdownOf_rounded D T _ (between_intro _ _ _ P1 HD RD)
                (between_intro _ _ _ P1 HT RT) HM) as HR.
  revert HP HR.
  generalize (breakdownOf D T (getDestinationMultiplier (destination data))).
  intros b HP HR. split.
  - eapply Forall_impl; [|exact HP]. intros c Hc. apply flt_zero_positive, Hc.
  - unfold Object_values in *.
    apply flt_zero_positive.
    inversion HP as [|c0 l0 P0 _]; subst.
    inversion HR as [|c1 l1 (N0 & W0 & _) HR']; subst.
    apply (fold_sum_positive
             [accommodation b; food b; activities b; transportation b;
              miscellaneous b] (of_Z 0 + amount (flights b))%num);
      [exact HR'| |].
    + change (of_Z 0) with (S754_zero false).
      rewrite fadd_zero_positive_l; assumption.
    + change (of_Z 0) with (S754_zero false).
      rewrite fadd_zero_positive_l; assumption.
Qed.

(** X4 at the scenario: five days, two travellers. *)
Lemma amounts_positive_witness :
  fle (of_Z 1) (of_Z 5) = true /\ fle (of_Z 1) (of_Z 2) = true
  /\ flt zero (totalEstimated (analysisOf (of_Z 5) (of_Z 2) (of_Z 1000) scenarioTrip None))
     = true.
Proof.
  assert (H1 : fle (of_Z 1) (of_Z 5) = true) by (vm_compute; reflexivity).
  assert (H2 : fle (of_Z 1) (of_Z 2) = true) by (vm_compute; reflexivity).
  pose proof (amounts_positive (of_Z 5) (of_Z 2) (of_Z 1000) scenarioTrip None H1 H2)
    as X.
  cbv zeta in X.
  exact (conj H1 (conj H2 (proj2 X))).
Defined.

(** A saving is a share of a positive amount. *)
Lemma saving_bounded (a r : number) :
  positive_num a -> rounded_amount a -> Math_round a = a ->
  positive_num r -> fle r (of_Z 1) = true ->
  fle zero (Math_round (a * r)%num) = true
  /\ fle (Math_round (a * r)%num) a = true.
Proof.
  intros Pa (Na & Wa & _) Ia Pr Lr.
  assert (N : nonneg (a * r)%num) by (apply fmul_positive_nonneg; assumption).
  split.
  - apply nonneg_fle_zero, Math_round_nonneg, N.
  - rewrite <- Ia at 2. apply Math_round_mono; [exact N|].
    rewrite <- (fmul_one_r a Wa) at 2.
    apply fmul_mono; try assumption.
    apply fle_refl. destruct Pa; reflexivity.
Qed.

Lemma breakdownOf_fixed (D T M : number) :
  between (of_Z 1) D D -> between (of_Z 1) T T ->
  M = lit 1.5 \/ M = lit 1.3 \/ M = lit 0.9 \/ M = lit 0.6 \/ M = lit 1.0 ->
  Forall (fun c => Math_round (amount c) = amount c)
    (Object_values (breakdownOf D T M)).
Proof.
  intros HD HT HM.
  assert (HDD : fle D D = true) by apply HD.
  unfold Object_values, breakdownOf; cbn [flights accommodation food activities
    transportation miscellaneous amount].
  destruct HM as [->|[->|[->|[->| ->]]]];
    repeat (apply Forall_cons;
            [apply Math_round_idempotent; eapply between_nonneg; solve_between|]);
    apply Forall_nil.
Qed.

(** X5.  From one day and one traveller on, the potential saving of each
    of the four cost-saving tips is at least zero and at most the amount of
    the category it is computed from: flights, accommodation, food and
    transportation, in this order. *)
Theorem potentialSavings_bounded (D T B : number) (data : TripData)
    (it : option ItineraryPlan) :
  fle (of_Z 1) D = true -> fle (of_Z 1) T = true ->
  let a := analysisOf D T B data it in
  let b := breakdown a in
  Forall2 (fun t c => fle zero (potentialSavings t) = true
                      /\ fle (potentialSavings t) (amount c) = true)
    (costSavingTips a) [flights b; accommodation b; food b; transportation b].
Proof.
  intros HD HT a b. subst b a.
  rewrite analysisOf_finish, costSavingTips_finish, breakdown_finish.
  assert (P1 : flt zero (of_Z 1) = true) by (vm_compute; reflexivity).
  pose proof (fle_refl D (fle_not_nan_r _ _ HD)) as RD.
  pose proof (fle_refl T (fle_not_nan_r _ _ HT)) as RT.
  pose proof (getDestinationMultiplier_cases (destination data)) as HM.
  cbv zeta in HM.
  pose proof (breakdownOf_positive D T _ (between_intro _ _ _ P1 HD RD)
                (between_intro _ _ _ P1 HT RT) HM) as HP.
  pose proof (breakdownOf_rounded D T _ (between_intro _ _ _ P1 HD RD)
                (between_intro _ _ _ P1 HT RT) HM) as HR.
  pose proof (breakdownOf_fixed D T _ (between_intro _ _ _ P1 HD RD)
                (between_intro _ _ _ P1 HT RT) HM) as HF.
  revert HP HR HF.
  generalize (breakdownOf D T (getDestinationMultiplier (destination data))).
  intros b HP HR HF. unfold Object_values in *.
  repeat match goal with
         | H : Forall _ (_ :: _) |- _ =>
             let x := fresh "X" in let y := fresh "Y" in
             inversion H as [|? ? x y]; subst; clear H
         | H : Forall _ [] |- _ => clear H
         end.
  unfold generateCostSavingTips.
  repeat (apply Forall2_cons; [cbn [potentialSavings]; apply saving_bounded;
    first [assumption | apply flt_zero_positive; vm_compute; reflexivity
          | vm_compute; reflexivity] |]).
  apply Forall2_nil.
Qed.

(** X5 at the scenario. *)
Lemma potentialSavings_bounded_witness :
  fle (of_Z 1) (of_Z 5) = true /\ fle (of_Z 1) (of_Z 2) = true
  /\ Forall2 (fun t c => fle zero (potentialSavings t) = true
                         /\ fle (potentialSavings t) (amount c) = true)
       (costSavingTips (analysisOf (of_Z 5) (of_Z 2) (of_Z 1000) scenarioTrip None))
       [flights (breakdown (analysisOf (of_Z 5) (of_Z 2) (of_Z 1000) scenarioTrip None));
        accommodation (breakdown (analysisOf (of_Z 5) (of_Z 2) (of_Z 1000) scenarioTrip None));
        food (breakdown (analysisOf (of_Z 5) (of_Z 2) (of_Z 1000) scenarioTrip None));
        transportation (breakdown (analysisOf (of_Z 5) (of_Z 2) (of_Z 1000) scenarioTrip None))].
Proof.
  assert (H1 : fle (of_Z 1) (of_Z 5) = true) by (vm_compute; reflexivity).
  assert (H2 : fle (of_Z 1) (of_Z 2) = true) by (vm_compute; reflexivity).
  exact (conj H1 (conj H2
           (potentialSavings_bounded (of_Z 5) (of_Z 2) (of_Z 1000) scenarioTrip None
              H1 H2))).
Defined.

(** X6.  From one day and one traveller on, the amounts are ranked the same
    way for every destination: miscellaneous is at most activities,
    activities is at most food, and transportation is at most
    accommodation. *)
Theorem amounts_ranked (D T B : number) (data : TripData)
    (it : option ItineraryPlan) :
  fle (of_Z 1) D = true -> fle (of_Z 1) T = true ->
  let b := breakdown (analysisOf D T B data it) in
  fle (amount (miscellaneous b)) (amount (activities b)) = true
  /\ fle (amount (activities b)) (amount (food b)) = true
  /\ fle (amount (transportation b)) (amount (accommodation b)) = true.
Proof.
  intros HD HT b. subst b. rewrite breakdown_analysisOf.
  assert (P1 : flt zero (of_Z 1) = true) by (vm_compute; reflexivity).
  pose proof (fle_refl D (fle_not_nan_r _ _ HD)) as RD.
  pose proof (fle_refl T (fle_not_nan_r _ _ HT)) as RT.
  pose proof (between_intro _ _ _ P1 HD RD) as BD.
  pose proof (between_intro _ _ _ P1 HT RT) as BT.
  assert (K1 : between (of_Z 20) (of_Z 20) (of_Z 35))
    by (apply between_intro; vm_compute; reflexivity).
  assert (K2 : between (of_Z 35) (of_Z 35) (of_Z 45))
    by (apply between_intro; vm_compute; reflexivity).
  assert (K3 : between (of_Z 25) (of_Z 25) (of_Z 85))
    by (apply between_intro; vm_compute; reflexivity).
  pose proof (getDestinationMultiplier_cases (destination data)) as HM.
  cbv zeta in HM. revert HM.
  generalize (getDestinationMultiplier (destination data)). intros M HM.
  unfold breakdownOf; cbn [accommodation food activities transportation
    miscellaneous amount].
  destruct HM as [->|[->|[->|[->| ->]]]];
    (split; [|split]);
    (eapply between_round; solve_between).
Qed.

(** X6 at the scenario. *)
Lemma amounts_ranked_witness :
  fle (of_Z 1) (of_Z 5) = true /\ fle (of_Z 1) (of_Z 2) = true
  /\ fle (amount (activities (breakdown
             (analysisOf (of_Z 5) (of_Z 2) (of_Z 1000) scenarioTrip None))))
         (amount (food (breakdown
             (analysisOf (of_Z 5) (of_Z 2) (of_Z 1000) scenarioTrip None)))) = true.
Proof.
  assert (H1 : fle (of_Z 1) (of_Z 5) = true) by (vm_compute; reflexivity).
  assert (H2 : fle (of_Z 1) (of_Z 2) = true) by (vm_compute; reflexivity).
  pose proof (amounts_ranked (of_Z 5) (of_Z 2) (of_Z 1000) scenarioTrip None H1 H2)
    as X.
  cbv zeta in X.
  exact (conj H1 (conj H2 (proj1 (proj2 X)))).
Defined.

(** ** A trip of no days *)

Lemma travelersOf_well_formed (data : TripData) :
  well_formed (travelersOf data) = true.
Proof.
  unfold travelersOf, or_else.
  destruct (truthy (parseInt (travellers data)));
    [apply parseInt_well_formed | reflexivity].
Qed.

Lemma fmul_zero_finite (s : bool) (m : positive) (e : Z) :
  (S754_zero s * S754_finite false m e)%num = S754_zero s.
Proof. destruct s; reflexivity. Qed.

Lemma fmul_const_zero (k : Z) (s : bool) :
  (0 < k)%Z -> is_finite (of_Z k) = true -> (of_Z k * S754_zero s)%num = S754_zero s.
Proof.
  intros Hk F. rewrite (of_Z_pos k Hk) in *.
  destruct (round_pos_spec false (inject_Z k) (inject_Z_pos k Hk))
    as [H1|H1|m' e' H1 H2 H3]; try discriminate F; destruct s; reflexivity.
Qed.

Lemma fmul_zero_multiplier (s : bool) (M : number) :
  M = lit 1.5 \/ M = lit 1.3 \/ M = lit 0.9 \/ M = lit 0.6 \/ M = lit 1.0 ->
  (S754_zero s * M)%num = S754_zero s.
Proof. intros [->|[->|[->|[->| ->]]]]; destruct s; reflexivity. Qed.

Lemma breakdownOf_no_days (s : bool) (T M : number) :
  fle (of_Z 1) T = true -> well_formed T = true -> is_finite T = true ->
  M = lit 1.5 \/ M = lit 1.3 \/ M = lit 0.9 \/ M = lit 0.6 \/ M = lit 1.0 ->
  let b := breakdownOf (S754_zero s) T M in
  amount (flights b) = Math_round (of_Z 600 * T * lit 1.0 * M)%num
  /\ amount (accommodation b) = S754_zero s /\ amount (food b) = S754_zero s
  /\ amount (activities b) = S754_zero s /\ amount (transportation b) = S754_zero s
  /\ amount (miscellaneous b) = S754_zero s.
Proof.
  intros L W F HM b. subst b.
  assert (P1 : positive_num (of_Z 1)) by (apply flt_zero_positive; vm_compute; reflexivity).
  destruct (positive_le_finite T (S754_finite false 9007199254740991 971)
              (positive_fle _ _ P1 L) (fle_max_value T W F) eq_refl) as (m & e & ET).
  destruct (Math_sqrt_finite T L W F) as (m' & e' & ES).
  unfold breakdownOf;
    cbn [flights accommodation food activities transportation miscellaneous amount].
  rewrite ES. subst T.
  assert (G : fgt (S754_zero s) (of_Z 7) = false) by (destruct s; reflexivity).
  rewrite G.
  rewrite !fmul_const_zero by (first [lia | vm_compute; reflexivity]).
  rewrite !fmul_zero_finite, !(fmul_zero_multiplier s M HM).
  repeat split.
Qed.

(** X7.  With a day count of zero, as for a trip that ends on the day it
    starts, and a traveller count that is finite and at least one:
    accommodation, food, activities, transportation and miscellaneous are
    zero, and the total is the flights amount, which is greater than
    zero. *)
Theorem trip_of_no_days (Date_getTime : string -> number)
    (data : TripData) (it : option ItineraryPlan) :
  feq (totalDaysOf Date_getTime data) zero = true ->
  fle (of_Z 1) (travelersOf data) = true ->
  is_finite (travelersOf data) = true ->
  let a := generateBudgetAnalysis Date_getTime data it in
  let b := breakdown a in
  Forall (fun c => feq (amount c) zero = true)
    [accommodation b; food b; activities b; transportation b; miscellaneous b]
  /\ amount (flights b)
     = Math_round (of_Z 600 * travelersOf data * lit 1.0
                   * getDestinationMultiplier (destination data))%num
  /\ flt zero (amount (flights b)) = true
  /\ totalEstimated a = amount (flights b).
Proof.
  intros HD HT FT a b. subst b a. unfold generateBudgetAnalysis.
  destruct (feq_zero_inv _ HD) as (s & ->).
  rewrite breakdown_analysisOf, totalEstimated_analysisOf.
  pose proof (travelersOf_well_formed data) as WT.
  pose proof (getDestinationMultiplier_cases (destination data)) as HM.
  cbv zeta in HM.
  revert HT FT WT HM.
  generalize (travelersOf data) (getDestinationMultiplier (destination data)).
  intros T M HT FT WT HM.
  destruct (breakdownOf_no_days s T M HT WT FT HM) as (F & A1 & A2 & A3 & A4 & A5).
  cbv zeta in F, A1, A2, A3, A4, A5.
  assert (PF : positive_num (amount (flights (breakdownOf (S754_zero s) T M)))).
  { rewrite F.
    assert (P1 : flt zero (of_Z 1) = true) by (vm_compute; reflexivity).
    pose proof (between_intro _ _ _ P1 HT (fle_refl T (fle_not_nan_r _ _ HT))) as BT.
    destruct HM as [->|[->|[->|[->| ->]]]];
      (eapply between_round_positive; [solve_between | vm_compute; reflexivity]). }
  split; [|split; [exact F|split; [apply flt_zero_positive, PF|]]].
  - repeat constructor; cbv beta; rewrite ?A1, ?A2, ?A3, ?A4, ?A5;
      destruct s; reflexivity.
  - unfold Object_values. cbn [fold_left]. rewrite A1, A2, A3, A4, A5.
    change (of_Z 0) with (S754_zero false).
    rewrite (fadd_zero_positive_l _ _ PF).
    rewrite !(fadd_zero_positive_r _ _ PF). reflexivity.
Qed.

(** X7 at a trip that starts and ends on 2025-03-15. *)
Lemma trip_of_no_days_witness :
  feq (totalDaysOf isoDate dayTrip) zero = true
  /\ fle (of_Z 1) (travelersOf dayTrip) = true
  /\ is_finite (travelersOf dayTrip) = true
  /\ totalEstimated (generateBudgetAnalysis isoDate dayTrip None)
     = amount (flights (breakdown (generateBudgetAnalysis isoDate dayTrip None))).
Proof.
  assert (H1 : feq (totalDaysOf isoDate dayTrip) zero = true)
    by (vm_compute; reflexivity).
  assert (H2 : fle (of_Z 1) (travelersOf dayTrip) = true)
    by (vm_compute; reflexivity).
  assert (H3 : is_finite (travelersOf dayTrip) = true)
    by (vm_compute; reflexivity).
  pose proof (trip_of_no_days isoDate dayTrip None H1 H2 H3) as X.
  cbv zeta in X.
  exact (conj H1 (conj H2 (conj H3 (proj2 (proj2 (proj2 X)))))).
Defined.

(** ** Destinations *)

Local Open Scope string_scope.

Lemma tiers_ascii :
  forallb ascii_text veryHighCost = true /\ forallb ascii_text highCost = true
  /\ forallb ascii_text mediumCost = true /\ forallb ascii_text lowCost = true.
Proof. vm_compute. repeat split. Qed.

Lemma tier_extend (tier : list string) (pre d post : string) :
  forallb ascii_text tier = true ->
  existsb (fun country => includes (toLowerCase d) country) tier = true ->
  existsb (fun country => includes (toLowerCase (pre ++ d ++ post)) country) tier
  = true.
Proof.
  intros A. rewrite !existsb_exists. intros (c & Hin & H). exists c.
  split; [exact Hin|]. rewrite forallb_forall in A.
  apply includes_toLowerCase_extend; [apply A, Hin | exact H].
Qed.

(** The chain of tests, on five distinct results. *)
Lemma chain_extend (v h m l v' h' m' l' : bool)
    (veryHigh high medium low other : number) :
  NoDup [veryHigh; high; medium; low; other] ->
  (v = true -> v' = true) -> (h = true -> h' = true) ->
  (m = true -> m' = true) -> (l = true -> l' = true) ->
  let M := if v then veryHigh else if h then high else if m then medium
           else if l then low else other in
  let M' := if v' then veryHigh else if h' then high else if m' then medium
            else if l' then low else other in
  (M = veryHigh -> M' = veryHigh)
  /\ (M = high -> M' = veryHigh \/ M' = high)
  /\ (M = medium -> M' = veryHigh \/ M' = high \/ M' = medium)
  /\ (M = low -> M' <> other)
  /\ (M <> other -> M' <> other).
Proof.
  intros N Hv Hh Hm Hl.
  apply NoDup_cons_iff in N. destruct N as (N1 & N).
  apply NoDup_cons_iff in N. destruct N as (N2 & N).
  apply NoDup_cons_iff in N. destruct N as (N3 & N).
  apply NoDup_cons_iff in N. destruct N as (N4 & _).
  cbn [In] in N1, N2, N3, N4.
  assert (Vh : veryHigh <> high) by (intros E; apply N1; auto).
  assert (Vm : veryHigh <> medium) by (intros E; apply N1; auto).
  assert (Vl : veryHigh <> low) by (intros E; apply N1; auto).
  assert (Vo : veryHigh <> other) by (intros E; apply N1; auto).
  assert (Hm' : high <> medium) by (intros E; apply N2; auto).
  assert (Hl' : high <> low) by (intros E; apply N2; auto).
  assert (Ho : high <> other) by (intros E; apply N2; auto).
  assert (Ml : medium <> low) by (intros E; apply N3; auto).
  assert (Mo : medium <> other) by (intros E; apply N3; auto).
  assert (Lo : low <> other) by (intros E; apply N4; auto).
  clear N1 N2 N3 N4.
  destruct v; [try rewrite (Hv eq_refl)|clear Hv];
    (destruct h; [try rewrite (Hh eq_refl)|clear Hh]);
    (destruct m; [try rewrite (Hm eq_refl)|clear Hm]);
    (destruct l; [try rewrite (Hl eq_refl)|clear Hl]);
    destruct v'; destruct h'; destruct m'; destruct l'; cbv zeta;
    repeat split; intros; try congruence; auto.
Qed.

Lemma multipliers_distinct :
  NoDup [lit 1.5; lit 1.3; lit 0.9; lit 0.6; lit 1.0].
Proof.
  repeat (apply NoDup_cons;
          [cbn [In]; intros H;
           repeat (destruct H as [H|H]; [vm_compute in H; discriminate H|]);
           exact H|]).
  apply NoDup_nil.
Qed.

(** X8.  The tier of a destination is found by substring, so text before or
    after a destination never moves it to a cheaper tier: a multiplier of
    1.5 stays, 1.3 stays or becomes 1.5, 0.9 stays or becomes 1.3 or 1.5,
    and a destination that matched a tier never falls back to the default
    1.0. *)
Theorem getDestinationMultiplier_extend (pre d post : string) :
  let M := getDestinationMultiplier d in
  let M' := getDestinationMultiplier (pre ++ d ++ post) in
  (M = lit 1.5 -> M' = lit 1.5)
  /\ (M = lit 1.3 -> M' = lit 1.5 \/ M' = lit 1.3)
  /\ (M = lit 0.9 -> M' = lit 1.5 \/ M' = lit 1.3 \/ M' = lit 0.9)
  /\ (M = lit 0.6 -> M' <> lit 1.0)
  /\ (M <> lit 1.0 -> M' <> lit 1.0).
Proof.
  exact (chain_extend _ _ _ _ _ _ _ _ _ _ _ _ _ multipliers_distinct
           (tier_extend veryHighCost pre d post (proj1 tiers_ascii))
           (tier_extend highCost pre d post (proj1 (proj2 tiers_ascii)))
           (tier_extend mediumCost pre d post (proj1 (proj2 (proj2 tiers_ascii))))
           (tier_extend lowCost pre d post (proj2 (proj2 (proj2 tiers_ascii))))).
Qed.

(** X9.  A destination that is one of the listed countries, in any case of
    letters, gets the multiplier of the list it is in: no country of a list
    is caught by a list tried before it. *)
Theorem listed_countries (d : string) :
  (In (toLowerCase d) veryHighCost -> getDestinationMultiplier d = lit 1.5)
  /\ (In (toLowerCase d) highCost -> getDestinationMultiplier d = lit 1.3)
  /\ (In (toLowerCase d) mediumCost -> getDestinationMultiplier d = lit 0.9)
  /\ (In (toLowerCase d) lowCost -> getDestinationMultiplier d = lit 0.6).
Proof.
  rewrite <- (getDestinationMultiplier_lower d (toLowerCase d)
                (toLowerCase_idempotent d)).
  generalize (toLowerCase d). intros c.
  repeat split; intros H; cbn [In veryHighCost highCost mediumCost lowCost] in H;
    repeat (destruct H as [<-|H]; [vm_compute; reflexivity|]); contradiction.
Qed.

End BudgetAnalystAgentEdgeFacts.

(* ================================================================== *)
(** * generateBudgetAnalysis: the end before the start                  *)
(* ================================================================== *)

Module ReversedDatesFacts.
Import JSNumber JSNumberFacts JSNumberEdgeFacts JSString JSStringFacts.
Import BudgetAnalystAgent Examples BudgetAnalystAgentFacts.
Import BudgetAnalystAgentEdgeFacts.

Local Open Scope Q_scope.

Lemma fmul_opp_r (x y : number) : (x * - y)%num = (- (x * y))%num.
Proof. rewrite fmul_comm, fmul_opp_l, (fmul_comm y x). reflexivity. Qed.

Lemma negative_flt (x : number) : negative_num x -> flt x zero = true.
Proof.
  unfold negative_num. intros H.
  destruct x as [s|s| |s m e]; inversion H.
  - destruct s; [reflexivity|discriminate].
  - destruct s; [|discriminate].
    apply flt_iff. split; [reflexivity|]. split; [reflexivity|].
    right. split; [reflexivity|]. split; [reflexivity|].
    cbn [F2Q]. change (F2Q zero) with 0. pose proof (Fabs_pos m e). lra.
Qed.

(** [Math.round] of a Number that is at most [-1] is negative. *)
Lemma Math_round_negative (y : number) :
  fle (of_Z 1) y = true -> negative_num (Math_round (- y)%num).
Proof.
  intros L.
  assert (P1 : positive_num (of_Z 1)) by (apply flt_zero_positive; vm_compute; reflexivity).
  pose proof (positive_fle _ _ P1 L) as P.
  destruct P as [m e|]; [|constructor].
  change (of_Z 1) with (S754_finite false 4503599627370496 (-52)) in L.
  apply fle_finite in L.
  assert (E1 : Fabs 4503599627370496 (-52) == 1) by reflexivity.
  rewrite E1 in L. clear E1.
  cbn [fopp negb]. unfold Math_round. cbn [F2Q].
  set (n := Qfloor (- Fabs m e + (1 # 2))).
  assert (Hn : (n < 0)%Z).
  { subst n. rewrite Zlt_Qlt.
    apply (Qle_lt_trans _ (- Fabs m e + (1 # 2))); [apply Qfloor_le|].
    change (inject_Z 0) with 0. lra. }
  destruct (Z.eqb_spec n 0); [lia|].
  unfold of_Z, round_Q.
  destruct (Qcompare_spec (inject_Z n) 0) as [C|C|C].
  - exfalso. rewrite Zlt_Qlt in Hn. change (inject_Z 0) with 0 in Hn. lra.
  - unfold negative_num. rewrite round_pos_opp. cbn [negb].
    assert (Q : 0 < - inject_Z n) by lra.
    assert (Hq : 1 <= - inject_Z n).
    { rewrite <- inject_Z_opp. change 1 with (inject_Z 1). rewrite <- Zle_Qle. lia. }
    apply (positive_fle (S754_finite false 4503599627370496 (-52))); [constructor|].
    apply fle_fin_round; [reflexivity|].
    assert (E1 : Fabs 4503599627370496 (-52) == 1) by reflexivity.
    rewrite E1. exact Hq.
  - exfalso. rewrite Zlt_Qlt in Hn. change (inject_Z 0) with 0 in Hn. lra.
Qed.

Lemma fle_fopp (x y : number) :
  fle x y = true -> fle (- y)%num (- x)%num = true.
Proof.
  intros H. apply fle_iff in H. destruct H as (Nx & Ny & E). apply fle_iff.
  split; [destruct y; try discriminate Ny; reflexivity|].
  split; [destruct x; try discriminate Nx; reflexivity|].
  unfold ext_le in *.
  assert (Cx : cls (- x)%num = (- cls x)%Z) by (destruct x as [s|[|]| |s m e]; reflexivity).
  assert (Cy : cls (- y)%num = (- cls y)%Z) by (destruct y as [s|[|]| |s m e]; reflexivity).
  assert (Qx : F2Q (- x)%num == - F2Q x).
  { destruct x as [s|s| |s m e]; cbn [fopp F2Q]; try reflexivity.
    destruct s; cbn [negb]; ring. }
  assert (Qy : F2Q (- y)%num == - F2Q y).
  { destruct y as [s|s| |s m e]; cbn [fopp F2Q]; try reflexivity.
    destruct s; cbn [negb]; ring. }
  rewrite Cx, Cy, Qx, Qy.
  destruct E as [E|(E1 & [E2|E2])].
  - left. lia.
  - right. split; [lia|]. left. lia.
  - right. split; [lia|]. right. lra.
Qed.

(** X10.  An end date at least one day before the start date goes
    unnoticed: with a day count of -1 or less and at least one traveller,
    accommodation, food, activities, transportation and miscellaneous are
    all less than zero, while the flights amount is greater than zero. *)
Theorem reversed_dates (D T B : number) (data : TripData)
    (it : option ItineraryPlan) :
  fle D (of_Z (-1)) = true -> fle (of_Z 1) T = true ->
  let b := breakdown (analysisOf D T B data it) in
  Forall (fun c => flt (amount c) zero = true)
    [accommodation b; food b; activities b; transportation b; miscellaneous b]
  /\ flt zero (amount (flights b)) = true.
Proof.
  intros HD HT b. subst b. rewrite breakdown_analysisOf.
  assert (P1 : flt zero (of_Z 1) = true) by (vm_compute; reflexivity).
  pose proof (fle_refl T (fle_not_nan_r _ _ HT)) as RT.
  pose proof (between_intro _ _ _ P1 HT RT) as BT.
  assert (HD' : fle (of_Z 1) (- D)%num = true).
  { change (of_Z 1) with (- of_Z (-1))%num. apply fle_fopp, HD. }
  pose proof (fle_refl _ (fle_not_nan_r _ _ HD')) as RD'.
  pose proof (between_intro _ _ _ P1 HD' RD') as BD'.
  assert (G : fgt D (of_Z 7) = false).
  { rewrite fgt_flt. destruct (flt (of_Z 7) D) eqn:C; [|reflexivity].
    pose proof (flt_fle_trans _ _ _ C HD) as X. vm_compute in X. discriminate X. }
  pose proof (getDestinationMultiplier_cases (destination data)) as HM.
  cbv zeta in HM. revert HM.
  generalize (getDestinationMultiplier (destination data)). intros M HM.
  unfold breakdownOf; cbn [flights accommodation food activities transportation
    miscellaneous amount].
  rewrite G. rewrite <- (fopp_involutive D).
  revert HD' RD' BD'. generalize (- D)%num. clear HD G D. intros D HD RD BD.
  rewrite !fmul_opp_r, !fmul_opp_l.
  assert (K : forall y, (exists c, between c y y /\ fle (of_Z 1) c = true) ->
              flt (Math_round (- y)%num) zero = true).
  { intros y (c & (_ & L & _) & Hc).
    apply negative_flt, Math_round_negative. apply (fle_trans _ _ _ Hc L). }
  destruct HM as [->|[->|[->|[->| ->]]]]; split;
    try (repeat (apply Forall_cons;
                  [apply K; eexists; split; [solve_between | vm_compute; reflexivity]|]);
         apply Forall_nil);
    apply flt_zero_positive;
    (eapply between_round_positive; [solve_between | vm_compute; reflexivity]).
Qed.

(** X10 at the scenario with a day count of -2. *)
Lemma reversed_dates_witness :
  fle (of_Z (-2)) (of_Z (-1)) = true /\ fle (of_Z 1) (of_Z 2) = true
  /\ flt (amount (accommodation (breakdown
             (analysisOf (of_Z (-2)) (of_Z 2) (of_Z 1000) scenarioTrip None))))
         zero = true.
Proof.
  assert (H1 : fle (of_Z (-2)) (of_Z (-1)) = true) by (vm_compute; reflexivity).
  assert (H2 : fle (of_Z 1) (of_Z 2) = true) by (vm_compute; reflexivity).
  pose proof (reversed_dates (of_Z (-2)) (of_Z 2) (of_Z 1000) scenarioTrip None H1 H2)
    as X.
  cbv zeta in X.
  exact (conj H1 (conj H2 (Forall_inv (proj1 X)))).
Defined.

End ReversedDatesFacts.

(* ================================================================== *)
(** * generateBudgetAnalysis: what parseInt reads                       *)
(* ================================================================== *)

Module ParseIntFacts.
Import JSNumber JSNumberFacts JSNumberEdgeFacts JSString JSStringFacts.
Import BudgetAnalystAgent Examples BudgetAnalystAgentFacts.
Import BudgetAnalystAgentEdgeFacts.

Local Open Scope string_scope.

Lemma parse_digits_stop (ds tail : string) (acc : option Z) :
  forallb is_decimal_digit (list_ascii_of_string ds) = true ->
  starts_without_digit tail = true ->
  parse_digits 10 (ds ++ tail) acc = parse_digits 10 ds acc.
Proof.
  intros Hds Hc. revert acc. induction ds as [|d ds IH]; intros acc.
  - cbn [append parse_digits]. destruct tail as [|c rest]; [reflexivity|].
    cbn [starts_without_digit] in Hc. apply negb_true_iff in Hc.
    cbn [parse_digits]. unfold is_decimal_digit in Hc.
    destruct (digit_value c) as [v|]; [rewrite Hc|]; reflexivity.
  - cbn [list_ascii_of_string forallb] in Hds. apply andb_true_iff in Hds.
    destruct Hds as (Hd & Hds). cbn [append parse_digits].
    unfold is_decimal_digit in Hd.
    destruct (digit_value d) as [v|]; [|discriminate Hd].
    rewrite Hd. apply IH, Hds.
Qed.

(** [parseInt] of a text that, after its leading white space, starts with a
    decimal digit and not with [0x]: the digits are read in base ten. *)
Lemma parseInt_decimal (s : string) (d : ascii) (t : string) :
  trimStart s = String d t ->
  is_decimal_digit d = true ->
  (d = "0"%char -> forall t', t <> String "x" t' /\ t <> String "X" t') ->
  parseInt s
  = match parse_digits 10 (String d t) None with
    | None => S754_nan
    | Some 0%Z => S754_zero false
    | Some n => of_Z n
    end.
Proof.
  intros E Hd Hx. unfold parseInt. rewrite E.
  destruct d as [[] [] [] [] [] [] [] []]; try discriminate Hd; try reflexivity.
  specialize (Hx eq_refl).
  destruct t as [|d1 t]; [reflexivity|].
  destruct d1 as [[] [] [] [] [] [] [] []]; try reflexivity;
    exfalso; destruct (Hx t) as (H1 & H2);
    first [apply H1; reflexivity | apply H2; reflexivity].
Qed.

(** [parseInt] of a text that, after its leading white space, starts with a
    character that is no sign and no decimal digit, or is empty. *)
Lemma parseInt_no_digit (s : string) (c : ascii) (t : string) :
  trimStart s = String c t ->
  c <> "-"%char -> c <> "+"%char -> is_decimal_digit c = false ->
  parseInt s = S754_nan.
Proof.
  intros E Hm Hp Hd. unfold parseInt. rewrite E.
  destruct c as [[] [] [] [] [] [] [] []]; try discriminate Hd;
    try reflexivity; exfalso; first [apply Hm; reflexivity | apply Hp; reflexivity].
Qed.

Lemma parseInt_empty (s : string) : trimStart s = "" -> parseInt s = S754_nan.
Proof. intros E. unfold parseInt. rewrite E. reflexivity. Qed.

Lemma of_Z_truthy (n : Z) : (0 < n)%Z -> truthy (of_Z n) = true.
Proof.
  intros H.
  assert (P : positive_num (of_Z n)).
  { apply (positive_fle (of_Z 1)).
    - apply flt_zero_positive. vm_compute. reflexivity.
    - apply of_Z_mono. lia. }
  destruct P; reflexivity.
Qed.

Lemma parseInt_digits_then (s ds tail : string) (n : Z) :
  trimStart s = ds ++ tail ->
  all_digits ds = Some n -> (0 < n)%Z -> starts_without_digit tail = true ->
  parseInt s = of_Z n.
Proof.
  intros E Ha Hn Hc. unfold all_digits in Ha.
  destruct ds as [|d ds]; [discriminate Ha|].
  destruct (forallb _ (list_ascii_of_string (String d ds))) eqn:F;
    [|discriminate Ha].
  change (forallb is_decimal_digit (list_ascii_of_string (String d ds)) = true) in F.
  pose proof (parse_digits_stop (String d ds) tail None F Hc) as P.
  cbn [append] in P, E.
  assert (Hd : is_decimal_digit d = true).
  { cbn [list_ascii_of_string forallb] in F. apply andb_true_iff in F. apply F. }
  rewrite (parseInt_decimal s d (ds ++ tail) E Hd).
  - rewrite P, Ha. destruct n; [lia|reflexivity|lia].
  - intros -> t'. destruct ds as [|d1 ds].
    + exfalso. cbn in Ha. injection Ha as <-. lia.
    + cbn [append].
      assert (Hd1 : is_decimal_digit d1 = true).
      { cbn [list_ascii_of_string forallb] in F. apply andb_true_iff in F.
        destruct F as (_ & F). apply andb_true_iff in F. apply F. }
      split; intros C; injection C as -> _; discriminate Hd1.
Qed.

(** X11.  What is read of the budget and of the traveller count.  Leading
    white space is skipped, also the white space outside ASCII such as the
    no-break space and the byte order mark, and nothing else is.  When
    decimal digits of value [n > 0] follow, they are read as [n], whatever
    comes after them.  When a character that is no sign and no digit
    follows, the text is no number: the budget is then 2000 and the
    traveller count 1.  A no-break space before [1500] is read as 1500, a
    byte order mark before [3] as 3. *)
Theorem texts_read_by_parseInt (Date_getTime : string -> number)
    (data : TripData) (it : option ItineraryPlan) :
  let a := generateBudgetAnalysis Date_getTime data it in
  (forall w s, In w white_space -> trimStart (w ++ s) = trimStart s)
  /\ (forall s, (forall w, In w white_space -> String.prefix w s = false) ->
                trimStart s = s)
  /\ (forall ds tail n,
        all_digits ds = Some n -> (0 < n)%Z -> starts_without_digit tail = true ->
        (trimStart (budget data) = ds ++ tail -> originalBudget a = of_Z n)
        /\ (trimStart (travellers data) = ds ++ tail -> travelersOf data = of_Z n))
  /\ (forall c rest,
        c <> "-"%char -> c <> "+"%char -> is_decimal_digit c = false ->
        (trimStart (budget data) = String c rest -> originalBudget a = of_Z 2000)
        /\ (trimStart (travellers data) = String c rest ->
            travelersOf data = of_Z 1))
  (* a no-break space before 1500, a byte order mark before 3 *)
  /\ parseInt (String "194" (String "160" "1500")) = of_Z 1500
  /\ parseInt (String "239" (String "187" (String "191" "3"))) = of_Z 3.
Proof.
  intros a. subst a. unfold generateBudgetAnalysis.
  rewrite analysisOf_finish, originalBudget_finish.
  unfold originalBudgetOf, travelersOf.
  split; [intros w s; apply trimStart_white_space|].
  split; [apply trimStart_other|]. split; [|split; [|split]].
  - intros ds tail n Ha Hn Hc.
    split; intros E; rewrite (parseInt_digits_then _ ds tail n E Ha Hn Hc);
      unfold or_else; rewrite (of_Z_truthy n Hn); reflexivity.
  - intros c rest Hm Hp Hd.
    split; intros E; rewrite (parseInt_no_digit _ c rest E Hm Hp Hd); reflexivity.
  - vm_compute. reflexivity.
  - vm_compute. reflexivity.
Qed.

End ParseIntFacts.

(* ================================================================== *)
(** * generateBudgetAnalysis: tiers and unused inputs                   *)
(* ================================================================== *)

Module TierFacts.
Import JSNumber JSNumberFacts JSNumberEdgeFacts JSString JSStringFacts.
Import BudgetAnalystAgent Examples BudgetAnalystAgentFacts.
Import BudgetAnalystAgentEdgeFacts.

Lemma breakdownOf_mono_multiplier (D T M M' : number) :
  between (of_Z 1) D D -> between (of_Z 1) T T -> between (lit 0.6) M M' ->
  Forall2 (fun c c' => amount_le (amount c) (amount c'))
    (Object_values (breakdownOf D T M)) (Object_values (breakdownOf D T M')).
Proof.
  intros HD HT HM.
  assert (HDD : fle D D = true) by apply HD.
  unfold Object_values, breakdownOf; cbn [flights accommodation food activities
    transportation miscellaneous amount].
  repeat (apply Forall2_cons; [eapply between_round; solve_between|]).
  apply Forall2_nil.
Qed.

Lemma multiplier_at_least (destination : string) :
  fle (lit 0.6) (getDestinationMultiplier destination) = true.
Proof.
  destruct (getDestinationMultiplier_cases destination) as [H|[H|[H|[H|H]]]];
    cbv zeta in H; rewrite H; vm_compute; reflexivity.
Qed.

(** X12.  From one day and one traveller on, a destination whose multiplier
    is at least that of another costs at least as much, for the same days
    and travellers: in each of the six categories and in total. *)
Theorem costlier_tier_costs_more (D T B B' : number) (data data' : TripData)
    (it it' : option ItineraryPlan) :
  fle (of_Z 1) D = true -> fle (of_Z 1) T = true ->
  fle (getDestinationMultiplier (destination data))
      (getDestinationMultiplier (destination data')) = true ->
  let b := breakdown (analysisOf D T B data it) in
  let b' := breakdown (analysisOf D T B' data' it') in
  Forall2 (fun c c' => fle (amount c) (amount c') = true)
    (Object_values b) (Object_values b')
  /\ fle (totalEstimated (analysisOf D T B data it))
         (totalEstimated (analysisOf D T B' data' it')) = true.
Proof.
  intros HD HT HM b b'. subst b b'.
  rewrite !breakdown_analysisOf, !totalEstimated_analysisOf.
  assert (P1 : flt zero (of_Z 1) = true) by (vm_compute; reflexivity).
  assert (P6 : flt zero (lit 0.6) = true) by (vm_compute; reflexivity).
  pose proof (fle_refl D (fle_not_nan_r _ _ HD)) as RD.
  pose proof (fle_refl T (fle_not_nan_r _ _ HT)) as RT.
  pose proof (breakdownOf_mono_multiplier D T _ _
                (between_intro _ _ _ P1 HD RD) (between_intro _ _ _ P1 HT RT)
                (between_intro _ _ _ P6 (multiplier_at_least (destination data)) HM))
    as X.
  split.
  - eapply Forall2_impl; [|exact X]. intros c c' H. apply H.
  - apply sum_amounts_mono; [exact X | apply amount_le_zero].
Qed.

(** X12 at Thailand (0.6) against Tokyo, Japan (1.3). *)
Lemma costlier_tier_costs_more_witness :
  fle (of_Z 1) (of_Z 5) = true /\ fle (of_Z 1) (of_Z 2) = true
  /\ fle (getDestinationMultiplier (destination scenarioTrip))
         (getDestinationMultiplier (destination exampleTripData)) = true
  /\ fle (totalEstimated (analysisOf (of_Z 5) (of_Z 2) (of_Z 1000) scenarioTrip None))
         (totalEstimated (analysisOf (of_Z 5) (of_Z 2) (of_Z 1000) exampleTripData None))
     = true.
Proof.
  assert (H1 : fle (of_Z 1) (of_Z 5) = true) by (vm_compute; reflexivity).
  assert (H2 : fle (of_Z 1) (of_Z 2) = true) by (vm_compute; reflexivity).
  assert (H3 : fle (getDestinationMultiplier (destination scenarioTrip))
                 (getDestinationMultiplier (destination exampleTripData)) = true)
    by (vm_compute; reflexivity).
  pose proof (costlier_tier_costs_more (of_Z 5) (of_Z 2) (of_Z 1000) (of_Z 1000)
                scenarioTrip exampleTripData None None H1 H2 H3) as X.
  cbv zeta in X.
  exact (conj H1 (conj H2 (conj H3 (proj2 X)))).
Defined.

(** X13.  Every number of the analysis, its status, its recommendations,
    its cost-saving tips and its risk factors depend on the destination, the
    two dates, the budget and the travellers only: two trips that agree on
    these get the same ones, whatever their sources, their interests and the
    itineraries passed along.  (The source is printed in a display text of
    the flights category, which the embedding leaves out.) *)
Theorem analysis_ignores_source_and_interests (Date_getTime : string -> number)
    (data data' : TripData) (it it' : option ItineraryPlan) :
  destination data = destination data' ->
  startDate data = startDate data' -> endDate data = endDate data' ->
  budget data = budget data' -> travellers data = travellers data' ->
  generateBudgetAnalysis Date_getTime data it
  = generateBudgetAnalysis Date_getTime data' it'.
Proof.
  intros H1 H2 H3 H4 H5.
  unfold generateBudgetAnalysis, totalDaysOf, travelersOf, originalBudgetOf.
  rewrite !analysisOf_finish. rewrite H1, H2, H3, H4, H5.
  generalize (Math_ceil
       ((Date_getTime (endDate data') - Date_getTime (startDate data')) /
        (of_Z 1000 * of_Z 60 * of_Z 60 * of_Z 24))%num)
    (or_else (parseInt (travellers data')) (of_Z 1))
    (or_else (parseInt (budget data')) (of_Z 2000))
    (getDestinationMultiplier (destination data')).
  intros D T B M.
  generalize (breakdownOf D T M). intros b.
  unfold finishAnalysis. cbv zeta.
  assert (R : forall s v, generateRecommendations s v data
                          = generateRecommendations s v data')
    by (intros [] v; reflexivity).
  rewrite R. reflexivity.
Qed.

(** X13 at the scenario, from New York without interests and from Boston
    with one. *)
Lemma analysis_ignores_source_and_interests_witness :
  destination scenarioTrip = destination bostonTrip
  /\ generateBudgetAnalysis isoDate scenarioTrip None
     = generateBudgetAnalysis isoDate bostonTrip None.
Proof.
  assert (H1 : destination scenarioTrip = destination bostonTrip) by reflexivity.
  exact (conj H1 (analysis_ignores_source_and_interests isoDate scenarioTrip
                    bostonTrip None None H1 eq_refl eq_refl eq_refl eq_refl)).
Defined.

End TierFacts.

(* ================================================================== *)
(** * analyzeTripBudget: the fields of the result                       *)
(* ================================================================== *)

Module TravelBudgetAnalystEdgeFacts.
Import JSNumber JSNumberFacts JSNumberEdgeFacts JSString Itinerary.
Import TravelBudgetAnalyst Examples.

Local Open Scope Z_scope.

Lemma Math_max_one (y : number) :
  let r := Math_max (of_Z 1) y in
  is_nan r = is_nan y /\ (is_nan y = false -> fle (of_Z 1) r = true).
Proof.
  unfold Math_max.
  change (is_nan (of_Z 1)) with false. cbn [orb].
  destruct (is_nan y) eqn:N; [split; [reflexivity|discriminate]|].
  assert (R : fle (of_Z 1) (of_Z 1) = true) by (vm_compute; reflexivity).
  assert (S : sign (of_Z 1) = false) by reflexivity.
  destruct (fcompare (of_Z 1) y) as [[| |]|] eqn:C.
  - rewrite S. split; [reflexivity|intros _; exact R].
  - split; [exact N|]. intros _. unfold fle. rewrite C. reflexivity.
  - split; [reflexivity|intros _; exact R].
  - rewrite S. split; [reflexivity|intros _; exact R].
Qed.

(** The fields of the result, from its breakdown. *)
Lemma analyzeTripBudget_fields (Date_getTime : string -> number)
    (trip : TripDetails) (itinerary : list ItineraryItem)
    (flights_ : option FlightSelection) :
  let a := analyzeTripBudget Date_getTime trip itinerary flights_ in
  let total := totalCostOf (breakdown a) in
  totalEstimatedCost a = Math_round total
  /\ costPerPerson a = Math_round (total / travelers trip)%num
  /\ averageDailyCost (analysis a) = Math_round (total / totalDays (analysis a))%num
  /\ (forall k, percentage (category_of (breakdown a) k)
                = (amount (category_of (breakdown a) k) / total * of_Z 100)%num)
  /\ userBudget a = budget trip
  /\ budgetStatus a
     = match budget trip with
       | Some b =>
           if truthy b then
             if (total <? b * lit 0.95)%num then under
             else if (total >? b * lit 1.05)%num then over
             else exact
           else no_budget
       | None => no_budget
       end
  /\ budgetDifference a
     = match budget trip with
       | Some b => if truthy b then Some (total - b)%num else None
       | None => None
       end
  /\ highestCategory (analysis a)
     = reduce_keys (fun prev current =>
         if (amount (category_of (breakdown a) prev)
             >? amount (category_of (breakdown a) current))%num
         then prev else current)
  /\ lowestCategory (analysis a)
     = reduce_keys (fun prev current =>
         if (amount (category_of (breakdown a) prev)
             <? amount (category_of (breakdown a) current))%num
         then prev else current)
  /\ totalDays (analysis a)
     = Math_max (of_Z 1)
         (Math_ceil
            ((match returnDate trip with
              | Some (String c r) => Date_getTime (String c r)
              | _ => TimeClip (Date_getTime (departureDate trip)
                               + of_Z (Z.of_nat (List.length itinerary)) * of_Z 24
                                 * of_Z 60 * of_Z 60 * of_Z 1000)%num
              end - Date_getTime (departureDate trip))
             / (of_Z 1000 * of_Z 60 * of_Z 60 * of_Z 24))%num).
Proof.
  unfold totalCostOf, analyzeTripBudget. cbv zeta.
  cbn [totalEstimatedCost costPerPerson averageDailyCost analysis breakdown
       totalDays amount percentage flights accommodation food activities
       transportation miscellaneous userBudget budgetStatus budgetDifference
       highestCategory lowestCategory].
  repeat split. intros k. destruct k; reflexivity.
Qed.

Ltac fields X :=
  lazymatch goal with
  | |- context [analyzeTripBudget ?g ?trip ?it ?fl] =>
      pose proof (analyzeTripBudget_fields g trip it fl) as X; cbv zeta in X
  end.

(** X14.  The day count of the result is NaN or at least 1, whatever the
    dates, the itinerary and the flights: it is never zero or negative. *)
Theorem totalDays_at_least_one (Date_getTime : string -> number)
    (trip : TripDetails) (itinerary : list ItineraryItem)
    (flights_ : option FlightSelection) :
  let a := analyzeTripBudget Date_getTime trip itinerary flights_ in
  is_nan (totalDays (analysis a)) = true
  \/ fle (of_Z 1) (totalDays (analysis a)) = true.
Proof.
  intros a. subst a. fields X.
  destruct X as (_ & _ & _ & _ & _ & _ & _ & _ & _ & ->).
  match goal with |- context [Math_max _ ?y] =>
    destruct (Math_max_one y) as (N & L); cbv zeta in N, L;
    destruct (is_nan y) eqn:E
  end.
  - left. exact N.
  - right. apply L. reflexivity.
Qed.

(** X15.  The status is [no_budget] exactly when the result carries no
    budget difference, and exactly when the trip has no budget or a budget
    that is falsy (zero or NaN). *)
Theorem no_budget_iff (Date_getTime : string -> number)
    (trip : TripDetails) (itinerary : list ItineraryItem)
    (flights_ : option FlightSelection) :
  let a := analyzeTripBudget Date_getTime trip itinerary flights_ in
  (budgetStatus a = no_budget <-> budgetDifference a = None)
  /\ (budgetStatus a = no_budget <->
      match budget trip with Some b => truthy b = false | None => True end).
Proof.
  intros a. subst a. fields X.
  destruct X as (_ & _ & _ & _ & _ & -> & -> & _).
  destruct (budget trip) as [b|]; [|split; split; reflexivity].
  destruct (truthy b); [|split; split; reflexivity].
  destruct (flt _ _); [|destruct (fgt _ _)];
    split; split; intros H; discriminate H.
Qed.

(** A budget and its margins. *)
Lemma budget_margins (b : number) :
  flt zero b = true -> well_formed b = true ->
  fle (b * lit 0.95)%num b = true /\ fle b (b * lit 1.05)%num = true.
Proof.
  intros P W. apply flt_zero_positive in P.
  assert (R : fle b b = true) by (apply fle_refl; destruct P; reflexivity).
  assert (P1 : positive_num (of_Z 1)) by (apply flt_zero_positive; vm_compute; reflexivity).
  split.
  - rewrite <- (fmul_one_r b W) at 2. apply fmul_mono; try assumption.
    + apply flt_zero_positive. vm_compute. reflexivity.
    + vm_compute. reflexivity.
  - rewrite <- (fmul_one_r b W) at 1. apply fmul_mono; try assumption.
    vm_compute. reflexivity.
Qed.

(** X16.  With a budget greater than zero the result carries the
    difference [totalCost - budget], computed before rounding, and the status
    agrees with its sign: [under] only if the total is less than the budget
    and the difference at most zero, [over] only if the total is greater
    than the budget and the difference at least zero; the status is never
    [no_budget]. *)
Theorem status_agrees_with_difference (Date_getTime : string -> number)
    (trip : TripDetails) (itinerary : list ItineraryItem)
    (flights_ : option FlightSelection) (b : number) :
  budget trip = Some b -> flt zero b = true -> well_formed b = true ->
  let a := analyzeTripBudget Date_getTime trip itinerary flights_ in
  exists d, budgetDifference a = Some d
    /\ d = (totalCostOf (breakdown a) - b)%num
    /\ (budgetStatus a = under ->
        flt (totalCostOf (breakdown a)) b = true /\ fle d zero = true)
    /\ (budgetStatus a = over ->
        flt b (totalCostOf (breakdown a)) = true /\ fle zero d = true)
    /\ budgetStatus a <> no_budget.
Proof.
  intros Hb P W a. subst a. fields X.
  destruct X as (_ & _ & _ & _ & _ & -> & -> & _).
  rewrite Hb.
  assert (T : truthy b = true)
    by (apply flt_zero_positive in P; destruct P; reflexivity).
  rewrite T.
  destruct (budget_margins b P W) as (L95 & L105).
  generalize (totalCostOf
                (breakdown (analyzeTripBudget Date_getTime trip itinerary flights_))).
  intros total.
  exists (total - b)%num. split; [reflexivity|]. split; [reflexivity|].
  rewrite fgt_flt.
  destruct (flt total (b * lit 0.95)%num) eqn:U;
    [|destruct (flt (b * lit 1.05)%num total) eqn:O];
    (split; [|split; [|intros C; discriminate C]]);
    try (intros C; discriminate C); intros _; split.
  - apply (flt_fle_trans _ _ _ U L95).
  - apply (fsub_flt _ _ (flt_fle_trans _ _ _ U L95)).
  - apply (fle_flt_trans _ _ _ L105 O).
  - apply (fsub_flt _ _ (fle_flt_trans _ _ _ L105 O)).
Qed.

(** X16 at a weekend in Paris with a budget of 3000. *)
Lemma status_agrees_with_difference_witness :
  budget lavishTrip = Some (of_Z 3000)
  /\ flt zero (of_Z 3000) = true /\ well_formed (of_Z 3000) = true
  /\ exists d,
       budgetDifference (analyzeTripBudget isoDate lavishTrip [oneDay]
                           (Some weekendFlights)) = Some d
       /\ fle d zero = true.
Proof.
  assert (H1 : budget lavishTrip = Some (of_Z 3000)) by reflexivity.
  assert (H2 : flt zero (of_Z 3000) = true) by (vm_compute; reflexivity).
  assert (H3 : well_formed (of_Z 3000) = true) by (vm_compute; reflexivity).
  assert (H4 : budgetStatus (analyzeTripBudget isoDate lavishTrip [oneDay]
                               (Some weekendFlights)) = under)
    by (vm_compute; reflexivity).
  destruct (status_agrees_with_difference isoDate lavishTrip [oneDay]
              (Some weekendFlights) (of_Z 3000) H1 H2 H3)
    as (d & E & _ & U & _).
  exact (conj H1 (conj H2 (conj H3 (ex_intro _ d (conj E (proj2 (U H4))))))).
Defined.

(** ** The highest and the lowest category *)

Section Extremes.
Variable f : CategoryKey -> number.
Variables higher lower : CategoryKey -> CategoryKey -> CategoryKey.
Hypothesis f_not_nan : forall k, is_nan (f k) = false.
Hypothesis higher_eq : forall prev current,
  higher prev current = if (f prev >? f current)%num then prev else current.
Hypothesis lower_eq : forall prev current,
  lower prev current = if (f prev <? f current)%num then prev else current.

Lemma fold_higher (l : list CategoryKey) (k0 : CategoryKey) :
  fle (f k0) (f (fold_left higher l k0)) = true
  /\ forall k, In k l -> fle (f k) (f (fold_left higher l k0)) = true.
Proof.
  revert k0. induction l as [|x l IH]; intros k0.
  - split; [apply fle_refl, f_not_nan | intros k []].
  - cbn [fold_left]. destruct (IH (higher k0 x)) as (I1 & I2).
    assert (S : fle (f k0) (f (higher k0 x)) = true
                /\ fle (f x) (f (higher k0 x)) = true).
    { rewrite higher_eq, fgt_flt. destruct (flt (f x) (f k0)) eqn:E.
      - split; [apply fle_refl, f_not_nan | apply flt_fle, E].
      - split; [apply flt_false_fle; auto | apply fle_refl, f_not_nan]. }
    destruct S as (S1 & S2). split.
    + apply (fle_trans _ _ _ S1 I1).
    + intros k [<-|H]; [apply (fle_trans _ _ _ S2 I1) | apply I2, H].
Qed.

Lemma fold_lower (l : list CategoryKey) (k0 : CategoryKey) :
  fle (f (fold_left lower l k0)) (f k0) = true
  /\ forall k, In k l -> fle (f (fold_left lower l k0)) (f k) = true.
Proof.
  revert k0. induction l as [|x l IH]; intros k0.
  - split; [apply fle_refl, f_not_nan | intros k []].
  - cbn [fold_left]. destruct (IH (lower k0 x)) as (I1 & I2).
    assert (S : fle (f (lower k0 x)) (f k0) = true
                /\ fle (f (lower k0 x)) (f x) = true).
    { rewrite lower_eq. destruct (flt (f k0) (f x)) eqn:E.
      - split; [apply fle_refl, f_not_nan | apply flt_fle, E].
      - split; [apply flt_false_fle; auto | apply fle_refl, f_not_nan]. }
    destruct S as (S1 & S2). split.
    + apply (fle_trans _ _ _ I1 S1).
    + intros k [<-|H]; [apply (fle_trans _ _ _ I1 S2) | apply I2, H].
Qed.

Lemma reduce_keys_extremes (k : CategoryKey) :
  fle (f k) (f (reduce_keys higher)) = true
  /\ fle (f (reduce_keys lower)) (f k) = true.
Proof.
  unfold reduce_keys.
  destruct (fold_higher [k_accommodation; k_food; k_activities; k_transportation;
                         k_miscellaneous] k_flights) as (H1 & H2).
  destruct (fold_lower [k_accommodation; k_food; k_activities; k_transportation;
                        k_miscellaneous] k_flights) as (L1 & L2).
  destruct k; first [split; [exact H1|exact L1]
                    | split; [apply H2|apply L2]; cbn [In]; tauto].
Qed.

End Extremes.

(** With equal amounts the last category is kept. *)
Lemma reduce_keys_ties (f : CategoryKey -> number) :
  (forall k k', feq (f k) (f k') = true) ->
  reduce_keys (fun prev current =>
    if (f prev >? f current)%num then prev else current) = k_miscellaneous
  /\ reduce_keys (fun prev current =>
    if (f prev <? f current)%num then prev else current) = k_miscellaneous.
Proof.
  intros H.
  assert (L : forall k k', flt (f k) (f k') = false)
    by (intros k k'; apply (feq_not_flt _ _ (H k k'))).
  unfold reduce_keys. cbn [fold_left]. rewrite !fgt_flt, !L. split; reflexivity.
Qed.

(** X17.  When no amount is NaN, no category has a greater amount than the
    highest category of the result, and none a smaller amount than the
    lowest.  When all six amounts are equal, both are [miscellaneous], the
    last category: the two reductions keep the later one of equal
    amounts. *)
Theorem highest_and_lowest_category (Date_getTime : string -> number)
    (trip : TripDetails) (itinerary : list ItineraryItem)
    (flights_ : option FlightSelection) :
  let a := analyzeTripBudget Date_getTime trip itinerary flights_ in
  let cost k := amount (category_of (breakdown a) k) in
  (forall k, is_nan (cost k) = false) ->
  (forall k, fle (cost k) (cost (highestCategory (analysis a))) = true
             /\ fle (cost (lowestCategory (analysis a))) (cost k) = true)
  /\ ((forall k k', feq (cost k) (cost k') = true) ->
      highestCategory (analysis a) = k_miscellaneous
      /\ lowestCategory (analysis a) = k_miscellaneous).
Proof.
  intros a cost. subst cost a. fields X.
  destruct X as (_ & _ & _ & _ & _ & _ & _ & -> & -> & _).
  generalize (breakdown (analyzeTripBudget Date_getTime trip itinerary flights_)).
  intros b N. split.
  - intros k.
    apply (reduce_keys_extremes (fun k => amount (category_of b k)) _ _ N
             (fun _ _ => eq_refl) (fun _ _ => eq_refl) k).
  - intros T. apply (reduce_keys_ties (fun k => amount (category_of b k)) T).
Qed.

(** X17 at a weekend in Paris, where flights are the highest category. *)
Lemma highest_and_lowest_category_witness :
  (forall k, is_nan (amount (category_of
      (breakdown (analyzeTripBudget isoDate weekendTrip [oneDay] (Some weekendFlights)))
      k)) = false)
  /\ highestCategory (analysis
       (analyzeTripBudget isoDate weekendTrip [oneDay] (Some weekendFlights)))
     = k_flights
  /\ forall k,
       fle (amount (category_of
              (breakdown (analyzeTripBudget isoDate weekendTrip [oneDay]
                            (Some weekendFlights))) k))
           (amount (category_of
              (breakdown (analyzeTripBudget isoDate weekendTrip [oneDay]
                            (Some weekendFlights)))
              (highestCategory (analysis
                 (analyzeTripBudget isoDate weekendTrip [oneDay]
                    (Some weekendFlights)))))) = true.
Proof.
  assert (N : forall k, is_nan (amount (category_of
      (breakdown (analyzeTripBudget isoDate weekendTrip [oneDay] (Some weekendFlights)))
      k)) = false) by (intros k; destruct k; vm_compute; reflexivity).
  assert (E : highestCategory (analysis
       (analyzeTripBudget isoDate weekendTrip [oneDay] (Some weekendFlights)))
     = k_flights) by (vm_compute; reflexivity).
  pose proof (highest_and_lowest_category isoDate weekendTrip [oneDay]
                (Some weekendFlights) N) as X.
  exact (conj N (conj E (fun k => proj1 (proj1 X k)))).
Defined.

(** ** Divisions without a guard *)

Lemma Math_round_degenerate (x : number) :
  is_degenerate x = true -> is_degenerate (Math_round x) = true.
Proof. destruct x as [s|s| |s m e]; intros H; try discriminate H; exact H. Qed.

(** X18.  The divisions have no guard.  With zero travellers the cost per
    person is NaN or an infinity, and with a total of zero every percentage
    of the breakdown is NaN or an infinity. *)
Theorem divisions_by_zero (Date_getTime : string -> number)
    (trip : TripDetails) (itinerary : list ItineraryItem)
    (flights_ : option FlightSelection) :
  let a := analyzeTripBudget Date_getTime trip itinerary flights_ in
  (feq (travelers trip) zero = true -> is_degenerate (costPerPerson a) = true)
  /\ (feq (totalCostOf (breakdown a)) zero = true ->
      forall k, is_degenerate (percentage (category_of (breakdown a) k)) = true).
Proof.
  intros a. subst a. fields X.
  destruct X as (_ & -> & _ & P & _).
  assert (F : is_finite (of_Z 100) = true) by (vm_compute; reflexivity).
  split.
  - intros H. destruct (feq_zero_inv _ H) as (s & ->).
    apply Math_round_degenerate, fdiv_zero.
  - intros H k. rewrite P. destruct (feq_zero_inv _ H) as (s & ->).
    revert F. generalize (of_Z 100). intros c F.
    apply fmul_degenerate; [apply fdiv_zero | exact F].
Qed.

(** ** Rates of a destination *)

Local Open Scope string_scope.

Lemma assoc_missing (key : string) (table : list (string * Z)) :
  ~ In key (map fst table) -> assoc key table = None.
Proof.
  induction table as [|[k v] table IH]; intros H; [reflexivity|].
  cbn [assoc]. destruct (String.eqb_spec k key) as [E|E].
  - exfalso. apply H. left. exact E.
  - apply IH. intros C. apply H. right. exact C.
Qed.

Lemma rate_or_missing (table : list (string * Z)) (key : string) (fallback : Z) :
  ~ In key (map fst table) -> ~ In key inherited_names ->
  rate_or table key fallback = of_Z fallback.
Proof.
  intros H1 H2. unfold rate_or. rewrite (assoc_missing _ _ H1).
  destruct (existsb (String.eqb key) inherited_names) eqn:E; [|reflexivity].
  exfalso. apply H2. apply existsb_exists in E. destruct E as (x & Hx & E).
  apply String.eqb_eq in E. subst x. exact Hx.
Qed.

Lemma rate_or_inherited (table : list (string * Z)) (key : string) (fallback : Z) :
  ~ In key (map fst table) -> In key inherited_names ->
  rate_or table key fallback = S754_nan.
Proof.
  intros H1 H2. unfold rate_or. rewrite (assoc_missing _ _ H1).
  assert (E : existsb (String.eqb key) inherited_names = true).
  { apply existsb_exists. exists key. split; [exact H2|apply String.eqb_refl]. }
  rewrite E. reflexivity.
Qed.

(** X19.  The rate tables are looked up with the destination as it is
    typed.  For a destination that is none of the ten cities (in this
    spelling) and no name inherited from [Object.prototype], the estimates
    use the fallback rates 500, 150, 70, 50 and 20. *)
Theorem unlisted_destination (src destination : string) (its : list string)
    (days travelers : number) :
  ~ In destination cities -> ~ In destination inherited_names ->
  estimateFlightCost src destination travelers days
  = Math_round (of_Z 500
                * (if (days >? of_Z 7)%num then lit 1.2
                   else if (days <? of_Z 3)%num then lit 0.8 else lit 1.0)
                * travelers)%num
  /\ estimateAccommodationCost destination days travelers
     = Math_round (of_Z 150 * days * Math_ceil (travelers / of_Z 2))%num
  /\ estimateFoodCost destination days travelers
     = Math_round (of_Z 70 * days * travelers)%num
  /\ estimateActivityCost destination its days travelers
     = Math_round (of_Z 50 * days * travelers
                   * (if (3 <? Z.of_nat (List.length its))%Z then lit 1.3
                      else if (Z.of_nat (List.length its) <? 2)%Z then lit 0.7
                      else lit 1.0))%num
  /\ estimateTransportationCost destination days travelers
     = Math_round (of_Z 20 * days * travelers)%num.
Proof.
  intros H1 H2.
  unfold estimateFlightCost, estimateAccommodationCost, estimateFoodCost,
    estimateActivityCost, estimateTransportationCost.
  rewrite !rate_or_missing by assumption.
  repeat split.
Qed.

(** X20.  For a destination named like a property every object inherits
    ([constructor], [toString], ...), the lookup in a rate table finds that
    property instead of a rate, and all six estimates are NaN. *)
Theorem inherited_name_destination (src destination : string) (its : list string)
    (days travelers : number) :
  In destination inherited_names ->
  is_nan (estimateFlightCost src destination travelers days) = true
  /\ is_nan (estimateAccommodationCost destination days travelers) = true
  /\ is_nan (estimateFoodCost destination days travelers) = true
  /\ is_nan (estimateActivityCost destination its days travelers) = true
  /\ is_nan (estimateTransportationCost destination days travelers) = true
  /\ is_nan (estimateMiscellaneousCost destination days travelers) = true.
Proof.
  intros H.
  assert (N : ~ In destination cities).
  { intros C. cbn [In inherited_names cities] in H, C.
    repeat (destruct H as [<-|H];
            [repeat (destruct C as [C|C]; [discriminate C|]); contradiction|]).
    contradiction. }
  unfold estimateMiscellaneousCost, estimateFlightCost, estimateAccommodationCost,
    estimateFoodCost, estimateActivityCost, estimateTransportationCost.
  rewrite !rate_or_inherited by assumption.
  assert (R : Math_round S754_nan = S754_nan) by reflexivity.
  repeat (progress rewrite ?fmul_nan_l, ?fadd_nan_l, ?R). repeat split.
Qed.

(** ** The estimates grow with the days and the travellers *)

Local Open Scope Z_scope.

Lemma assoc_In (key : string) (table : list (string * Z)) (v : Z) :
  assoc key table = Some v -> In (key, v) table.
Proof.
  induction table as [|[k w] table IH]; intros H; [discriminate H|].
  cbn [assoc] in H. destruct (String.eqb_spec k key) as [E|E].
  - injection H as <-. subst k. left. reflexivity.
  - right. apply IH, H.
Qed.

Lemma rate_or_between (table : list (string * Z)) (key : string) (fallback : Z) :
  Forall (fun kv => between (of_Z 1) (or_else (of_Z (snd kv)) (of_Z fallback))
                      (or_else (of_Z (snd kv)) (of_Z fallback))) table ->
  between (of_Z 1) (of_Z fallback) (of_Z fallback) ->
  ~ In key inherited_names ->
  between (of_Z 1) (rate_or table key fallback) (rate_or table key fallback).
Proof.
  intros HT HF HN. unfold rate_or.
  destruct (assoc key table) as [v|] eqn:E.
  - rewrite Forall_forall in HT. apply (HT (key, v)), assoc_In, E.
  - destruct (existsb (String.eqb key) inherited_names) eqn:X; [|exact HF].
    exfalso. apply HN. apply existsb_exists in X. destruct X as (x & Hx & X).
    apply String.eqb_eq in X. subst x. exact Hx.
Qed.

Ltac solve_rates :=
  apply rate_or_between;
  [ repeat (apply Forall_cons; [apply between_intro; vm_compute; reflexivity|]);
    apply Forall_nil
  | apply between_intro; vm_compute; reflexivity
  | assumption ].

Lemma flight_factor_between (days days' : number) :
  fle days days' = true ->
  between (lit 0.8)
    (if (days >? of_Z 7)%num then lit 1.2
     else if (days <? of_Z 3)%num then lit 0.8 else lit 1.0)
    (if (days' >? of_Z 7)%num then lit 1.2
     else if (days' <? of_Z 3)%num then lit 0.8 else lit 1.0).
Proof.
  intros H. rewrite !fgt_flt.
  destruct (flt (of_Z 7) days) eqn:E7.
  - rewrite (flt_fle_trans _ _ _ E7 H). apply between_intro; vm_compute; reflexivity.
  - destruct (flt days' (of_Z 3)) eqn:E3'.
    + rewrite (fle_flt_trans _ _ _ H E3').
      assert (E7' : flt (of_Z 7) days' = false).
      { destruct (flt (of_Z 7) days') eqn:C; [|reflexivity].
        assert (X : flt (of_Z 7) (of_Z 3) = true)
          by (apply (flt_fle_trans _ days'); [exact C | apply flt_fle, E3']).
        vm_compute in X. discriminate X. }
      rewrite E7'. apply between_intro; vm_compute; reflexivity.
    + destruct (flt days (of_Z 3)); destruct (flt (of_Z 7) days');
        apply between_intro; vm_compute; reflexivity.
Qed.

Ltac solve_between' :=
  lazymatch goal with
  | |- between _ (fmul _ _) (fmul _ _) =>
      eapply between_mul; [solve_between' | solve_between' | vm_compute; reflexivity]
  | |- between _ (Math_ceil _) (Math_ceil _) =>
      eapply between_ceil; [solve_between' | vm_compute; reflexivity]
  | |- between _ (fdiv _ _) (fdiv _ _) =>
      eapply between_div;
      [solve_between' | vm_compute; reflexivity | reflexivity | vm_compute; reflexivity]
  | |- between _ (if fgt _ _ then _ else _) _ =>
      apply flight_factor_between; assumption
  | |- between _ _ _ =>
      first [ eassumption
            | apply between_refl, flt_zero_positive; vm_compute; reflexivity ]
  end.

Lemma amount_le_positive_add (s s' a a' : number) :
  positive_num s -> amount_le s s' -> amount_le a a' -> positive_num (s + a)%num.
Proof.
  intros P (Ns & Ws & _) (Na & Wa & _).
  apply (positive_fle s); [exact P|]. apply fle_fadd_l; assumption.
Qed.

Lemma estimates_between (src destination : string) (its : list string)
    (days days' travelers travelers' : number) :
  ~ In destination inherited_names ->
  between (of_Z 1) days days' -> between (of_Z 1) travelers travelers' ->
  (amount_le (estimateFlightCost src destination travelers days)
             (estimateFlightCost src destination travelers' days')
   /\ positive_num (estimateFlightCost src destination travelers days))
  /\ amount_le (estimateAccommodationCost destination days travelers)
               (estimateAccommodationCost destination days' travelers')
  /\ amount_le (estimateFoodCost destination days travelers)
               (estimateFoodCost destination days' travelers')
  /\ amount_le (estimateActivityCost destination its days travelers)
               (estimateActivityCost destination its days' travelers')
  /\ amount_le (estimateTransportationCost destination days travelers)
               (estimateTransportationCost destination days' travelers').
Proof.
  intros HN BD BT.
  assert (HD : fle days days' = true) by apply BD.
  assert (BD0 : between (of_Z 1) days days) by (apply (between_weaken _ _ _ BD)).
  assert (BT0 : between (of_Z 1) travelers travelers)
    by (apply (between_weaken _ _ _ BT)).
  assert (HD0 : fle days days = true) by apply BD0.
  unfold estimateFlightCost, estimateAccommodationCost, estimateFoodCost,
    estimateActivityCost, estimateTransportationCost.
  repeat match goal with
  | |- context [rate_or ?t destination ?f] =>
      let r := fresh "r" in let B := fresh "B" in
      assert (B : between (of_Z 1) (rate_or t destination f) (rate_or t destination f))
        by solve_rates;
      revert B; generalize (rate_or t destination f); intros r B
  end.
  split; [split|].
  - eapply between_round. solve_between'.
  - eapply between_round_positive; [solve_between' | vm_compute; reflexivity].
  - split; [eapply between_round; solve_between'|].
    split; [eapply between_round; solve_between'|].
    split; [|eapply between_round; solve_between'].
    destruct (3 <? Z.of_nat (List.length its));
      [|destruct (Z.of_nat (List.length its) <? 2)];
      eapply between_round; solve_between'.
Qed.

(** X21.  Each of the six estimates grows with the days and the
    travellers: from one day and one traveller on, a trip with at least as
    many days and travellers is estimated at least as high in every
    category (for a destination that is no inherited name). *)
Theorem estimates_monotone (src destination : string) (its : list string)
    (days days' travelers travelers' : number) :
  ~ In destination inherited_names ->
  fle (of_Z 1) days = true -> fle days days' = true ->
  fle (of_Z 1) travelers = true -> fle travelers travelers' = true ->
  fle (estimateFlightCost src destination travelers days)
      (estimateFlightCost src destination travelers' days') = true
  /\ fle (estimateAccommodationCost destination days travelers)
         (estimateAccommodationCost destination days' travelers') = true
  /\ fle (estimateFoodCost destination days travelers)
         (estimateFoodCost destination days' travelers') = true
  /\ fle (estimateActivityCost destination its days travelers)
         (estimateActivityCost destination its days' travelers') = true
  /\ fle (estimateTransportationCost destination days travelers)
         (estimateTransportationCost destination days' travelers') = true
  /\ fle (estimateMiscellaneousCost destination days travelers)
         (estimateMiscellaneousCost destination days' travelers') = true.
Proof.
  intros HN HD HDD HT HTT.
  assert (P1 : flt zero (of_Z 1) = true) by (vm_compute; reflexivity).
  pose proof (between_intro _ _ _ P1 HD HDD) as BD.
  pose proof (between_intro _ _ _ P1 HT HTT) as BT.
  destruct (estimates_between src destination its _ _ _ _ HN BD BT)
    as ((A1 & _) & A2 & A3 & A4 & A5).
  split; [apply A1|]. split; [apply A2|]. split; [apply A3|].
  split; [apply A4|]. split; [apply A5|].
  clear A1 A2 A3 A4 A5.
  destruct (estimates_between "" destination [] _ _ _ _ HN BD BT)
    as ((A1 & Q1) & A2 & A3 & A4 & A5).
  unfold estimateMiscellaneousCost.
  revert A1 Q1 A2 A3 A4 A5.
  generalize (estimateFlightCost "" destination travelers days)
    (estimateFlightCost "" destination travelers' days')
    (estimateAccommodationCost destination days travelers)
    (estimateAccommodationCost destination days' travelers')
    (estimateFoodCost destination days travelers)
    (estimateFoodCost destination days' travelers')
    (estimateActivityCost destination [] days travelers)
    (estimateActivityCost destination [] days' travelers')
    (estimateTransportationCost destination days travelers)
    (estimateTransportationCost destination days' travelers').
  intros f f' a a' o o' c c' t t' A1 Q1 A2 A3 A4 A5.
  pose proof (amount_le_add _ _ _ _ A1 A2) as S2.
  pose proof (amount_le_positive_add _ _ _ _ Q1 A1 A2) as Q2.
  pose proof (amount_le_add _ _ _ _ S2 A3) as S3.
  pose proof (amount_le_positive_add _ _ _ _ Q2 S2 A3) as Q3.
  pose proof (amount_le_add _ _ _ _ S3 A4) as S4.
  pose proof (amount_le_positive_add _ _ _ _ Q3 S3 A4) as Q4.
  pose proof (amount_le_add _ _ _ _ S4 A5) as S5.
  pose proof (amount_le_positive_add _ _ _ _ Q4 S4 A5) as Q5.
  assert (P15 : positive_num (lit 0.15))
    by (apply flt_zero_positive; vm_compute; reflexivity).
  apply Math_round_mono.
  - apply fmul_positive_nonneg; assumption.
  - apply fmul_mono; [exact Q5 | apply S5 | exact P15 | vm_compute; reflexivity].
Qed.

(** X21 at Paris: three days for two against eight days for three. *)
Lemma estimates_monotone_witness :
  ~ In "Paris"%string inherited_names
  /\ fle (of_Z 1) (of_Z 3) = true /\ fle (of_Z 3) (of_Z 8) = true
  /\ fle (of_Z 1) (of_Z 2) = true /\ fle (of_Z 2) (of_Z 3) = true
  /\ fle (estimateMiscellaneousCost "Paris" (of_Z 3) (of_Z 2))
         (estimateMiscellaneousCost "Paris" (of_Z 8) (of_Z 3)) = true.
Proof.
  assert (H0 : ~ In "Paris"%string inherited_names).
  { cbn [In inherited_names]. intros H.
    repeat (destruct H as [H|H]; [discriminate H|]). exact H. }
  assert (H1 : fle (of_Z 1) (of_Z 3) = true) by (vm_compute; reflexivity).
  assert (H2 : fle (of_Z 3) (of_Z 8) = true) by (vm_compute; reflexivity).
  assert (H3 : fle (of_Z 1) (of_Z 2) = true) by (vm_compute; reflexivity).
  assert (H4 : fle (of_Z 2) (of_Z 3) = true) by (vm_compute; reflexivity).
  pose proof (estimates_monotone "" "Paris" [] _ _ _ _ H0 H1 H2 H3 H4) as X.
  exact (conj H0 (conj H1 (conj H2 (conj H3 (conj H4
           (proj2 (proj2 (proj2 (proj2 (proj2 X)))))))))).
Defined.

(** X19 at [paris], which is not the key [Paris]. *)
Lemma unlisted_destination_witness :
  ~ In "paris"%string cities /\ ~ In "paris"%string inherited_names
  /\ estimateFoodCost "paris" (of_Z 3) (of_Z 2)
     = Math_round (of_Z 70 * of_Z 3 * of_Z 2)%num.
Proof.
  assert (H1 : ~ In "paris"%string cities).
  { cbn [In cities]. intros H.
    repeat (destruct H as [H|H]; [discriminate H|]). exact H. }
  assert (H2 : ~ In "paris"%string inherited_names).
  { cbn [In inherited_names]. intros H.
    repeat (destruct H as [H|H]; [discriminate H|]). exact H. }
  pose proof (unlisted_destination "" "paris" [] (of_Z 3) (of_Z 2) H1 H2) as X.
  exact (conj H1 (conj H2 (proj1 (proj2 (proj2 X))))).
Defined.

(** X20 at the destination [constructor]. *)
Lemma inherited_name_destination_witness :
  In "constructor"%string inherited_names
  /\ is_nan (estimateFlightCost "" "constructor" (of_Z 2) (of_Z 3)) = true.
Proof.
  assert (H : In "constructor"%string inherited_names) by (left; reflexivity).
  exact (conj H (proj1 (inherited_name_destination "" "constructor" []
                          (of_Z 3) (of_Z 2) H))).
Defined.

End TravelBudgetAnalystEdgeFacts.

(* ================================================================== *)
(** * analyzeTripBudget: the days of a trip without return date         *)
(* ================================================================== *)

Module TripDurationFacts.
Import JSNumber JSNumberFacts JSNumberEdgeFacts JSNumberIntegerFacts.
Import JSString Itinerary TravelBudgetAnalyst Examples.
Import TravelBudgetAnalystEdgeFacts.

Local Open Scope Z_scope.

Lemma int_TimeClip (x : number) (a : Z) :
  int_value x a -> (Z.abs a <= 8640000000000000)%Z -> int_value (TimeClip x) a.
Proof.
  intros Hx H. pose proof Hx as (F & E).
  destruct x as [s|s| |s m e]; try discriminate F.
  - rewrite (int_zero_inv _ _ Hx). split; reflexivity.
  - unfold TimeClip.
    assert (B : Qle_bool (Qabs (F2Q (S754_finite s m e)))
                  (inject_Z 8640000000000000) = true).
    { apply Qle_bool_iff. rewrite E.
      change (Qabs (inject_Z a)) with (inject_Z (Z.abs a)).
      rewrite <- Zle_Qle. exact H. }
    rewrite B.
    assert (C : (if s then Qceiling (F2Q (S754_finite s m e))
                 else Qfloor (F2Q (S754_finite s m e))) = a).
    { destruct s.
      - unfold Qceiling. rewrite E, <- inject_Z_opp, Qfloor_Z. lia.
      - rewrite E. apply Qfloor_Z. }
    rewrite C. apply int_of_Z. lia.
Qed.

Lemma int_Math_max_one (y : number) (n : Z) :
  int_value y n -> (n < 2 ^ 53)%Z -> int_value (Math_max (of_Z 1) y) (Z.max 1 n).
Proof.
  intros Hy Hn. pose proof Hy as (F & E).
  assert (H1 : int_value (of_Z 1) 1) by (apply int_of_Z; lia).
  unfold Math_max.
  assert (N : is_nan y = false) by (destruct y; try discriminate F; reflexivity).
  rewrite N. change (is_nan (of_Z 1)) with false. cbn [orb].
  pose proof (int_flt _ _ _ _ H1 Hy) as L. pose proof (int_flt _ _ _ _ Hy H1) as G.
  unfold flt in L, G.
  assert (C : fcompare y (of_Z 1) = match fcompare (of_Z 1) y with
                                    | Some c => Some (CompOpp c) | None => None end).
  { destruct y as [sy|sy| |sy my ey]; try discriminate F;
      change (of_Z 1) with (S754_finite false 4503599627370496 (-52));
      cbn [fcompare]; rewrite <- Qcompare_antisym; reflexivity. }
  rewrite C in G.
  destruct (fcompare (of_Z 1) y) as [[| |]|] eqn:K; cbn [CompOpp] in G.
  - change (sign (of_Z 1)) with false. cbn iota.
    destruct (Z.ltb_spec 1 n); [discriminate L|].
    destruct (Z.ltb_spec n 1); [discriminate G|].
    replace (Z.max 1 n) with 1%Z by lia. exact H1.
  - destruct (Z.ltb_spec 1 n); [|discriminate L].
    replace (Z.max 1 n) with n by lia. exact Hy.
  - destruct (Z.ltb_spec n 1); [|discriminate G].
    replace (Z.max 1 n) with 1%Z by lia. exact H1.
  - exfalso. destruct y as [sy|sy| |sy my ey]; try discriminate F;
      change (of_Z 1) with (S754_finite false 4503599627370496 (-52)) in K;
      discriminate K.
Qed.

(** X22.  Without a return date (none, or an empty text) the trip lasts as
    many days as the itinerary has entries, and one day when the itinerary
    is empty, provided the departure date parses and the end stays in the
    range of a [Date]. *)
Theorem days_of_the_itinerary (Date_getTime : string -> number)
    (trip : TripDetails) (itinerary : list ItineraryItem)
    (flights_ : option FlightSelection) (t : Z) :
  returnDate trip = None \/ returnDate trip = Some ""%string ->
  int_value (Date_getTime (departureDate trip)) t ->
  (Z.abs t + Z.of_nat (List.length itinerary) * 86400000 <= 8640000000000000)%Z ->
  int_value
    (totalDays (analysis (analyzeTripBudget Date_getTime trip itinerary flights_)))
    (Z.max 1 (Z.of_nat (List.length itinerary))).
Proof.
  intros HR Ht Hb. fields X.
  destruct X as (_ & _ & _ & _ & _ & _ & _ & _ & _ & ->).
  set (n := Z.of_nat (List.length itinerary)) in *.
  assert (Hn : (0 <= n)%Z) by (subst n; lia).
  assert (E : match returnDate trip with
              | Some (String c r) => Date_getTime (String c r)
              | _ => TimeClip (Date_getTime (departureDate trip)
                               + of_Z n * of_Z 24 * of_Z 60 * of_Z 60 * of_Z 1000)%num
              end
              = TimeClip (Date_getTime (departureDate trip)
                          + of_Z n * of_Z 24 * of_Z 60 * of_Z 60 * of_Z 1000)%num).
  { destruct HR as [-> | ->]; reflexivity. }
  rewrite E. clear E.
  revert Ht. generalize (Date_getTime (departureDate trip)). intros x Ht.
  assert (I0 : int_value (of_Z n) n) by (apply int_of_Z; lia).
  assert (I1 : int_value (of_Z n * of_Z 24)%num (n * 24))
    by (apply int_fmul; [exact I0 | apply int_of_Z; lia | lia]).
  assert (I2 : int_value (of_Z n * of_Z 24 * of_Z 60)%num (n * 24 * 60))
    by (apply int_fmul; [exact I1 | apply int_of_Z; lia | lia]).
  assert (I3 : int_value (of_Z n * of_Z 24 * of_Z 60 * of_Z 60)%num (n * 24 * 60 * 60))
    by (apply int_fmul; [exact I2 | apply int_of_Z; lia | lia]).
  assert (I4 : int_value (of_Z n * of_Z 24 * of_Z 60 * of_Z 60 * of_Z 1000)%num
                 (n * 24 * 60 * 60 * 1000))
    by (apply int_fmul; [exact I3 | apply int_of_Z; lia | lia]).
  revert I4. generalize (of_Z n * of_Z 24 * of_Z 60 * of_Z 60 * of_Z 1000)%num.
  intros ms I4.
  assert (I5 : int_value (x + ms)%num (t + n * 24 * 60 * 60 * 1000))
    by (apply int_fadd; [exact Ht | exact I4 | lia]).
  assert (I6 : int_value (TimeClip (x + ms)%num) (t + n * 24 * 60 * 60 * 1000))
    by (apply int_TimeClip; [exact I5 | lia]).
  assert (I7 : int_value (TimeClip (x + ms)%num - x)%num
                 (t + n * 24 * 60 * 60 * 1000 - t))
    by (apply int_fsub; [exact I6 | exact Ht | lia]).
  assert (D : int_value (of_Z 1000 * of_Z 60 * of_Z 60 * of_Z 24)%num 86400000).
  { change 86400000%Z with (1000 * 60 * 60 * 24)%Z.
    repeat (apply int_fmul; [|apply int_of_Z; lia|lia]). apply int_of_Z. lia. }
  revert D. generalize (of_Z 1000 * of_Z 60 * of_Z 60 * of_Z 24)%num. intros d D.
  assert (I8 : int_value ((TimeClip (x + ms)%num - x) / d)%num n)
    by (apply (int_fdiv _ _ _ _ n I7 D); lia).
  assert (I9 : int_value (Math_ceil ((TimeClip (x + ms)%num - x) / d)%num) n)
    by (apply int_Math_ceil; [exact I8 | lia]).
  apply int_Math_max_one; [exact I9 | lia].
Qed.

(** X22 at a trip from 2025-03-15 with an itinerary of two days. *)
Lemma days_of_the_itinerary_witness :
  (returnDate openTrip = None \/ returnDate openTrip = Some ""%string)
  /\ int_value (isoDate (departureDate openTrip)) 1741996800000
  /\ (Z.abs 1741996800000 + Z.of_nat (List.length [oneDay; oneDay]) * 86400000
      <= 8640000000000000)%Z
  /\ int_value
       (totalDays (analysis (analyzeTripBudget isoDate openTrip [oneDay; oneDay] None)))
       (Z.max 1 (Z.of_nat (List.length [oneDay; oneDay]))).
Proof.
  assert (H1 : returnDate openTrip = None \/ returnDate openTrip = Some ""%string)
    by (left; reflexivity).
  assert (H2 : int_value (isoDate (departureDate openTrip)) 1741996800000)
    by (split; vm_compute; reflexivity).
  assert (H3 : (Z.abs 1741996800000
                + Z.of_nat (List.length [oneDay; oneDay]) * 86400000
                <= 8640000000000000)%Z) by (vm_compute; discriminate).
  exact (conj H1 (conj H2 (conj H3
           (days_of_the_itinerary isoDate openTrip [oneDay; oneDay] None
              1741996800000 H1 H2 H3)))).
Defined.

End TripDurationFacts.

(* ================================================================== *)
(** * generateBudgetRecommendations                                     *)
(* ================================================================== *)

Module RecommendationFacts.
Import JSNumber JSNumberFacts JSNumberEdgeFacts JSString Itinerary.
Import TravelBudgetAnalyst Examples TravelBudgetAnalystEdgeFacts.

(** ** Sorting the entries *)

Lemma insert_perm (x : CategoryKey * Category) (l : list (CategoryKey * Category)) :
  Permutation (insert_entry x l) (x :: l).
Proof.
  induction l as [|y l IH]; [reflexivity|].
  cbn [insert_entry]. destruct (fgt _ _); [|reflexivity].
  rewrite IH. apply perm_swap.
Qed.

Lemma sort_perm (l : list (CategoryKey * Category)) : Permutation (Array_sort l) l.
Proof.
  induction l as [|x l IH]; [reflexivity|].
  cbn [Array_sort]. rewrite insert_perm, IH. reflexivity.
Qed.

Lemma insert_sorted (x : CategoryKey * Category) (l : list (CategoryKey * Category)) :
  proper x -> Forall proper l ->
  StronglySorted costlier l -> StronglySorted costlier (insert_entry x l).
Proof.
  intros (Nx & Wx) HP HS. induction HS as [|y l HS IH HR].
  - repeat constructor.
  - inversion HP as [|? ? (Ny & Wy) HP']; subst.
    cbn [insert_entry]. unfold compareFn.
    rewrite (fgt_difference _ _ Wx Wy Nx Ny).
    destruct (flt (amount (snd x)) (amount (snd y))) eqn:E.
    + constructor; [apply IH, HP'|].
      eapply Permutation_Forall; [apply Permutation_sym, insert_perm|].
      constructor; [apply flt_fle, E | exact HR].
    + assert (L : costlier x y) by (apply flt_false_fle; assumption).
      constructor; [constructor; assumption|].
      constructor; [exact L|].
      eapply Forall_impl; [|exact HR]. intros z Hz.
      apply (fle_trans _ _ _ Hz L).
Qed.

Lemma sort_sorted (l : list (CategoryKey * Category)) :
  Forall proper l -> StronglySorted costlier (Array_sort l).
Proof.
  induction l as [|x l IH]; intros HP; [constructor|].
  inversion HP as [|? ? Hx HP']; subst. cbn [Array_sort].
  apply insert_sorted; [exact Hx| |apply IH, HP'].
  eapply Permutation_Forall; [apply Permutation_sym, sort_perm | exact HP'].
Qed.

Lemma skipn_In (n : nat) (l : list (CategoryKey * Category))
    (y : CategoryKey * Category) :
  In y (skipn n l) -> In y l.
Proof.
  revert l. induction n as [|n IH]; intros l H; [exact H|].
  destruct l as [|z l]; [destruct H|]. right. apply IH, H.
Qed.

Lemma firstn_In (n : nat) (l : list (CategoryKey * Category))
    (y : CategoryKey * Category) :
  In y (firstn n l) -> In y l.
Proof.
  revert l. induction n as [|n IH]; intros l H; [destruct H|].
  destruct l as [|z l]; [destruct H|].
  destruct H as [H|H]; [left; exact H | right; apply IH, H].
Qed.

Lemma sorted_split (n : nat) (l : list (CategoryKey * Category)) :
  StronglySorted costlier l ->
  forall x y, In x (firstn n l) -> In y (skipn n l) -> costlier x y.
Proof.
  intros HS. revert n. induction HS as [|z l HS IH HR]; intros n x y Hx Hy.
  - destruct n; destruct Hx.
  - destruct n as [|n]; [destruct Hx|].
    cbn [firstn skipn] in Hx, Hy. destruct Hx as [<-|Hx].
    + rewrite Forall_forall in HR. apply HR.
      apply (skipn_In n). exact Hy.
    + apply (IH n); assumption.
Qed.

(** ** The tips on cutting costs *)

Lemma In_cutCostTip (k : CategoryKey) (l : list (CategoryKey * Category)) :
  In (CutCost k) (flat_map (fun entry => cutCostTip (fst entry)) l)
  <-> In k (map fst l) /\ k <> k_miscellaneous.
Proof.
  rewrite in_flat_map, in_map_iff. split.
  - intros ([k' c] & Hin & H). cbn [fst] in H.
    assert (E : k' = k /\ k <> k_miscellaneous).
    { destruct k'; cbn [cutCostTip In] in H; try contradiction;
        destruct H as [H|[]]; injection H as <-;
        (split; [reflexivity|discriminate]). }
    destruct E as (-> & N).
    split; [exists (k, c); split; [reflexivity|exact Hin] | exact N].
  - intros (([k' c] & E & Hin) & N). cbn [fst] in E. subst k'.
    exists (k, c). split; [exact Hin|]. cbn [fst].
    destruct k; cbn [cutCostTip In]; try (left; reflexivity). contradiction.
Qed.

Lemma In_CutCost (b : BudgetBreakdown) (status : BudgetStatus) (destination : string)
    (days : number) (userBudget : option number) (k : CategoryKey) :
  In (CutCost k) (generateBudgetRecommendations b status destination days userBudget)
  <-> (status = over /\ (exists v, userBudget = Some v /\ truthy v = true)
       /\ In k (map fst (firstn 3 (Array_sort (Object_entries b))))
       /\ k <> k_miscellaneous).
Proof.
  unfold generateBudgetRecommendations. cbv zeta.
  set (tips := flat_map (fun entry => cutCostTip (fst entry))
                 (firstn 3 (Array_sort (Object_entries b)))).
  assert (T : In (CutCost k) tips
              <-> In k (map fst (firstn 3 (Array_sort (Object_entries b))))
                  /\ k <> k_miscellaneous) by apply In_cutCostTip.
  clearbody tips.
  destruct status; destruct userBudget as [v|]; try destruct (truthy v) eqn:Tv;
    destruct (fge days (of_Z 7));
    rewrite ?in_app_iff; cbn [In app];
    (split;
     [ intros H;
       repeat match goal with
              | H : _ \/ _ |- _ => destruct H as [H|H]
              | H : False |- _ => destruct H
              | H : _ = CutCost _ |- _ => discriminate H
              end;
       try (split; [reflexivity|]; split; [exists v; split; [reflexivity|assumption]|];
            apply T; assumption)
     | intros (S & (v' & Ev & Tv') & Hk); try discriminate S; try discriminate Ev;
       try (injection Ev as <-; congruence);
       try (apply T in Hk; tauto) ]).
Qed.

(** X23.  When the amounts are Numbers other than NaN, no recommendation
    advises to cut the miscellaneous costs, and a category whose costs a
    recommendation advises to cut costs at least as much as any category,
    miscellaneous apart, for which there is no such advice. *)
Theorem cost_cutting_tips (b : BudgetBreakdown) (status : BudgetStatus)
    (destination : string) (days : number) (userBudget : option number) :
  let recs := generateBudgetRecommendations b status destination days userBudget in
  let cost k := amount (category_of b k) in
  (forall k, is_nan (cost k) = false /\ well_formed (cost k) = true) ->
  ~ In (CutCost k_miscellaneous) recs
  /\ forall k k', In (CutCost k) recs -> ~ In (CutCost k') recs ->
                  k' <> k_miscellaneous ->
                  fle (cost k') (cost k) = true.
Proof.
  intros recs cost HP. subst recs cost. cbv beta in HP. split.
  - rewrite In_CutCost. intros (_ & _ & _ & N). apply N. reflexivity.
  - intros k k' Hk Hk' Nk'.
    apply In_CutCost in Hk. destruct Hk as (S & V & Hk & Nk).
    assert (Hk'' : ~ In k' (map fst (firstn 3 (Array_sort (Object_entries b))))).
    { intros C. apply Hk'. apply In_CutCost. repeat split; assumption. }
    clear Hk'.
    assert (HF : Forall proper (Object_entries b)).
    { unfold Object_entries, Object_keys. cbn [map].
      repeat constructor; cbn [snd]; apply HP. }
    pose proof (sort_sorted _ HF) as HS.
    pose proof (sort_perm (Object_entries b)) as HPm.
    assert (HE : forall e, In e (Array_sort (Object_entries b)) ->
                           snd e = category_of b (fst e)).
    { intros e He. apply (Permutation_in _ HPm) in He.
      unfold Object_entries in He. apply in_map_iff in He.
      destruct He as (k0 & <- & _). reflexivity. }
    apply in_map_iff in Hk. destruct Hk as ([k1 c1] & E1 & H1).
    cbn [fst] in E1. subst k1.
    assert (H2 : In (k', category_of b k') (skipn 3 (Array_sort (Object_entries b)))).
    { assert (H3 : In (k', category_of b k') (Array_sort (Object_entries b))).
      { apply (Permutation_in _ (Permutation_sym HPm)).
        unfold Object_entries.
        apply (in_map (fun k0 => (k0, category_of b k0))).
        unfold Object_keys. destruct k'; cbn [In]; tauto. }
      rewrite <- (firstn_skipn 3 (Array_sort (Object_entries b))) in H3.
      apply in_app_or in H3. destruct H3 as [H3|H3]; [|exact H3].
      exfalso. apply Hk''. apply in_map_iff.
      exists (k', category_of b k'). split; [reflexivity|exact H3]. }
    pose proof (sorted_split 3 _ HS _ _ H1 H2) as R.
    unfold costlier in R. cbn [snd] in R.
    assert (Ec : c1 = category_of b k).
    { apply (HE (k, c1)). apply (firstn_In 3). exact H1. }
    subst c1. exact R.
Qed.

(** ** The largest expense *)

Lemma feq_fle (x y : number) :
  feq x y = true -> fle x y = true /\ fle y x = true.
Proof.
  intros H. pose proof (feq_not_flt _ _ H) as (L1 & L2).
  apply feq_iff in H. destruct H as (Nx & Ny & _).
  split; apply flt_false_fle; assumption.
Qed.

Lemma feq_refl (x : number) : is_nan x = false -> feq x x = true.
Proof.
  intros N. apply feq_iff. repeat split; try assumption.
  destruct x as [s|s| |s m e]; try discriminate N; cbn [cls];
    try (right; reflexivity); destruct s; left; discriminate.
Qed.

Lemma feq_nan_r (x : number) : feq x S754_nan = false.
Proof. destruct x; reflexivity. Qed.

Lemma Math_max_nan_l (y : number) : Math_max S754_nan y = S754_nan.
Proof. reflexivity. Qed.

Lemma fold_Math_max_nan (l : list number) :
  fold_left Math_max l S754_nan = S754_nan.
Proof. induction l as [|x l IH]; [reflexivity|exact IH]. Qed.

Lemma Math_max_cases (x y : number) :
  is_nan x = false -> is_nan y = false ->
  (Math_max x y = x \/ Math_max x y = y)
  /\ fle x (Math_max x y) = true /\ fle y (Math_max x y) = true.
Proof.
  intros Nx Ny. unfold Math_max. rewrite Nx, Ny. cbn [orb].
  pose proof (fle_refl x Nx) as Rx. pose proof (fle_refl y Ny) as Ry.
  destruct (fcompare x y) as [[| |]|] eqn:C.
  - assert (E : feq x y = true) by (unfold feq; rewrite C; reflexivity).
    destruct (feq_fle _ _ E). destruct (sign x); auto.
  - assert (E : flt x y = true) by (unfold flt; rewrite C; reflexivity).
    split; [right; reflexivity|]. split; [apply flt_fle, E | exact Ry].
  - assert (E : flt y x = true) by (rewrite <- fgt_flt; unfold fgt; rewrite C; reflexivity).
    split; [left; reflexivity|]. split; [exact Rx | apply flt_fle, E].
  - exfalso. destruct x as [sx|sx| |sx mx ex]; try discriminate Nx;
      destruct y as [sy|sy| |sy my ey]; try discriminate Ny; discriminate C.
Qed.

Lemma fold_Math_max (l : list number) (acc : number) :
  is_nan acc = false -> Forall (fun x => is_nan x = false) l ->
  let m := fold_left Math_max l acc in
  is_nan m = false /\ (m = acc \/ In m l)
  /\ fle acc m = true /\ Forall (fun x => fle x m = true) l.
Proof.
  intros Na H. revert acc Na. induction H as [|x l Nx _ IH]; intros acc Na.
  - cbn. repeat split; [exact Na | left; reflexivity | apply fle_refl, Na | constructor].
  - cbn [fold_left].
    destruct (Math_max_cases acc x Na Nx) as (C & L1 & L2).
    assert (Nm : is_nan (Math_max acc x) = false) by (destruct C as [-> | ->]; assumption).
    destruct (IH _ Nm) as (N & I & L & F). cbv zeta in *.
    split; [exact N|]. split; [|split].
    + destruct I as [I|I]; [|right; right; exact I].
      rewrite I. destruct C as [-> | ->]; [left; reflexivity | right; left; reflexivity].
    + apply (fle_trans _ _ _ L1 L).
    + constructor; [apply (fle_trans _ _ _ L2 L) | exact F].
Qed.

Lemma fold_Math_max_has_nan (l : list number) (acc : number) :
  Exists (fun x => is_nan x = true) l -> fold_left Math_max l acc = S754_nan.
Proof.
  intros H. revert acc. induction H as [x l H|x l _ IH]; intros acc.
  - cbn [fold_left]. rewrite (is_nan_eq _ H).
    assert (E : Math_max acc S754_nan = S754_nan).
    { unfold Math_max. cbn [is_nan]. rewrite orb_true_r. reflexivity. }
    rewrite E. apply fold_Math_max_nan.
  - cbn [fold_left]. apply IH.
Qed.

(** The largest of the six amounts, when none is NaN. *)
Lemma Math_max_of_costs (cost : CategoryKey -> number) :
  (forall k, is_nan (cost k) = false) ->
  let m := Math_max_of (map cost Object_keys) in
  (exists k, m = cost k) /\ forall k, fle (cost k) m = true.
Proof.
  intros N m. subst m. unfold Math_max_of.
  assert (F : Forall (fun x => is_nan x = false) (map cost Object_keys)).
  { unfold Object_keys. cbn [map]. repeat constructor; apply N. }
  destruct (fold_Math_max _ (S754_infinity true) eq_refl F) as (Nm & I & _ & L).
  cbv zeta in *. split.
  - destruct I as [I|I].
    + exists k_flights.
      rewrite Forall_forall in L.
      assert (Lf : fle (cost k_flights)
                     (fold_left Math_max (map cost Object_keys) (S754_infinity true))
                   = true).
      { apply L. unfold Object_keys. cbn [map In]. tauto. }
      rewrite I in Lf |- *. pose proof (N k_flights) as Nf.
      destruct (cost k_flights) as [s|[|]| |s m e]; try discriminate Nf;
        try discriminate Lf; reflexivity.
    + apply in_map_iff in I. destruct I as (k & E & _). exists k. symmetry. exact E.
  - intros k. rewrite Forall_forall in L. apply L.
    apply in_map. unfold Object_keys. destruct k; cbn [In]; tauto.
Qed.

Lemma cutCostTip_only (x : Recommendation) (l : list (CategoryKey * Category)) :
  In x (flat_map (fun entry => cutCostTip (fst entry)) l) -> exists k, x = CutCost k.
Proof.
  rewrite in_flat_map. intros ([k c] & _ & H). cbn [fst] in H.
  destruct k; cbn [cutCostTip In] in H; try contradiction;
    destruct H as [<-|[]]; eexists; reflexivity.
Qed.

(** X24.  The recommendations name the largest expense exactly once: the
    list is some recommendations, the largest expense, and some more, and
    none of the others names a largest expense.  It is undefined when an
    amount is NaN; otherwise it is a category of greatest amount, and with
    six equal amounts it is [flights], the first one, where the highest
    category of the analysis is the last one. *)
Theorem largest_expense (b : BudgetBreakdown) (status : BudgetStatus)
    (destination : string) (days : number) (userBudget : option number) :
  let recs := generateBudgetRecommendations b status destination days userBudget in
  let cost k := amount (category_of b k) in
  exists front back r,
    recs = front ++ LargestExpense r :: back
    /\ (forall r', ~ In (LargestExpense r') front)
    /\ (forall r', ~ In (LargestExpense r') back)
    /\ ((exists k, is_nan (cost k) = true) -> r = None)
    /\ ((forall k, is_nan (cost k) = false) ->
        exists k, r = Some k /\ forall k', fle (cost k') (cost k) = true)
    /\ ((forall k k', feq (cost k) (cost k') = true) -> r = Some k_flights).
Proof.
  intros recs cost. subst recs.
  set (m := Math_max_of (map (fun v => amount v) (map (category_of b) Object_keys))).
  assert (Em : m = Math_max_of (map cost Object_keys)).
  { subst m. rewrite map_map. reflexivity. }
  set (total := (amount (flights b) + amount (accommodation b) + amount (food b)
                 + amount (activities b) + amount (transportation b)
                 + amount (miscellaneous b))%num).
  set (tips := flat_map (fun entry => cutCostTip (fst entry))
                 (firstn 3 (Array_sort (Object_entries b)))).
  exists (match status, userBudget with
          | over, Some v =>
              if truthy v then BudgetExceeded (Math_round (total - v)%num) :: tips
              else []
          | under, Some v =>
              if truthy v
              then [UnderBudget (Math_round (v - total)%num); UpgradeAccommodation;
                    LuxuryDining]
              else []
          | _, _ => []
          end),
         ((if fge days (of_Z 7) then [ExtendedStay] else []) ++ [KeepExtra]),
         (find (fun k => feq (cost k) m) Object_keys).
  split; [|split; [|split; [|split; [|split]]]].
  - unfold generateBudgetRecommendations. cbv zeta. fold m. fold total. fold tips.
    clearbody tips total m.
    destruct status; destruct userBudget as [v|]; try destruct (truthy v);
      destruct (fge days (of_Z 7)); cbn [app]; rewrite <- ?app_assoc; reflexivity.
  - intros r' H.
    destruct status; destruct userBudget as [v|]; try destruct (truthy v);
      cbn [In] in H;
      repeat match goal with
             | H : _ \/ _ |- _ => destruct H as [H|H]
             | H : False |- _ => destruct H
             | H : _ = LargestExpense _ |- _ => discriminate H
             end.
    apply cutCostTip_only in H. destruct H as (k & H). discriminate H.
  - intros r' H. destruct (fge days (of_Z 7)); cbn [app In] in H;
      repeat match goal with
             | H : _ \/ _ |- _ => destruct H as [H|H]
             | H : False |- _ => destruct H
             | H : _ = LargestExpense _ |- _ => discriminate H
             end.
  - intros (k & Hk).
    assert (E : m = S754_nan).
    { rewrite Em. apply fold_Math_max_has_nan.
      apply Exists_exists. exists (cost k). split; [|exact Hk].
      apply in_map. unfold Object_keys. destruct k; cbn [In]; tauto. }
    rewrite E. unfold Object_keys. cbn [find]. rewrite !feq_nan_r. reflexivity.
  - intros N. destruct (Math_max_of_costs cost N) as ((k0 & E0) & L).
    cbv zeta in E0, L. rewrite <- Em in E0, L.
    destruct (find (fun k => feq (cost k) m) Object_keys) as [k|] eqn:F.
    + exists k. split; [reflexivity|]. apply find_some in F. destruct F as (_ & F).
      intros k'. destruct (feq_fle _ _ F) as (_ & G).
      apply (fle_trans _ _ _ (L k') G).
    + exfalso. pose proof (find_none _ _ F k0) as X. cbv beta in X.
      rewrite E0, (feq_refl _ (N k0)) in X.
      assert (I : In k0 Object_keys)
        by (unfold Object_keys; destruct k0; cbn [In]; tauto).
      specialize (X I). discriminate X.
  - intros T.
    assert (N : forall k, is_nan (cost k) = false).
    { intros k. pose proof (T k k) as X. apply feq_iff in X. apply X. }
    destruct (Math_max_of_costs cost N) as ((k0 & E0) & _).
    cbv zeta in E0. rewrite <- Em in E0.
    unfold Object_keys. cbn [find]. rewrite E0, (T k_flights k0). reflexivity.
Qed.

(** ** The recommendations of an analysis *)

(** X25.  The recommendations of an analysis.  They end with the largest
    expense, the advice on extended stays exactly when the trip has seven
    days or more, and the advice to keep a reserve.  Before these come: for
    the status [over], the rounded budget difference and the advice on the
    three costliest categories; for [under], the rounded surplus and two
    advices on upgrades; for [exact] and [no_budget], nothing. *)
Theorem recommendations_of_analysis (Date_getTime : string -> number)
    (trip : TripDetails) (itinerary : list ItineraryItem)
    (flights_ : option FlightSelection) :
  let a := analyzeTripBudget Date_getTime trip itinerary flights_ in
  let recs := analyzeTripBudget_recommendations Date_getTime trip itinerary flights_ in
  exists front r,
    recs = front ++ LargestExpense r
                    :: (if fge (totalDays (analysis a)) (of_Z 7)
                        then [ExtendedStay] else [])
                    ++ [KeepExtra]
    /\ match budgetStatus a with
       | over =>
           exists d, budgetDifference a = Some d
             /\ front = BudgetExceeded (Math_round d)
                        :: flat_map (fun entry => cutCostTip (fst entry))
                             (firstn 3 (Array_sort (Object_entries (breakdown a))))
       | under =>
           exists v, budget trip = Some v
             /\ front = [UnderBudget (Math_round (v - totalCostOf (breakdown a))%num);
                         UpgradeAccommodation; LuxuryDining]
       | exact | no_budget => front = []
       end.
Proof.
  intros a recs. subst recs a. unfold analyzeTripBudget_recommendations. cbv zeta.
  fields X. destruct X as (_ & _ & _ & _ & _ & -> & -> & _).
  generalize (totalDays (analysis
                (analyzeTripBudget Date_getTime trip itinerary flights_)))
    (breakdown (analyzeTripBudget Date_getTime trip itinerary flights_)).
  intros days b.
  unfold generateBudgetRecommendations. cbv zeta.
  fold (totalCostOf b).
  set (r := find _ Object_keys).
  set (tips := flat_map (fun entry => cutCostTip (fst entry))
                 (firstn 3 (Array_sort (Object_entries b)))).
  destruct (budget trip) as [v|]; [destruct (truthy v) eqn:T|].
  - destruct (flt (totalCostOf b) (v * lit 0.95)%num);
      [|destruct (fgt (totalCostOf b) (v * lit 1.05)%num)].
    + exists [UnderBudget (Math_round (v - totalCostOf b)%num);
              UpgradeAccommodation; LuxuryDining], r.
      split; [|exists v; split; reflexivity].
      destruct (fge days (of_Z 7)); reflexivity.
    + exists (BudgetExceeded (Math_round (totalCostOf b - v)%num) :: tips), r.
      split; [|exists (totalCostOf b - v)%num; split; reflexivity].
      clearbody tips r.
      destruct (fge days (of_Z 7)); cbn [app]; rewrite <- !app_assoc;
        reflexivity.
    + exists [], r. split; [|reflexivity].
      destruct (fge days (of_Z 7)); reflexivity.
  - exists [], r. split; [|reflexivity].
    destruct (fge days (of_Z 7)); reflexivity.
  - exists [], r. split; [|reflexivity].
    destruct (fge days (of_Z 7)); reflexivity.
Qed.

(** X23 at a day in Paris that exceeds a budget of 1000. *)
Lemma cost_cutting_tips_witness :
  (forall k,
     is_nan (amount (category_of
       (breakdown (analyzeTripBudget isoDate openTrip [oneDay] (Some weekendFlights)))
       k)) = false
     /\ well_formed (amount (category_of
       (breakdown (analyzeTripBudget isoDate openTrip [oneDay] (Some weekendFlights)))
       k)) = true)
  /\ ~ In (CutCost k_miscellaneous)
         (generateBudgetRecommendations
            (breakdown (analyzeTripBudget isoDate openTrip [oneDay] (Some weekendFlights)))
            over "paris" (of_Z 1) (Some (of_Z 1000))).
Proof.
  assert (H : forall k,
     is_nan (amount (category_of
       (breakdown (analyzeTripBudget isoDate openTrip [oneDay] (Some weekendFlights)))
       k)) = false
     /\ well_formed (amount (category_of
       (breakdown (analyzeTripBudget isoDate openTrip [oneDay] (Some weekendFlights)))
       k)) = true) by (intros k; destruct k; split; vm_compute; reflexivity).
  exact (conj H (proj1 (cost_cutting_tips _ over "paris" (of_Z 1)
                          (Some (of_Z 1000)) H))).
Defined.

End RecommendationFacts.

(* ================================================================== *)
(** * analyzeTripBudget: the city of departure                          *)
(* ================================================================== *)

Module SourceFacts.
Import JSNumber JSNumberFacts JSNumberEdgeFacts JSString Itinerary.
Import TravelBudgetAnalyst Examples TravelBudgetAnalystEdgeFacts.

(** X26.  Neither the result nor its recommendations depend on the city of
    departure, although the flight estimate is given it, nor on what the
    interests are: two trips that agree on the destination, the dates, the
    travellers, the budget and the number of interests get the same result
    and the same recommendations. *)
Theorem analysis_ignores_source (Date_getTime : string -> number)
    (trip trip' : TripDetails) (itinerary : list ItineraryItem)
    (flights_ : option FlightSelection) :
  destination trip = destination trip' ->
  departureDate trip = departureDate trip' -> returnDate trip = returnDate trip' ->
  travelers trip = travelers trip' -> budget trip = budget trip' ->
  List.length (interests trip) = List.length (interests trip') ->
  analyzeTripBudget Date_getTime trip itinerary flights_
  = analyzeTripBudget Date_getTime trip' itinerary flights_
  /\ analyzeTripBudget_recommendations Date_getTime trip itinerary flights_
     = analyzeTripBudget_recommendations Date_getTime trip' itinerary flights_.
Proof.
  intros H1 H2 H3 H4 H5 H6.
  assert (E : analyzeTripBudget Date_getTime trip itinerary flights_
              = analyzeTripBudget Date_getTime trip' itinerary flights_).
  { unfold analyzeTripBudget. rewrite H1, H2, H3, H4, H5.
    unfold estimateActivityCost, estimateFlightCost. rewrite H6. reflexivity. }
  split; [exact E|].
  unfold analyzeTripBudget_recommendations. cbv zeta. rewrite E, H1, H5.
  reflexivity.
Qed.

(** X26 at a weekend in Paris from New York and from Boston. *)
Lemma analysis_ignores_source_witness :
  destination weekendTrip = destination elsewhereTrip
  /\ analyzeTripBudget_recommendations isoDate weekendTrip [] None
     = analyzeTripBudget_recommendations isoDate elsewhereTrip [] None.
Proof.
  assert (H1 : destination weekendTrip = destination elsewhereTrip) by reflexivity.
  exact (conj H1 (proj2 (analysis_ignores_source isoDate weekendTrip elsewhereTrip
                           [] None H1 eq_refl eq_refl eq_refl eq_refl eq_refl))).
Defined.

End SourceFacts.
